(** * qmt: a uniform upsert/query facade over SQLite, DuckDB and PostgreSQL

    A shallow embedding of [datamanager.py], [sqlite.py], [duck.py] and
    [pgsql.py].  Python objects become records whose optional fields are the
    attributes that may or may not have been set; methods become actions of a
    state-and-exception monad over the adapter object and its environment
    (local files, the native database, the calls handed to the driver and the
    console).  The native engines are collaborators of the program: the
    adapters are written against the interface [Native], and a reference
    engine at the end of the first part gives that interface one executable
    instance. *)

From Stdlib Require Import ZArith Bool Lia.
From stdpp Require Import base option list gmap strings pretty.

Local Open Scope string_scope.
Local Open Scope list_scope.

(** ** Python values, exceptions and results *)

(** Scalars found in a batch cell, a dict value or a native row.  A float is
    carried as mantissa and exponent, [VFloat m e] standing for [m * 2^e]; the
    program never computes with it. *)
Inductive value :=
| VInt (z : Z)
| VFloat (m e : Z)
| VStr (s : string)
| VBool (b : bool)
| VNone.

#[global] Instance value_eq_dec : EqDecision value.
Proof. solve_decision. Defined.

(** The exceptions the modelled code can meet.  [NativeError] stands for any
    error raised inside a driver ([sqlite3], [duckdb], [psycopg2], [toml]). *)
Inductive exn :=
| AttributeError
| ValueError
| TypeError
| FileNotFoundError
| UnpicklingError
| NativeError.

#[global] Instance exn_eq_dec : EqDecision exn.
Proof. solve_decision. Defined.

Inductive result (A : Type) :=
| Ok (a : A)
| Raise (e : exn).
Arguments Ok {A} a.
Arguments Raise {A} e.

Inductive backend := Sqlite | Duck | Postgres.

#[global] Instance backend_eq_dec : EqDecision backend.
Proof. solve_decision. Defined.

(** ** The metadata cache

    [self.cache] maps a table name to a dict with the optional entries
    ['primary_key'] and ['not_null_columns']. *)
Record table_meta := TableMeta {
  primary_key : option (list string);
  not_null_columns : option (list string)
}.

#[global] Instance table_meta_eq_dec : EqDecision table_meta.
Proof. solve_decision. Defined.

Abbreviation cache_t := (gmap string table_meta).

(** ** Local files

    A path holds a pickled cache, a configuration document that [toml.load]
    accepts, or other bytes (possibly none), which neither [pickle.load] nor
    the configuration loader accepts. *)
Inductive file :=
| Pickled (c : cache_t)
| Config
| Blob.

(** ** Tabular batches

    A [pandas.DataFrame] as far as the program looks at it: the column labels
    with the dtype name of each column, the names of the index levels ([None]
    for an unnamed level), and the rows, each an index tuple and a data tuple.
    The program reads the index values only through [df.reset_index()]:
    [index_dtypes] gives, level by level, the dtype of the column that
    [reset_index] makes of the level (the dtype of the level, or the one
    inferred from its values for a level of dtype object), and the index
    tuples hold the values of these columns.  Labels are strings. *)
Record DataFrame := {
  df_columns : list (string * string);
  index_names : list (option string);
  index_dtypes : list string;
  df_rows : list (list value * list value)
}.

(** [df.columns] *)
Definition columns (df : DataFrame) : list string := (df_columns df).*1.

(** [df.empty]: some axis has length zero. *)
Definition empty (df : DataFrame) : bool :=
  match df_columns df, df_rows df with
  | [], _ | _, [] => true
  | _, _ => false
  end.

(** Labels that [df.reset_index()] gives the former index levels: the name of
    the level; for an unnamed level, ["index"] (["level_0"] when a column is
    already called ["index"]) if the index has one level and ["level_<i>"]
    otherwise. *)
Definition index_label (df : DataFrame) (i : nat) (name : option string) : string :=
  match name with
  | Some n => n
  | None =>
      if decide (length (index_names df) = 1%nat)
      then (if decide ("index" ∈ columns df) then "level_0" else "index")
      else "level_" +:+ pretty i
  end.

Definition index_labels (df : DataFrame) : list string :=
  imap (index_label df) (index_names df).

(** [df.reset_index()] inserts the index levels in front of the data columns
    and raises [ValueError] when a label is already taken.  The two
    projections the program uses are [.columns] and [.values.tolist()]. *)
Definition reset_index_ok (df : DataFrame) : Prop :=
  NoDup (index_labels df) ∧ Forall (λ l, l ∉ columns df) (index_labels df).

#[global] Instance reset_index_ok_dec df : Decision (reset_index_ok df).
Proof. unfold reset_index_ok. apply _. Defined.

Definition reset_index_columns (df : DataFrame) : result (list string) :=
  if decide (reset_index_ok df) then Ok (index_labels df ++ columns df)
  else Raise ValueError.

(** [DataFrame.values] is one array, of the common dtype of the columns.
    Columns of fixed-width integer and floating-point dtypes that are not all
    integers have a floating-point common dtype, and so have a signed integer
    column and a [uint64] column; a boolean column beside a numeric one, and
    any other mix, gives [object], which keeps every value as it is. *)
Definition signed_dtypes : list string := ["int8"; "int16"; "int32"; "int64"].
Definition unsigned_dtypes : list string := ["uint8"; "uint16"; "uint32"; "uint64"].
Definition float_dtypes : list string := ["float16"; "float32"; "float64"].

Definition values_are_floats (dtypes : list string) : bool :=
  bool_decide
    (Forall (λ d, d ∈ signed_dtypes ++ unsigned_dtypes ++ float_dtypes) dtypes
     ∧ (Exists (λ d, d ∈ float_dtypes) dtypes
        ∨ ("uint64" ∈ dtypes ∧ Exists (λ d, d ∈ signed_dtypes) dtypes))).

(** The float that an integer becomes in such an array.  The common dtype is
    wide enough for every integer dtype of at most 32 bits; a 64-bit integer
    becomes a [float64]: exact up to 53 significant bits, rounded to the
    nearest float beyond, ties to the even mantissa.  An integer of at most
    53 bits keeps exponent 0; beyond, the mantissa has 53 bits. *)
Definition float_of_int (z : Z) : value :=
  let bits := (Z.log2 (Z.abs z) + 1)%Z in
  if decide (bits ≤ 53)%Z then VFloat z 0
  else
    let e := (bits - 53)%Z in
    let q := (Z.abs z / 2 ^ e)%Z in
    let r := (Z.abs z mod 2 ^ e)%Z in
    let half := (2 ^ (e - 1))%Z in
    let m := if bool_decide ((half < r)%Z ∨ (r = half ∧ Z.odd q = true))
             then (q + 1)%Z else q in
    if decide (m = 2 ^ 53)%Z then VFloat (Z.sgn z * 2 ^ 52) (e + 1)
    else VFloat (Z.sgn z * m) e.

Definition as_float (v : value) : value :=
  match v with
  | VInt z => float_of_int z
  | _ => v
  end.

(** [.values.tolist()] on rows whose columns have the dtypes [dtypes]. *)
Definition values_tolist (dtypes : list string) (rows : list (list value))
  : list (list value) :=
  if values_are_floats dtypes then (λ row : list value, as_float <$> row) <$> rows
  else rows.

(** The dtypes and the rows of [df.reset_index()]: index levels first. *)
Definition reset_index_dtypes (df : DataFrame) : list string :=
  index_dtypes df ++ (df_columns df).*2.

Definition reset_index_rows (df : DataFrame) : list (list value) :=
  values_tolist (reset_index_dtypes df) ((λ r, r.1 ++ r.2) <$> df_rows df).

Definition reset_index_values (df : DataFrame) : result (list (list value)) :=
  if decide (reset_index_ok df) then Ok (reset_index_rows df)
  else Raise ValueError.

(** dtype that pandas infers for a one-row column holding [v]. *)
Definition infer_dtype (v : value) : string :=
  match v with
  | VInt _ => "int64"
  | VFloat _ _ => "float64"
  | VBool _ => "bool"
  | VStr _ | VNone => "object"
  end.

(** [pd.DataFrame([data])]: one row, the dict's keys as columns, a default
    (unnamed, single-level, integer) index. *)
Definition DataFrame_of_dict (data : list (string * value)) : DataFrame :=
  {| df_columns := (λ kv, (kv.1, infer_dtype kv.2)) <$> data;
     index_names := [None];
     index_dtypes := ["int64"];
     df_rows := [([VInt 0], data.*2)] |}.

(** The second argument of [upsert]. *)
Inductive data :=
| Frame (df : DataFrame)
| Dict (d : list (string * value))
| Other.

(** ** SQL statements

    The statements the adapters build, kept structured; [sql_text] below gives
    the text that the source's f-strings and [psycopg2.sql] compositions
    produce.  [columns_with_types] pairs a column with the type words that
    follow it. *)
Inductive syntax := DuckSyntax | PgValues | PgPlaceholders.

Inductive statement :=
| CreateTable (table : string) (columns_with_types : list (string * string))
    (primary_keys : list string)
| InsertOrReplace (table : string) (columns : list string)
| InsertOnConflict (sx : syntax) (table : string) (fields : list string)
    (conflict_columns update_fields : list string)
| Command (sql : string).

Definition join (sep : string) (l : list string) : string := String.concat sep l.

Definition dquote : string := String (Ascii.ascii_of_nat 34) EmptyString.

(** [psycopg2.sql.Identifier]: the name between double quotes, each embedded
    double quote doubled. *)
Fixpoint double_dquotes (s : string) : string :=
  match s with
  | EmptyString => EmptyString
  | String a s' =>
      if decide (a = Ascii.ascii_of_nat 34)
      then String a (String a (double_dquotes s'))
      else String a (double_dquotes s')
  end.

Definition Identifier (s : string) : string := dquote +:+ double_dquotes s +:+ dquote.

Definition sql_text (s : statement) : string :=
  match s with
  | CreateTable table columns_with_types primary_keys =>
      "CREATE TABLE " +:+ table +:+ " ("
        +:+ join ", " ((λ ct, ct.1 +:+ " " +:+ ct.2) <$> columns_with_types)
        +:+ ", PRIMARY KEY (" +:+ join ", " primary_keys +:+ "));"
  | InsertOrReplace table columns =>
      "INSERT OR REPLACE INTO " +:+ table +:+ " (" +:+ join ", " columns
        +:+ ") VALUES (" +:+ join ", " (replicate (length columns) "?") +:+ ")"
  | InsertOnConflict DuckSyntax table columns conflict_columns update_fields =>
      "INSERT INTO " +:+ table +:+ " (" +:+ join ", " columns
        +:+ ") VALUES (" +:+ join ", " (replicate (length columns) "?")
        +:+ ") ON CONFLICT (" +:+ join ", " conflict_columns
        +:+ ") DO UPDATE SET "
        +:+ join ", " ((λ col, col +:+ "=excluded." +:+ col) <$> update_fields) +:+ ";"
  | InsertOnConflict PgValues table fields conflict_columns update_fields =>
      "INSERT INTO " +:+ Identifier table +:+ " (" +:+ join "," (Identifier <$> fields)
        +:+ ") VALUES %s ON CONFLICT (" +:+ join ", " (Identifier <$> conflict_columns)
        +:+ ") DO UPDATE SET "
        +:+ join ", " ((λ col, Identifier col +:+ " = EXCLUDED." +:+ Identifier col)
                         <$> update_fields)
  | InsertOnConflict PgPlaceholders table fields conflict_columns update_fields =>
      "INSERT INTO " +:+ Identifier table +:+ " (" +:+ join "," (Identifier <$> fields)
        +:+ ") VALUES (" +:+ join "," (replicate (length fields) "%s")
        +:+ ") ON CONFLICT (" +:+ join ", " (Identifier <$> conflict_columns)
        +:+ ") DO UPDATE SET "
        +:+ join ", " ((λ col, Identifier col +:+ " = EXCLUDED." +:+ Identifier col)
                         <$> update_fields)
  | Command sql => sql
  end.

(** ** The native layer

    How a statement reaches the engine: [cursor.execute], [cursor.executemany]
    or [psycopg2.extras.execute_values]. *)
Inductive call := Execute | ExecuteMany | ExecuteValues.

(** What an engine does is not part of the program.  [store] is the state of
    the database behind an open connection.
    - [pragma_table_info] answers [PRAGMA table_info] (SQLite, DuckDB) with
      the pair (row[1], row[5]) of every row, and [key_column_usage] answers
      the [information_schema] query of the PostgreSQL adapter with row[0] of
      every row; [None] when the statement raises.
    - [not_null_query] answers the second catalog query of [pgsql.py].
    - [run] executes a statement with its parameter rows: the new store, and
      whether the driver returned ([true]) or raised.
    - [select] executes the text given to [query]: the new store and, unless
      the driver raised, [cursor.description] (column names, or [None] when the
      statement has no result set) with the rows of [fetchall()].
    - [redis_ping] is the Redis side of [PostgresDB.__init__] for the
      configuration at a path: [None] when it has no [redis] section (or an
      empty one), otherwise whether building the client from the section and
      its [ping()] return ([true]) or raise. *)
Class Native := {
  store : Type;
  pragma_table_info : backend → string → store → option (list (string * value));
  key_column_usage : string → store → option (list string);
  not_null_query : string → store → option (list string);
  run : backend → call → statement → list (list value) → store → bool * store;
  select : backend → string → store
           → store * option (option (list string) * list (list value));
  redis_ping : string → option bool
}.

(** Calls handed to the driver, in order. *)
Inductive event :=
| Connect (b : backend) (target : string)
| PrimaryKeyQuery (b : backend) (table : string)
| NotNullQuery (table : string)
| Statement (c : call) (s : statement) (params : list (list value))
| Query (sql : string).

(** Lines printed on the console, by the place that prints them. *)
Inductive report :=
| ConnectFailed
| CacheCleared
| PrimaryKeyUnknown
| NotNullUnknown
| NoIndex
| TableCreated (table : string)
| CreateFailed (table : string)
| NoData
| BatchInserted (table : string)
| BatchFailed (table : string)
| RowInserted (table : string)
| RowFailed (table : string)
| UnsupportedData
| QueryFailed
| Unavailable
| CommandDone (command : string)
| CommandFailed (command : string)
| ConnectionClosed
| MissingFile (path : string)
| RedisFailed.

(** A connection (with its cursor) is open until [close]. *)
Inductive handle := Open | Closed.
#[global] Instance handle_eq_dec : EqDecision handle.
Proof. solve_decision. Defined.

(** An adapter object: [None] is an attribute that was never set.
    [connection] stands for the attributes [connection] and [cursor], which
    are set together.  The attributes [redis_config] and [redis_client] of a
    [PostgresDB] object, which only [save_to_redis] reads, are not
    represented. *)
Record adapter := Adapter {
  kind : backend;
  cache_file : option string;
  cache : option cache_t;
  connection : option handle
}.

(** ** A state and exception monad

    A raised exception keeps the state reached so far, as in Python. *)
Definition M (S A : Type) : Type := S → result A * S.

Definition ret {S A} (a : A) : M S A := λ st, (Ok a, st).
Definition raise {S A} (e : exn) : M S A := λ st, (Raise e, st).
Definition bind {S A B} (m : M S A) (k : A → M S B) : M S B := λ st,
  match m st with
  | (Ok a, st') => k a st'
  | (Raise e, st') => (Raise e, st')
  end.
(** [try: m except Exception: h] *)
Definition try_except {S A} (m : M S A) (h : M S A) : M S A := λ st,
  match m st with
  | (Ok a, st') => (Ok a, st')
  | (Raise _, st') => h st'
  end.

Notation "x <- m ;; k" := (bind m (λ x, k))
  (at level 100, m at next level, right associativity).
Notation "m ;; k" := (bind m (λ _, k))
  (at level 100, right associativity).

Section Program.
Context `{Native}.

(** The environment of an adapter: the local files, the database a
    successful connect reaches ([None]: the driver cannot connect), the calls
    made to the driver so far and the console. *)
Record world := World {
  files : gmap string file;
  server : option store;
  calls : list event;
  console : list report
}.

Record state := State { self : adapter; env : world }.

(** *** Attributes, files, console and driver *)

(** [self.<name>]: [AttributeError] when the attribute was never set. *)
Definition attr {A} (get : adapter → option A) : M state A := λ st,
  match get (self st) with
  | Some a => (Ok a, st)
  | None => (Raise AttributeError, st)
  end.

Definition class_of_self : M state backend := λ st, (Ok (kind (self st)), st).

Definition set_cache_file (f : string) : M state unit := λ st,
  let a := self st in
  (Ok (), State (Adapter (kind a) (Some f) (cache a) (connection a)) (env st)).

Definition set_cache (c : cache_t) : M state unit := λ st,
  let a := self st in
  (Ok (), State (Adapter (kind a) (cache_file a) (Some c) (connection a)) (env st)).

Definition set_connection (h : handle) : M state unit := λ st,
  let a := self st in
  (Ok (), State (Adapter (kind a) (cache_file a) (cache a) (Some h)) (env st)).

Definition print (r : report) : M state unit := λ st,
  let w := env st in
  (Ok (), State (self st) (World (files w) (server w) (calls w) (console w ++ [r]))).

Definition record (e : event) : M state unit := λ st,
  let w := env st in
  (Ok (), State (self st) (World (files w) (server w) (calls w ++ [e]) (console w))).

(** [os.path.exists] *)
Definition path_exists (p : string) : M state bool := λ st,
  (Ok (bool_decide (is_Some (files (env st) !! p))), st).

Definition write_file (p : string) (f : file) : M state unit := λ st,
  let w := env st in
  (Ok (), State (self st) (World (<[p := f]> (files w)) (server w) (calls w) (console w))).

(** [pickle.load] on an opened file *)
Definition pickle_load (p : string) : M state cache_t := λ st,
  match files (env st) !! p with
  | Some (Pickled c) => (Ok c, st)
  | _ => (Raise UnpicklingError, st)
  end.

(** [toml.load] and the lookups of the connection parameters *)
Definition toml_load (p : string) : M state unit := λ st,
  match files (env st) !! p with
  | Some Config => (Ok (), st)
  | _ => (Raise NativeError, st)
  end.

(** [<driver>.connect(...)] followed by [connection.cursor()].  The call is
    recorded and reaches the database or raises.  What a driver keeps on disk
    for its database belongs to [server]: the database file that
    [duckdb.connect] or [sqlite3.connect] creates when it is missing does not
    appear in [files], which holds what the program itself opens or tests. *)
Definition connect (target : string) : M state handle :=
  b <- class_of_self ;;
  record (Connect b target) ;;
  λ st, match server (env st) with
        | Some _ => (Ok Open, st)
        | None => (Raise NativeError, st)
        end.

(** The store behind [self.cursor]: the attribute must exist, the connection
    must be open. *)
Definition open_store : M state store := λ st,
  match connection (self st) with
  | None => (Raise AttributeError, st)
  | Some Closed => (Raise NativeError, st)
  | Some Open =>
      match server (env st) with
      | Some s => (Ok s, st)
      | None => (Raise NativeError, st)
      end
  end.

Definition set_store (s : store) : M state unit := λ st,
  let w := env st in
  (Ok (), State (self st) (World (files w) (Some s) (calls w) (console w))).

(** [self.cursor.execute(q, values)], [self.cursor.executemany(q, rows)] and
    [execute_values(self.cursor, q, rows)] *)
Definition cursor_run (c : call) (q : statement) (params : list (list value)) : M state unit :=
  _ <- attr connection ;;
  record (Statement c q params) ;;
  s <- open_store ;;
  b <- class_of_self ;;
  let r := run b c q params s in
  set_store r.2 ;;
  if r.1 then ret () else raise NativeError.

(** [self.connection.commit()] *)
Definition commit : M state unit :=
  _ <- open_store ;; ret ().

(** ** Methods shared by the three adapters

    [_load_cache], [_save_cache], [clear_cache], [upsert], [query], [close]
    and [is_db_available] are the same text in [sqlite.py], [duck.py] and
    [pgsql.py]. *)

Definition _load_cache : M state cache_t :=
  cache_file <- attr cache_file ;;
  e <- path_exists cache_file ;;
  if e : bool then pickle_load cache_file else ret ∅.

(** [open(self.cache_file, 'wb')] truncates the file before [self.cache] is
    read and dumped. *)
Definition _save_cache : M state unit :=
  cache_file <- attr cache_file ;;
  write_file cache_file Blob ;;
  cache <- attr cache ;;
  write_file cache_file (Pickled cache).

Definition clear_cache : M state unit :=
  set_cache ∅ ;;
  _save_cache ;;
  print CacheCleared.

(** [row[5] == 1] on a row of [PRAGMA table_info] *)
Definition equals_one (v : value) : bool :=
  match v with
  | VInt z => bool_decide (z = 1%Z)
  | VBool b => b
  | VFloat m e => bool_decide ((e ≤ 0)%Z ∧ m = (2 ^ (- e))%Z)
  | VStr _ | VNone => false
  end.

(** What the catalog statement of [_get_primary_key], its [fetchall()] and
    the list comprehension over the rows give on a store: [row[1]] of the rows
    with [row[5] == 1] for SQLite and DuckDB, [row[0]] of every row for
    PostgreSQL; [None] when the statement raises. *)
Definition primary_key_rows (b : backend) (table_name : string) (s : store)
  : option (list string) :=
  match b with
  | Sqlite | Duck =>
      rows ← pragma_table_info b table_name s;
      Some ((filter (λ row, equals_one row.2 = true) rows).*1)
  | Postgres => key_column_usage table_name s
  end.

Definition fetch_primary_key (table_name : string) : M state (list string) :=
  _ <- attr connection ;;
  b <- class_of_self ;;
  record (PrimaryKeyQuery b table_name) ;;
  s <- open_store ;;
  match primary_key_rows b table_name s with
  | Some conflict_columns => ret conflict_columns
  | None => raise NativeError
  end.

(** The four lines that store a discovered key:
    [if table_name not in self.cache: self.cache[table_name] = {}],
    [self.cache[table_name]['primary_key'] = conflict_columns],
    [self._save_cache()]. *)
Definition put_primary_key (table_name : string) (conflict_columns : list string) : M state unit :=
  cache <- attr cache ;;
  let entry := default (TableMeta None None) (cache !! table_name) in
  set_cache (<[table_name := TableMeta (Some conflict_columns) (not_null_columns entry)]> cache) ;;
  _save_cache.

Definition _get_primary_key (table_name : string) : M state (option (list string)) :=
  cache <- attr cache ;;
  match cache !! table_name ≫= primary_key with
  | Some pk => ret (Some pk)
  | None =>
      try_except
        (conflict_columns <- fetch_primary_key table_name ;;
         put_primary_key table_name conflict_columns ;;
         ret (Some conflict_columns))
        (print PrimaryKeyUnknown ;; ret None)
  end.

(** [pgsql.py] only. *)
Definition fetch_not_null_columns (table_name : string) : M state (list string) :=
  _ <- attr connection ;;
  record (NotNullQuery table_name) ;;
  s <- open_store ;;
  match not_null_query table_name s with
  | Some rows => ret rows
  | None => raise NativeError
  end.

Definition put_not_null_columns (table_name : string) (cols : list string) : M state unit :=
  cache <- attr cache ;;
  let entry := default (TableMeta None None) (cache !! table_name) in
  set_cache (<[table_name := TableMeta (primary_key entry) (Some cols)]> cache) ;;
  _save_cache.

Definition _get_not_null_columns (table_name : string) : M state (list string) :=
  cache <- attr cache ;;
  match cache !! table_name ≫= not_null_columns with
  | Some cols => ret cols
  | None =>
      try_except
        (cols <- fetch_not_null_columns table_name ;;
         put_not_null_columns table_name cols ;;
         ret cols)
        (print NotNullUnknown ;; ret [])
  end.

(** ** Table creation from a batch *)

(** The type name for a column of dtype [dtype] in each dialect. *)
Definition column_type (b : backend) (dtype : string) : string :=
  if decide (dtype = "int64") then "INTEGER"
  else if decide (dtype = "float64")
       then match b with Sqlite => "REAL" | Duck => "DOUBLE" | Postgres => "FLOAT" end
       else match b with Duck => "VARCHAR" | Sqlite | Postgres => "TEXT" end.

(** The type name given to a key column that is not a data column. *)
Definition key_column_type (b : backend) : string :=
  match b with Duck => "VARCHAR" | Sqlite | Postgres => "TEXT" end.

(** [[pk for pk in df.index.names if pk is not None]] *)
Definition primary_keys_of (df : DataFrame) : list string := omap id (index_names df).

(** [df.columns.get_loc(pk)] for a label that occurs once. *)
Definition get_loc (df : DataFrame) (pk : string) : option nat :=
  fst <$> list_find (λ c, c = pk) (columns df).

(** The statement of [SQLiteDB._create_table_from_dataframe] and
    [DuckDB._create_table_from_dataframe]: [None] when the batch names no index
    level.  [df[column].dtype] raises [AttributeError] when two columns share
    the label. *)
Definition create_table_query (b : backend) (table_name : string) (df : DataFrame)
  : result (option statement) :=
  if decide (NoDup (columns df)) then
    let columns_with_types := (λ cd, (cd.1, column_type b cd.2)) <$> df_columns df in
    let primary_keys := primary_keys_of df in
    match primary_keys with
    | [] => Ok None
    | _ =>
        let columns_with_types :=
          columns_with_types
            ++ ((λ pk, (pk, key_column_type b)) <$> filter (λ pk, pk ∉ columns df) primary_keys) in
        Ok (Some (CreateTable table_name columns_with_types primary_keys))
    end
  else Raise AttributeError.

(** [columns_with_types[df.columns.get_loc(pk)] += " PRIMARY KEY"] for every
    key that is a data column. *)
Definition mark_inline_keys (df : DataFrame) (primary_keys : list string)
    (columns_with_types : list (string * string)) : list (string * string) :=
  foldl (λ cwt pk,
           match get_loc df pk with
           | Some i => alter (λ ct, (ct.1, ct.2 +:+ " PRIMARY KEY")) i cwt
           | None => cwt
           end)
        columns_with_types primary_keys.

(** The statement of [PostgresDB._create_table_from_dataframe]. *)
Definition PostgresDB_create_table_query (table_name : string) (df : DataFrame)
  : result (option statement) :=
  if decide (NoDup (columns df)) then
    let columns_with_types := (λ cd, (cd.1, column_type Postgres cd.2)) <$> df_columns df in
    let primary_keys := primary_keys_of df in
    let columns_with_types :=
      columns_with_types
        ++ ((λ pk, (pk, "TEXT")) <$> filter (λ pk, pk ∉ columns df) primary_keys) in
    match primary_keys with
    | [] => Ok None
    | _ =>
        let columns_with_types := mark_inline_keys df primary_keys columns_with_types in
        Ok (Some (CreateTable table_name columns_with_types primary_keys))
    end
  else Raise AttributeError.

(** The statement that the class of the object builds. *)
Definition table_statement (b : backend) (table_name : string) (df : DataFrame)
  : result (option statement) :=
  match b with
  | Sqlite | Duck => create_table_query b table_name df
  | Postgres => PostgresDB_create_table_query table_name df
  end.

Definition _create_table_from_dataframe (table_name : string) (df : DataFrame) : M state unit :=
  b <- class_of_self ;;
  match table_statement b table_name df with
  | Raise e => raise e
  | Ok None => print NoIndex
  | Ok (Some create_table_query) =>
      try_except
        (cursor_run Execute create_table_query [] ;;
         print (TableCreated table_name))
        (print (CreateFailed table_name))
  end.

(** [not x] for [x] the result of [_get_primary_key]: [None] and the empty
    list are falsy. *)
Definition falsy (pk : option (list string)) : bool :=
  match pk with
  | None | Some [] => true
  | Some (_ :: _) => false
  end.

(** [truthy] keys, for the statements that name them. *)
Definition keys_of (pk : option (list string)) : list string := default [] pk.

(** ** Upsert, per adapter *)

Definition SQLiteDB_upsert_from_dataframe (table_name : string) (df : DataFrame) : M state unit :=
  if empty df then print NoData
  else
    pk <- _get_primary_key table_name ;;
    (if falsy pk then _create_table_from_dataframe table_name df else ret ()) ;;
    columns <- (λ st, (reset_index_columns df, st)) ;;
    values_list <- (λ st, (reset_index_values df, st)) ;;
    let insert_statement := InsertOrReplace table_name columns in
    try_except
      (cursor_run ExecuteMany insert_statement values_list ;;
       commit ;;
       print (BatchInserted table_name))
      (print (BatchFailed table_name)).

Definition SQLiteDB_upsert_from_dict (table_name : string) (data : list (string * value))
  : M state unit :=
  match data with
  | [] => print NoData
  | _ =>
      let columns := data.*1 in
      let values := data.*2 in
      let df := DataFrame_of_dict data in
      pk <- _get_primary_key table_name ;;
      (if falsy pk then _create_table_from_dataframe table_name df else ret ()) ;;
      let insert_statement := InsertOrReplace table_name columns in
      try_except
        (cursor_run Execute insert_statement [values] ;;
         commit ;;
         print (RowInserted table_name))
        (print (RowFailed table_name))
  end.

Definition DuckDB_upsert_from_dataframe (table_name : string) (df : DataFrame) : M state unit :=
  if empty df then print NoData
  else
    pk <- _get_primary_key table_name ;;
    (if falsy pk then _create_table_from_dataframe table_name df else ret ()) ;;
    columns <- (λ st, (reset_index_columns df, st)) ;;
    values_list <- (λ st, (reset_index_values df, st)) ;;
    conflict_columns <- _get_primary_key table_name ;;
    if falsy conflict_columns then ret ()
    else
      let conflict_columns := keys_of conflict_columns in
      let update_fields := filter (λ col, col ∉ conflict_columns) columns in
      let insert_statement :=
        InsertOnConflict DuckSyntax table_name columns conflict_columns update_fields in
      try_except
        (cursor_run ExecuteMany insert_statement values_list ;;
         commit ;;
         print (BatchInserted table_name))
        (print (BatchFailed table_name)).

Definition DuckDB_upsert_from_dict (table_name : string) (data : list (string * value))
  : M state unit :=
  match data with
  | [] => print NoData
  | _ =>
      let columns := data.*1 in
      let values := data.*2 in
      let df := DataFrame_of_dict data in
      pk <- _get_primary_key table_name ;;
      (if falsy pk then _create_table_from_dataframe table_name df else ret ()) ;;
      conflict_columns <- _get_primary_key table_name ;;
      if falsy conflict_columns then ret ()
      else
        let conflict_columns := keys_of conflict_columns in
        let update_fields := filter (λ col, col ∉ conflict_columns) columns in
        let insert_statement :=
          InsertOnConflict DuckSyntax table_name columns conflict_columns update_fields in
        try_except
          (cursor_run Execute insert_statement [values] ;;
           commit ;;
           print (RowInserted table_name))
          (print (RowFailed table_name))
  end.

(** The update list comes from [df.columns], the field list from
    [df.reset_index().columns]. *)
Definition PostgresDB_upsert_from_dataframe (table_name : string) (df : DataFrame)
  : M state unit :=
  if empty df then print NoData
  else
    pk <- _get_primary_key table_name ;;
    (if falsy pk then _create_table_from_dataframe table_name df else ret ()) ;;
    let columns := columns df in
    values_list <- (λ st, (reset_index_values df, st)) ;;
    conflict_columns <- _get_primary_key table_name ;;
    if falsy conflict_columns then ret ()
    else
      let conflict_columns := keys_of conflict_columns in
      fields <- (λ st, (reset_index_columns df, st)) ;;
      let update_fields := filter (λ col, col ∉ conflict_columns) columns in
      let insert_statement :=
        InsertOnConflict PgValues table_name fields conflict_columns update_fields in
      try_except
        (cursor_run ExecuteValues insert_statement values_list ;;
         print (BatchInserted table_name))
        (print (BatchFailed table_name)).

Definition PostgresDB_upsert_from_dict (table_name : string) (data : list (string * value))
  : M state unit :=
  match data with
  | [] => print NoData
  | _ =>
      let columns := data.*1 in
      let values := data.*2 in
      let df := DataFrame_of_dict data in
      pk <- _get_primary_key table_name ;;
      (if falsy pk then _create_table_from_dataframe table_name df else ret ()) ;;
      conflict_columns <- _get_primary_key table_name ;;
      if falsy conflict_columns then ret ()
      else
        let conflict_columns := keys_of conflict_columns in
        let update_fields := filter (λ col, col ∉ conflict_columns) columns in
        let insert_statement :=
          InsertOnConflict PgPlaceholders table_name columns conflict_columns update_fields in
        try_except
          (cursor_run Execute insert_statement [values] ;;
           print (RowInserted table_name))
          (print (RowFailed table_name))
  end.

(** The method the object's class provides. *)
Definition upsert_from_dataframe (table_name : string) (df : DataFrame) : M state unit :=
  b <- class_of_self ;;
  match b with
  | Sqlite => SQLiteDB_upsert_from_dataframe table_name df
  | Duck => DuckDB_upsert_from_dataframe table_name df
  | Postgres => PostgresDB_upsert_from_dataframe table_name df
  end.

Definition upsert_from_dict (table_name : string) (data : list (string * value))
  : M state unit :=
  b <- class_of_self ;;
  match b with
  | Sqlite => SQLiteDB_upsert_from_dict table_name data
  | Duck => DuckDB_upsert_from_dict table_name data
  | Postgres => PostgresDB_upsert_from_dict table_name data
  end.

Definition upsert (table_name : string) (d : data) : M state unit :=
  match d with
  | Frame df => upsert_from_dataframe table_name df
  | Dict data => upsert_from_dict table_name data
  | Other => print UnsupportedData
  end.

(** ** Query, execute, close *)

(** What [query] returns besides [None]: a [pandas.DataFrame] with the
    column names and the rows, or a list of dicts. *)
Inductive query_result :=
| Table (columns : list string) (rows : list (list value))
| Mappings (records : list (gmap string value)).

(** [cursor.execute(query)], [cursor.description] and [cursor.fetchall()] *)
Definition cursor_select (q : string)
  : M state (option (list string) * list (list value)) :=
  _ <- attr connection ;;
  record (Query q) ;;
  s <- open_store ;;
  b <- class_of_self ;;
  let r := select b q s in
  set_store r.1 ;;
  match r.2 with
  | Some answer => ret answer
  | None => raise NativeError
  end.

(** [pd.DataFrame(rows, columns=columns)] raises [ValueError] when a row has
    not one value per column. *)
Definition DataFrame_of_rows (rows : list (list value)) (columns : list string)
  : M state query_result :=
  if decide (Forall (λ row, length row = length columns) rows)
  then ret (Table columns rows)
  else raise ValueError.

(** [dict(zip(columns, row))]: of two equal names the later one stays. *)
Definition dict_of_row (columns : list string) (row : list value) : gmap string value :=
  list_to_map (reverse (zip columns row)).

Definition query (q : string) (return_type : string) : M state (option query_result) :=
  try_except
    (answer <- cursor_select q ;;
     match answer.1 with
     | None => raise TypeError
     | Some columns =>
         let rows := answer.2 in
         if decide (return_type = "pandas")
         then (t <- DataFrame_of_rows rows columns ;; ret (Some t))
         else if decide (return_type = "dict")
              then ret (Some (Mappings (dict_of_row columns <$> rows)))
              else raise ValueError
     end)
    (print QueryFailed ;; ret None).

Definition is_db_available : M state bool := λ st,
  match connection (self st) with
  | None => bind (print Unavailable) (λ _, ret false) st
  | Some _ => (Ok true, st)
  end.

(** [SQLiteDB.execute] and [PostgresDB.execute] commit, [DuckDB.execute] does
    not. *)
Definition execute (command : string) : M state unit :=
  b <- class_of_self ;;
  try_except
    (cursor_run Execute (Command command) [] ;;
     match b with
     | Sqlite | Postgres => commit
     | Duck => ret ()
     end ;;
     print (CommandDone command))
    (print (CommandFailed command)).

(** [self.cursor.close()] then [self.connection.close()].  On a connection
    that is already closed, [sqlite3] raises from [cursor.close()]
    ([ProgrammingError]); closing again is accepted by [duckdb] and
    [psycopg2]. *)
Definition close : M state unit :=
  h <- attr connection ;;
  b <- class_of_self ;;
  match h, b with
  | Closed, Sqlite => raise NativeError
  | _, _ =>
      set_connection Closed ;;
      print ConnectionClosed
  end.

(** ** Construction of the adapters *)

Definition cache_file_name : string := "db_cache.pkl".

Definition SQLiteDB__init__ (db_file : string) : M state unit :=
  e <- path_exists db_file ;;
  (if e : bool then ret () else write_file db_file Blob) ;;
  try_except
    (set_cache_file cache_file_name ;;
     c <- _load_cache ;;
     set_cache c ;;
     h <- connect db_file ;;
     set_connection h)
    (print ConnectFailed).

Definition DuckDB__init__ (db_file : string) : M state unit :=
  try_except
    (set_cache_file cache_file_name ;;
     c <- _load_cache ;;
     set_cache c ;;
     h <- connect db_file ;;
     set_connection h)
    (print ConnectFailed).

(** The [except] branch returns from the constructor; the cache is loaded
    after the [try], outside of it.  The Redis client comes last: a failure to
    build or to reach it is caught and printed. *)
Definition PostgresDB__init__ (config_file : string) : M state unit :=
  connected <-
    try_except
      (toml_load config_file ;;
       h <- connect config_file ;;
       set_connection h ;;
       ret true)
      (print ConnectFailed ;; ret false) ;;
  if connected : bool then
    set_cache_file cache_file_name ;;
    c <- _load_cache ;;
    set_cache c ;;
    match redis_ping config_file with
    | Some false => print RedisFailed
    | _ => ret ()
    end
  else ret ().

(** A new object of the class, before [__init__] runs. *)
Definition blank (b : backend) : adapter := Adapter b None None None.

(** [SQLiteDB(db_file)], [DuckDB(db_file=...)], [PostgresDB(config_file=...)]:
    the constructed object, or the exception that left [__init__]. *)
Definition construct (b : backend) (arg : string) (w : world) : result adapter * world :=
  let init :=
    match b with
    | Sqlite => SQLiteDB__init__ arg
    | Duck => DuckDB__init__ arg
    | Postgres => PostgresDB__init__ arg
    end in
  match init (State (blank b) w) with
  | (Ok _, st) => (Ok (self st), env st)
  | (Raise e, st) => (Raise e, env st)
  end.

(** ** The facade, [DatabaseManager] *)

(** [db] is [None] while the attribute is not set. *)
Record DatabaseManager := Manager { db : option adapter }.

Definition console_add (r : report) (w : world) : world :=
  World (files w) (server w) (calls w) (console w ++ [r]).

(** [DatabaseManager(db_type, **kwargs)] *)
Definition DatabaseManager__init__ (db_type : string) (kwargs : gmap string string)
    (w : world) : result DatabaseManager * world :=
  let built (r : result adapter * world) :=
    match r with
    | (Ok a, w') => (Ok (Manager (Some a)), w')
    | (Raise e, w') => (Raise e, w')
    end in
  if decide (db_type = "sqlite") then
    let db_file := default "sqlite.db" (kwargs !! "db_file") in
    if bool_decide (is_Some (files w !! db_file))
    then built (construct Sqlite db_file w)
    else (Raise FileNotFoundError, console_add (MissingFile db_file) w)
  else if decide (db_type = "postgres") then
    let config_file := default "config.toml" (kwargs !! "config_file") in
    if bool_decide (is_Some (files w !! config_file))
    then built (construct Postgres config_file w)
    else (Raise FileNotFoundError, console_add (MissingFile config_file) w)
  else if decide (db_type = "duckdb") then
    let db_file := default "duckdb.db" (kwargs !! "db_file") in
    built (construct Duck db_file w)
  else (Raise ValueError, w).

(** [self.db.<method>(...)]: the method runs on the adapter held by the
    facade. *)
Definition on_db {A} (m : M state A) : M (DatabaseManager * world) A := λ fw,
  match db fw.1 with
  | None => (Raise AttributeError, fw)
  | Some a =>
      let r := m (State a fw.2) in
      (r.1, (Manager (Some (self r.2)), env r.2))
  end.

(** [DatabaseManager.is_db_available]: an adapter object is truthy, so the
    test is whether the attribute [db] exists. *)
Definition DatabaseManager_is_db_available : M (DatabaseManager * world) bool := λ fw,
  match db fw.1 with
  | None => (Ok false, (fw.1, console_add Unavailable fw.2))
  | Some _ => (Ok true, fw)
  end.

Definition DatabaseManager_upsert (table_name : string) (d : data)
  : M (DatabaseManager * world) unit :=
  ok <- DatabaseManager_is_db_available ;;
  if ok : bool then on_db (upsert table_name d) else ret ().

Definition DatabaseManager_query (q : string) (return_type : string)
  : M (DatabaseManager * world) (option query_result) :=
  ok <- DatabaseManager_is_db_available ;;
  if ok : bool then on_db (query q return_type) else ret None.

Definition DatabaseManager_execute (command : string) : M (DatabaseManager * world) unit :=
  ok <- DatabaseManager_is_db_available ;;
  if ok : bool then on_db (execute command) else ret ().

Definition DatabaseManager_clear_cache : M (DatabaseManager * world) unit :=
  on_db clear_cache.

Definition DatabaseManager_close : M (DatabaseManager * world) unit :=
  on_db close.

End Program.

(** ** A reference engine

    One executable instance of [Native], after the documented behaviour of the
    three engines on the statements above.  A database is a finite map from
    table names to tables; a table has its columns, its primary key and its
    rows; a row maps a column to its value, a missing column reading as NULL.
    Column types and defaults are not interpreted, and no configuration has a
    Redis section. *)
Module Engine.

Record table := Tbl {
  t_columns : list string;
  t_key : list string;
  t_rows : list (gmap string value)
}.

Definition cell (r : gmap string value) (c : string) : value := default VNone (r !! c).

Definition key_of (pk : list string) (r : gmap string value) : list value := cell r <$> pk.

(** The row that a column list and one parameter row propose for insertion. *)
Definition incoming (columns : list string) (values : list value) : gmap string value :=
  list_to_map (zip columns values).

(** [r'] violates the primary key against the proposed row [r]: the table has
    a key, no key value of [r] is NULL, and the key values agree. *)
Definition conflicts (pk : list string) (r r' : gmap string value) : Prop :=
  pk ≠ [] ∧ (VNone ∉ key_of pk r) ∧ key_of pk r' = key_of pk r.

#[global] Instance conflicts_dec pk r r' : Decision (conflicts pk r r').
Proof. unfold conflicts. apply _. Defined.

(** The insert names known columns, each once, and has one value for each. *)
Definition accepts (tb : table) (columns : list string) (values : list value) : Prop :=
  NoDup columns ∧ columns ⊆ t_columns tb ∧ length values = length columns.

#[global] Instance accepts_dec tb columns values : Decision (accepts tb columns values).
Proof. unfold accepts. apply _. Defined.

(** [INSERT OR REPLACE]: the conflicting rows are deleted, the proposed row is
    inserted whole. *)
Definition replace_row (tb : table) (r : gmap string value) : table :=
  Tbl (t_columns tb) (t_key tb)
      (filter (λ r', ¬ conflicts (t_key tb) r r') (t_rows tb) ++ [r]).

(** [DO UPDATE SET c = excluded.c, ...] on an existing row. *)
Definition assign (update_fields : list string) (r r' : gmap string value)
  : gmap string value :=
  foldr (λ c acc, <[c := cell r c]> acc) r' update_fields.

(** [INSERT ... ON CONFLICT (key) DO UPDATE SET ...]: a conflicting row is
    updated in the named columns, otherwise the proposed row is inserted. *)
Definition upsert_row (tb : table) (update_fields : list string) (r : gmap string value)
  : table :=
  if decide (Exists (conflicts (t_key tb) r) (t_rows tb))
  then Tbl (t_columns tb) (t_key tb)
           ((λ r', if decide (conflicts (t_key tb) r r') then assign update_fields r r' else r')
              <$> t_rows tb)
  else Tbl (t_columns tb) (t_key tb) (t_rows tb ++ [r]).

(** One statement with one parameter row; [None] when the engine rejects it.
    Free text ([Command]) is not interpreted and is rejected. *)
Definition exec_row (s : statement) (values : list value) (d : gmap string table)
  : option (gmap string table) :=
  match s with
  | CreateTable table columns_with_types primary_keys =>
      if decide (d !! table = None ∧ NoDup columns_with_types.*1
                 ∧ primary_keys ≠ [] ∧ NoDup primary_keys
                 ∧ primary_keys ⊆ columns_with_types.*1)
      then Some (<[table := Tbl columns_with_types.*1 primary_keys []]> d)
      else None
  | InsertOrReplace table columns =>
      tb ← d !! table;
      if decide (accepts tb columns values)
      then Some (<[table := replace_row tb (incoming columns values)]> d)
      else None
  | InsertOnConflict _ table fields conflict_columns update_fields =>
      tb ← d !! table;
      if decide (accepts tb fields values
                 ∧ conflict_columns ≠ []
                 ∧ conflict_columns ⊆ t_key tb ∧ t_key tb ⊆ conflict_columns
                 ∧ update_fields ≠ [] ∧ NoDup update_fields
                 ∧ update_fields ⊆ t_columns tb
                 ∧ (VNone ∉ key_of (t_key tb) (incoming fields values)))
      then Some (<[table := upsert_row tb update_fields (incoming fields values)]> d)
      else None
  | Command _ => None
  end.

(** [executemany]: row after row, stopping at the first rejected one. *)
Fixpoint exec_many (s : statement) (rows : list (list value)) (d : gmap string table)
  : bool * gmap string table :=
  match rows with
  | [] => (true, d)
  | values :: rest =>
      match exec_row s values d with
      | Some d' => exec_many s rest d'
      | None => (false, d)
      end
  end.

(** One multi-row statement is atomic. *)
Definition exec_all (s : statement) (rows : list (list value)) (d : gmap string table)
  : option (gmap string table) :=
  foldl (λ acc values, acc ≫= exec_row s values) (Some d) rows.

(** The key values that a multi-row statement proposes. *)
Definition proposed_keys (s : statement) (rows : list (list value)) (d : gmap string table)
  : list (list value) :=
  match s with
  | InsertOnConflict _ table fields _ _ =>
      match d !! table with
      | Some tb => (λ values, key_of (t_key tb) (incoming fields values)) <$> rows
      | None => []
      end
  | _ => []
  end.

(** [execute_values] sends pages of [page_size = 100] rows, each page one
    statement; a statement that proposes one key twice is rejected. *)
Fixpoint pages {A} (fuel : nat) (rows : list A) : list (list A) :=
  match fuel with
  | O => []
  | S fuel' =>
      match rows with
      | [] => []
      | _ => take 100 rows :: pages fuel' (drop 100 rows)
      end
  end.

Fixpoint exec_pages (s : statement) (ps : list (list (list value))) (d : gmap string table)
  : bool * gmap string table :=
  match ps with
  | [] => (true, d)
  | page :: rest =>
      if decide (NoDup (proposed_keys s page d)) then
        match exec_all s page d with
        | Some d' => exec_pages s rest d'
        | None => (false, d)
        end
      else (false, d)
  end.

Definition exec (c : call) (s : statement) (params : list (list value))
    (d : gmap string table) : bool * gmap string table :=
  match c with
  | Execute =>
      match params with
      | [] => from_option (pair true) (false, d) (exec_row s [] d)
      | [values] => from_option (pair true) (false, d) (exec_row s values d)
      | _ => (false, d)
      end
  | ExecuteMany => exec_many s params d
  | ExecuteValues => exec_pages s (pages (length params) params) d
  end.

(** [PRAGMA table_info]: SQLite gives row[5] as the 1-based rank of the
    column in the key (0 outside the key) and no row for an unknown table;
    DuckDB gives a boolean and raises for an unknown table. *)
Definition key_rank (pk : list string) (c : string) : Z :=
  match list_find (λ k, k = c) pk with
  | Some (i, _) => Z.of_nat (S i)
  | None => 0
  end.

Definition table_info (b : backend) (name : string) (d : gmap string table)
  : option (list (string * value)) :=
  match b, d !! name with
  | Sqlite, None => Some []
  | Sqlite, Some tb => Some ((λ c, (c, VInt (key_rank (t_key tb) c))) <$> t_columns tb)
  | Duck, Some tb => Some ((λ c, (c, VBool (bool_decide (c ∈ t_key tb)))) <$> t_columns tb)
  | _, _ => None
  end.

(** The [information_schema] queries of PostgreSQL: no row for an unknown
    table. *)
Definition key_columns (name : string) (d : gmap string table) : option (list string) :=
  Some (from_option t_key [] (d !! name)).

Fixpoint strip_prefix (p s : string) : option string :=
  match p, s with
  | EmptyString, _ => Some s
  | String a p', String b s' => if decide (a = b) then strip_prefix p' s' else None
  | String _ _, EmptyString => None
  end.

(** The only query text the engine reads is [SELECT * FROM <table>]. *)
Definition fetch (q : string) (d : gmap string table)
  : gmap string table * option (option (list string) * list (list value)) :=
  (d, name ← strip_prefix "SELECT * FROM " q;
      tb ← d !! name;
      Some (Some (t_columns tb), (λ r, cell r <$> t_columns tb) <$> t_rows tb)).

#[global] Instance native : Native := {|
  store := gmap string table;
  pragma_table_info := table_info;
  key_column_usage := key_columns;
  not_null_query := key_columns;
  run := λ _, exec;
  select := λ _, fetch;
  redis_ping := λ _, None
|}.

End Engine.

(** * Vocabulary of the properties *)

(** Calls that create a table, that insert, and calls that hand any statement
    to the engine. *)
Definition is_create (e : event) : bool :=
  match e with
  | Statement _ (CreateTable _ _ _) _ => true
  | _ => false
  end.

Definition is_insert (e : event) : bool :=
  match e with
  | Statement _ (InsertOrReplace _ _) _ => true
  | Statement _ (InsertOnConflict _ _ _ _ _) _ => true
  | _ => false
  end.

Definition is_statement (e : event) : bool :=
  match e with
  | Statement _ _ _ => true
  | _ => false
  end.

(** A file that [pickle.load] rejects. *)
Definition unreadable (f : file) : Prop :=
  match f with
  | Pickled _ => False
  | Config | Blob => True
  end.

(** The type words of a PostgreSQL column after the loop that appends
    [" PRIMARY KEY"] once for every occurrence of the column among the keys. *)
Definition with_inline_marks (primary_keys : list string) (column ty : string) : string :=
  foldl (λ acc pk, if decide (pk = column) then acc +:+ " PRIMARY KEY" else acc)
        ty primary_keys.

(** An action never leaves a relation between the state before and after,
    whether it returns or raises. *)
Definition keeps {S A} (R : relation S) (m : M S A) : Prop := ∀ st, R st (m st).2.

Section Vocabulary.
Context `{Native}.

(** Two states agree on an observation. *)
Definition same_on {B} (g : state → B) : relation state := λ st st', g st' = g st.

(** What a state remembers of the calls that created a table, of the calls
    that inserted, and of all the statements together with the store. *)
Definition created (st : state) : list event :=
  filter (λ e, is_create e = true) (calls (env st)).

Definition inserted (st : state) : list event :=
  filter (λ e, is_insert e = true) (calls (env st)).

Definition handed (st : state) : list event * option store :=
  (filter (λ e, is_statement e = true) (calls (env st)), server (env st)).

(** The cache records the table as having no key column. *)
Definition keyless (t : string) (st : state) : Prop :=
  ∃ c, cache (self st) = Some c ∧ c !! t ≫= primary_key = Some [].

Definition stays_keyless (t : string) : relation state :=
  λ st st', keyless t st → keyless t st'.

(** What may happen to an adapter after construction, [clear_cache] apart:
    its public methods, the two cached lookups, and a change of the database
    by someone else. *)
Inductive operation :=
| DoUpsert (table_name : string) (d : data)
| DoQuery (q return_type : string)
| DoExecute (command : string)
| DoClose
| DoPrimaryKey (table_name : string)
| DoNotNull (table_name : string)
| Elsewhere (s : option store).

Definition perform (o : operation) (st : state) : state :=
  match o with
  | DoUpsert table_name d => (upsert table_name d st).2
  | DoQuery q return_type => (query q return_type st).2
  | DoExecute command => (execute command st).2
  | DoClose => (close st).2
  | DoPrimaryKey table_name => (_get_primary_key table_name st).2
  | DoNotNull table_name => (_get_not_null_columns table_name st).2
  | Elsewhere s =>
      State (self st) (World (files (env st)) s (calls (env st)) (console (env st)))
  end.

Definition perform_all (ops : list operation) (st : state) : state :=
  foldl (λ st o, perform o st) st ops.

(** The batch names no index level. *)
Definition designates_no_key (d : data) : Prop :=
  match d with
  | Frame df => primary_keys_of df = []
  | Dict _ | Other => True
  end.

End Vocabulary.

(** ** Sample environments and batches, on the reference engine *)
Module Sample.
Import Engine.

(** No local file; a reachable, empty database. *)
Definition fresh : world := World ∅ (Some ∅) [] [].

(** The database file and the configuration exist; the driver cannot
    connect. *)
Definition offline : world :=
  World (<["sqlite.db" := Blob]> (<["config.toml" := Config]> ∅)) None [] [].

(** A cache file that does not unpickle. *)
Definition spoiled : world :=
  World (<["db_cache.pkl" := Blob]> (<["config.toml" := Config]> ∅)) (Some ∅) [] [].

(** The batch of the specification's scenario: key [id], two text columns. *)
Definition batch : DataFrame :=
  {| df_columns := [("column1", "object"); ("column2", "object")];
     index_names := [Some "id"];
     index_dtypes := ["int64"];
     df_rows := [([VInt 5], [VStr "6"; VStr "8"]);
                 ([VInt 6], [VStr "2"; VStr "4444"]);
                 ([VInt 7], [VStr "333"; VStr "6666"])] |}.

(** The follow-up batch, and one that names only the first text column. *)
Definition update : DataFrame :=
  {| df_columns := [("column1", "object"); ("column2", "object")];
     index_names := [Some "id"];
     index_dtypes := ["int64"];
     df_rows := [([VInt 5], [VStr "X"; VStr "Y"])] |}.

Definition partial : DataFrame :=
  {| df_columns := [("column1", "object")];
     index_names := [Some "id"];
     index_dtypes := ["int64"];
     df_rows := [([VInt 5], [VStr "Z"])] |}.

(** A batch with a default index, and one with typed columns. *)
Definition unkeyed : DataFrame :=
  {| df_columns := [("column1", "object")];
     index_names := [None];
     index_dtypes := ["int64"];
     df_rows := [([VInt 0], [VStr "6"])] |}.

Definition typed : DataFrame :=
  {| df_columns := [("n", "int64"); ("x", "float64"); ("s", "object")];
     index_names := [Some "id"];
     index_dtypes := ["object"];
     df_rows := [([VStr "a"], [VInt 1; VFloat 1 0; VStr "u"])] |}.

(** An adapter of each class as its constructor leaves it on [fresh]. *)
Definition ready (b : backend) : adapter :=
  Adapter b (Some "db_cache.pkl") (Some ∅) (Some Open).

(** A database with the table [t1] of the scenario, empty. *)
Definition t1 : table := Tbl ["column1"; "column2"; "id"] ["id"] [].

Definition stocked : world := World ∅ (Some (<["t1" := t1]> ∅)) [] [].

(** The same table holding one row. *)
Definition row5 : gmap string value :=
  list_to_map [("id", VInt 5); ("column1", VStr "6"); ("column2", VStr "8")].

Definition filled : world :=
  World ∅ (Some (<["t1" := Tbl ["column1"; "column2"; "id"] ["id"] [row5]]> ∅)) [] [].

(** A cache that records the key of [t1], a cache file that holds it, and an
    adapter of each class that has loaded it. *)
Definition known : cache_t := <["t1" := TableMeta (Some ["id"]) None]> ∅.

Definition remembered : world :=
  World (<["db_cache.pkl" := Pickled known]> (<["config.toml" := Config]> ∅))
        (Some (<["t1" := t1]> ∅)) [] [].

Definition aware (b : backend) : adapter :=
  Adapter b (Some "db_cache.pkl") (Some known) (Some Open).

(** A batch whose index name is also a data column. *)
Definition clash : DataFrame :=
  {| df_columns := [("id", "int64"); ("column1", "object")];
     index_names := [Some "id"];
     index_dtypes := ["int64"];
     df_rows := [([VInt 5], [VInt 5; VStr "6"])] |}.

(** A batch of integer keys and one floating-point column; the second key is
    [2^53 + 1]. *)
Definition measured : DataFrame :=
  {| df_columns := [("x", "float64")];
     index_names := [Some "id"];
     index_dtypes := ["int64"];
     df_rows := [([VInt 5], [VFloat 3 (-1)]);
                 ([VInt 9007199254740993], [VFloat 1 0])] |}.

(** The table of that batch, and a cache that records its key. *)
Definition t2 : table := Tbl ["x"; "id"] ["id"] [].

Definition gauged : world := World ∅ (Some (<["t2" := t2]> ∅)) [] [].

Definition versed (b : backend) : adapter :=
  Adapter b (Some "db_cache.pkl") (Some (<["t2" := TableMeta (Some ["id"]) None]> ∅))
          (Some Open).

End Sample.

(** ** Adapters without an open connection *)

Section Idle.
Context `{Native}.

(** The object never connected, or its connection was closed. *)
Definition idle (st : state) : Prop := connection (self st) ≠ Some Open.

(** An idle object stays idle and the database stays as it is. *)
Definition stays_idle : relation state :=
  λ st st', idle st → idle st' ∧ server (env st') = server (env st).

(** The operations of the adapter itself, as opposed to changes made by
    someone else. *)
Definition own (o : operation) : Prop :=
  match o with
  | Elsewhere _ => False
  | _ => True
  end.

End Idle.

(** ** The cache in memory and on file *)

Section Persistence.
Context `{Native}.

(** A load from the cache file gives the cache that the object holds. *)
Definition persisted (st : state) : Prop :=
  ∃ c, cache (self st) = Some c ∧ _load_cache st = (Ok c, st).

Definition stays_persisted : relation state := λ st st', persisted st → persisted st'.

End Persistence.

(** ** Rows under a primary key (reference engine) *)

(** The rows that carry the key values [k]. *)
Definition with_key (pk : list string) (k : list value) (rows : list (gmap string value))
  : list (gmap string value) :=
  filter (λ r, Engine.key_of pk r = k) rows.

(** The primary-key constraint: no two rows share key values without NULL. *)
Definition keyed (tb : Engine.table) : Prop :=
  ∀ k, VNone ∉ k → (length (with_key (Engine.t_key tb) k (Engine.t_rows tb)) ≤ 1)%nat.

(** A table with a declared key, made of its columns, that the engine
    enforces. *)
Definition well_formed (tb : Engine.table) : Prop :=
  Engine.t_key tb ≠ [] ∧ Engine.t_key tb ⊆ Engine.t_columns tb ∧ keyed tb.

(** How each adapter's statement treats one proposed row. *)
Definition step_of (b : backend) (update_fields : list string)
  : Engine.table → gmap string value → Engine.table :=
  match b with
  | Sqlite => Engine.replace_row
  | Duck | Postgres => λ tb r, Engine.upsert_row tb update_fields r
  end.

(** The batch as it reaches the driver: the rows are those of
    [df.reset_index().values.tolist()], cut back into index tuple and data
    tuple; the index is marked [object], so that these rows are final. *)
Definition sent_rows (df : DataFrame) : list (list value * list value) :=
  if values_are_floats (reset_index_dtypes df)
  then (λ r : list value * list value, (as_float <$> r.1, as_float <$> r.2))
         <$> df_rows df
  else df_rows df.

Definition as_sent (df : DataFrame) : DataFrame :=
  {| df_columns := df_columns df;
     index_names := index_names df;
     index_dtypes := (λ _, "object") <$> index_names df;
     df_rows := sent_rows df |}.

(** The call that the batch upsert of each adapter hands to the driver. *)
Definition batch_call (b : backend) (t : string) (df : DataFrame) (K : list string)
  : event :=
  let cols := index_labels df ++ columns df in
  let vals := reset_index_rows df in
  match b with
  | Sqlite => Statement ExecuteMany (InsertOrReplace t cols) vals
  | Duck => Statement ExecuteMany (InsertOnConflict DuckSyntax t cols K (columns df)) vals
  | Postgres => Statement ExecuteValues (InsertOnConflict PgValues t cols K (columns df)) vals
  end.

(** The row that a batch proposes for an index tuple and a data tuple. *)
Definition proposed (df : DataFrame) (r : list value * list value) : gmap string value :=
  Engine.incoming (index_labels df ++ columns df) (r.1 ++ r.2).

(** The batch is keyed by the table's primary key and fits the table: every
    index level is named, the names are the key columns, the data columns are
    columns of the table, no key value is missing, and no index tuple occurs
    twice. *)
Definition fits (df : DataFrame) (tb : Engine.table) : Prop :=
  index_names df = Some <$> primary_keys_of df
  ∧ primary_keys_of df ⊆ Engine.t_key tb ∧ Engine.t_key tb ⊆ primary_keys_of df
  ∧ reset_index_ok df
  ∧ NoDup (columns df) ∧ columns df ⊆ Engine.t_columns tb
  ∧ empty df = false
  ∧ Forall (λ r, length r.1 = length (index_names df)
                 ∧ length r.2 = length (columns df)
                 ∧ VNone ∉ r.1) (df_rows df)
  ∧ NoDup (df_rows df).*1.

(** What one upsert makes of the rows [olds] that carried the key of the
    proposed row [r]: SQLite replaces them by [r]; the other two adapters
    update the existing row in the data columns of the batch and insert [r]
    when there is none. *)
Definition merged (b : backend) (update_fields : list string)
    (olds : list (gmap string value)) (r : gmap string value) : gmap string value :=
  match b, olds with
  | Sqlite, _ => r
  | _, old :: _ => Engine.assign update_fields r old
  | _, [] => r
  end.

(** * Properties *)

(** Symbolic execution of the primitive actions on a state whose shape is
    known. *)
Ltac run :=
  repeat (cbn; unfold bind, ret, raise, try_except, attr, class_of_self, set_cache_file,
          set_cache, set_connection, print, record, path_exists, write_file,
          pickle_load, toml_load, connect, open_store, set_store, commit).

Section Facts.
Context `{Native}.

Arguments _load_cache : simpl never.
Arguments _save_cache : simpl never.
Arguments put_primary_key : simpl never.
Arguments put_not_null_columns : simpl never.
Arguments primary_key_rows : simpl never.
Arguments _get_primary_key : simpl never.
Arguments _create_table_from_dataframe : simpl never.

(** ** Running the shared cache methods *)

Lemma load_cache_run (st : state) (f : string) :
  cache_file (self st) = Some f →
  _load_cache st =
    match files (env st) !! f with
    | None => (Ok ∅, st)
    | Some (Pickled c) => (Ok c, st)
    | Some _ => (Raise UnpicklingError, st)
    end.
Proof.
  intros Hf. unfold _load_cache, bind, attr, path_exists, pickle_load, ret.
  rewrite Hf. cbn.
  destruct (files (env st) !! f) as [[| |]|] eqn:E; cbn; rewrite ?E; reflexivity.
Qed.

Lemma save_cache_run (a : adapter) (w : world) (f : string) (c : cache_t) :
  cache_file a = Some f → cache a = Some c →
  _save_cache (State a w) =
    (Ok (), State a (World (<[f := Pickled c]> (files w)) (server w) (calls w) (console w))).
Proof.
  intros Hf Hc. unfold _save_cache, bind, attr, write_file. cbn. rewrite Hf. cbn.
  rewrite Hc. cbn. by rewrite insert_insert_eq.
Qed.

(** ** Construction through the facade *)

Lemma construct_duck_returns (arg : string) (w : world) :
  ∃ a w', construct Duck arg w = (Ok a, w').
Proof.
  unfold construct, DuckDB__init__, try_except.
  match goal with |- context [match ?m ?st with _ => _ end] => destruct (m st) as [[u|e] st'] end;
    cbn; eauto.
Qed.

(** C3: an unrecognised discriminator fails with [ValueError] and leaves the
    environment as it was (no connection attempt); ['sqlite'] and
    ['postgres'] fail with [FileNotFoundError] when the named file does not
    exist, again before any call to a driver; ['duckdb'] constructs an adapter
    whatever files exist. *)
Theorem facade_construction_errors (db_type : string) (kwargs : gmap string string)
    (w : world) :
  (db_type ≠ "sqlite" → db_type ≠ "postgres" → db_type ≠ "duckdb" →
     DatabaseManager__init__ db_type kwargs w = (Raise ValueError, w))
  ∧ (db_type = "sqlite" → files w !! default "sqlite.db" (kwargs !! "db_file") = None →
     (DatabaseManager__init__ db_type kwargs w).1 = Raise FileNotFoundError
     ∧ calls (DatabaseManager__init__ db_type kwargs w).2 = calls w)
  ∧ (db_type = "postgres" →
     files w !! default "config.toml" (kwargs !! "config_file") = None →
     (DatabaseManager__init__ db_type kwargs w).1 = Raise FileNotFoundError
     ∧ calls (DatabaseManager__init__ db_type kwargs w).2 = calls w)
  ∧ (db_type = "duckdb" →
     ∃ a w', DatabaseManager__init__ db_type kwargs w = (Ok (Manager (Some a)), w')).
Proof.
  unfold DatabaseManager__init__. repeat split.
  - intros H1 H2 H3. repeat case_decide; congruence.
  - subst. cbn. rewrite H1. reflexivity.
  - subst. cbn. rewrite H1. reflexivity.
  - subst. cbn. rewrite H1. reflexivity.
  - subst. cbn. rewrite H1. reflexivity.
  - intros ->. cbn.
    destruct (construct_duck_returns (default "duckdb.db" (kwargs !! "db_file")) w)
      as (a & w' & ->).
    eauto.
Qed.

(** ** The persisted cache *)

Lemma put_primary_key_run (a : adapter) (w : world) (f : string) (c : cache_t)
    (t : string) (pk : list string) :
  cache_file a = Some f → cache a = Some c →
  let c' := <[t := TableMeta (Some pk)
                     (not_null_columns (default (TableMeta None None) (c !! t)))]> c in
  put_primary_key t pk (State a w) =
    (Ok (), State (Adapter (kind a) (Some f) (Some c') (connection a))
                  (World (<[f := Pickled c']> (files w)) (server w) (calls w) (console w))).
Proof.
  intros Hf Hc c'. unfold put_primary_key, bind at 1, attr. cbn. rewrite Hc.
  unfold bind, set_cache. cbn.
  rewrite (save_cache_run _ _ f c') by done.
  cbn. by rewrite Hf.
Qed.

Lemma put_not_null_columns_run (a : adapter) (w : world) (f : string) (c : cache_t)
    (t : string) (nn : list string) :
  cache_file a = Some f → cache a = Some c →
  let c' := <[t := TableMeta (primary_key (default (TableMeta None None) (c !! t)))
                     (Some nn)]> c in
  put_not_null_columns t nn (State a w) =
    (Ok (), State (Adapter (kind a) (Some f) (Some c') (connection a))
                  (World (<[f := Pickled c']> (files w)) (server w) (calls w) (console w))).
Proof.
  intros Hf Hc c'. unfold put_not_null_columns, bind at 1, attr. cbn. rewrite Hc.
  unfold bind, set_cache. cbn.
  rewrite (save_cache_run _ _ f c') by done.
  cbn. by rewrite Hf.
Qed.

(** C4, as the code has it: [_load_cache] gives the empty cache when the file
    is missing and the stored cache when it unpickles, and raises when the
    file does not unpickle.  With such a file at the cache path, the SQLite
    and DuckDB constructors catch the error before any connect and return an
    object that has neither [cache] nor [connection]; the PostgreSQL
    constructor, which loads the cache outside its [try], raises. *)
Theorem load_cache_outcomes (st : state) (f : string) (b : backend) (arg : string)
    (w : world) (x : file) :
  cache_file (self st) = Some f →
  files w !! cache_file_name = Some x → unreadable x →
  _load_cache st =
    match files (env st) !! f with
    | None => (Ok ∅, st)
    | Some (Pickled c) => (Ok c, st)
    | Some _ => (Raise UnpicklingError, st)
    end
  ∧ match b with
    | Sqlite | Duck =>
        ∃ w', construct b arg w = (Ok (Adapter b (Some cache_file_name) None None), w')
              ∧ calls w' = calls w ∧ server w' = server w
    | Postgres =>
        files w !! arg = Some Config → is_Some (server w) →
        (construct b arg w).1 = Raise UnpicklingError
    end.
Proof.
  intros Hf Hx Hbad. split; [by apply load_cache_run|].
  assert (Hload : ∀ a' w', cache_file a' = Some cache_file_name →
            files w' !! cache_file_name = Some x →
            _load_cache (State a' w') = (Raise UnpicklingError, State a' w')).
  { intros a' w' Ha' Hw'. rewrite (load_cache_run _ cache_file_name) by done.
    cbn. rewrite Hw'. by destruct x. }
  destruct b.
  - unfold construct, SQLiteDB__init__. run.
    destruct (bool_decide (is_Some (files w !! arg))) eqn:E.
    + run. rewrite Hload by done. cbn. eauto.
    + apply bool_decide_eq_false in E.
      assert (arg ≠ cache_file_name) by (intros ->; apply E; rewrite Hx; eauto).
      run. rewrite Hload; [cbn; eauto | done |].
      cbn. by rewrite lookup_insert_ne.
  - unfold construct, DuckDB__init__. run. rewrite Hload by done. cbn. eauto.
  - intros Harg [s Hs].
    unfold construct, PostgresDB__init__. run. rewrite Harg. run. rewrite Hs. run.
    rewrite Hload by done. reflexivity.
Qed.

(** C6: after the lines of [_get_primary_key] that store a discovered key
    (merge into [self.cache], then rewrite the whole file), a load by any
    adapter that uses the same cache file returns the cache now held in
    memory, whose entry for the table has that key; likewise for the not-null
    columns, and after both the entry is exactly the two lists that were
    stored. *)
Theorem cache_round_trip (a a' : adapter) (w : world) (f : string) (c : cache_t)
    (t : string) (pk nn : list string) :
  cache_file a = Some f → cache a = Some c → cache_file a' = Some f →
  let st1 := (put_primary_key t pk (State a w)).2 in
  let st2 := (put_not_null_columns t nn st1).2 in
  (∃ c1, cache (self st1) = Some c1
         ∧ _load_cache (State a' (env st1)) = (Ok c1, State a' (env st1))
         ∧ c1 !! t ≫= primary_key = Some pk)
  ∧ (∃ c2, cache (self st2) = Some c2
           ∧ _load_cache (State a' (env st2)) = (Ok c2, State a' (env st2))
           ∧ c2 !! t = Some (TableMeta (Some pk) (Some nn))).
Proof.
  intros Hf Hc Hf' st1 st2. subst st2 st1.
  rewrite (put_primary_key_run a w f c) by done. cbn.
  erewrite (put_not_null_columns_run _ _ f) by done. cbn. split.
  - eexists. split; [reflexivity|]. split.
    + rewrite (load_cache_run _ f) by done. cbn. by rewrite lookup_insert_eq.
    + by rewrite lookup_insert_eq.
  - eexists. split; [reflexivity|]. split.
    + rewrite (load_cache_run _ f) by done. cbn. by rewrite lookup_insert_eq.
    + by rewrite !lookup_insert_eq.
Qed.

(** ** Relations kept by every step *)

Lemma keeps_ret {S A} (R : relation S) `{!Reflexive R} (a : A) : keeps R (ret a).
Proof. intros st. reflexivity. Qed.

Lemma keeps_raise {S A} (R : relation S) `{!Reflexive R} (e : exn) : keeps R (@raise S A e).
Proof. intros st. reflexivity. Qed.

Lemma keeps_pure {S A} (R : relation S) `{!Reflexive R} (r : result A) :
  keeps R (λ st, (r, st)).
Proof. intros st. reflexivity. Qed.

Lemma keeps_reads {S A} (R : relation S) `{!Reflexive R} (m : M S A) :
  (∀ st, (m st).2 = st) → keeps R m.
Proof. intros Hm st. rewrite Hm. reflexivity. Qed.

Lemma keeps_bind {S A B} (R : relation S) `{!Transitive R} (m : M S A) (k : A → M S B) :
  keeps R m → (∀ a, keeps R (k a)) → keeps R (bind m k).
Proof.
  intros Hm Hk st. unfold bind. specialize (Hm st).
  destruct (m st) as [[a|e] st']; cbn in *; [|done].
  etransitivity; [exact Hm | apply Hk].
Qed.

Lemma keeps_try {S A} (R : relation S) `{!Transitive R} (m h : M S A) :
  keeps R m → keeps R h → keeps R (try_except m h).
Proof.
  intros Hm Hh st. unfold try_except. specialize (Hm st).
  destruct (m st) as [[a|e] st']; cbn in *; [done|].
  etransitivity; [exact Hm | apply Hh].
Qed.

Ltac reads :=
  apply keeps_reads; [apply _ | intros [[] []];
    unfold attr, class_of_self, path_exists, pickle_load, toml_load, open_store;
    cbn; repeat case_match; reflexivity].

Ltac keeps_step :=
  first
    [ solve [eauto]
    | lazymatch goal with
      | |- keeps _ (ret _) => apply keeps_ret; apply _
      | |- keeps _ (raise _) => apply keeps_raise; apply _
      | |- keeps _ (bind _ _) => apply keeps_bind; [apply _ | | intros ?]
      | |- keeps _ (try_except _ _) => apply keeps_try; [apply _ | | ]
      | |- keeps _ (attr _) => reads
      | |- keeps _ class_of_self => reads
      | |- keeps _ (path_exists _) => reads
      | |- keeps _ (pickle_load _) => reads
      | |- keeps _ (toml_load _) => reads
      | |- keeps _ open_store => reads
      | |- keeps _ (let _ := _ in _) => cbv zeta
      | |- keeps _ (if ?b then _ else _) => destruct b
      | |- keeps _ (match ?x with _ => _ end) => destruct x
      | |- keeps _ (λ st, (_, st)) => apply keeps_pure; apply _
      end ].

Ltac keeps_go := repeat keeps_step.

Lemma built_is_create (b : backend) (t : string) (df : DataFrame) (s : statement) :
  table_statement b t df = Ok (Some s) →
  ∃ cwt pk, s = CreateTable t cwt pk.
Proof.
  unfold table_statement, create_table_query, PostgresDB_create_table_query.
  destruct b; case_decide; try done; destruct (primary_keys_of df); try done;
    intros [= <-]; eauto.
Qed.

Section Kept.
Context (R : relation state) `{!PreOrder R}.
Hypothesis R_print : ∀ r, keeps R (print r).
Hypothesis R_write_file : ∀ p f, keeps R (write_file p f).
Hypothesis R_set_connection : ∀ h, keeps R (set_connection h).
Hypothesis R_record : ∀ e, is_statement e = false → keeps R (record e).

Lemma load_cache_kept : keeps R _load_cache.
Proof. unfold _load_cache. keeps_go. Qed.

Lemma save_cache_kept : keeps R _save_cache.
Proof. unfold _save_cache. keeps_go. Qed.

Lemma fetch_primary_key_kept t : keeps R (fetch_primary_key t).
Proof. unfold fetch_primary_key. keeps_go. Qed.


Hypothesis R_lookup : ∀ t, keeps R (_get_primary_key t).
Hypothesis R_set_store : ∀ s, keeps R (set_store s).

Lemma cursor_select_kept q : keeps R (cursor_select q).
Proof. unfold cursor_select. keeps_go. Qed.

Lemma query_kept q return_type : keeps R (query q return_type).
Proof. pose proof cursor_select_kept. unfold query, DataFrame_of_rows. keeps_go. Qed.

Lemma close_kept : keeps R close.
Proof. unfold close. keeps_go. Qed.

Lemma commit_kept : keeps R commit.
Proof. unfold commit. keeps_go. Qed.

Lemma create_table_without_index_kept t df :
  primary_keys_of df = [] → keeps R (_create_table_from_dataframe t df).
Proof.
  intros Hpk. unfold _create_table_from_dataframe, table_statement, create_table_query,
    PostgresDB_create_table_query. rewrite Hpk.
  apply keeps_bind; [apply _ | reads |].
  intros []; case_decide; cbn; keeps_go.
Qed.

Lemma primary_keys_of_dict data : primary_keys_of (DataFrame_of_dict data) = [].
Proof. reflexivity. Qed.

Hypothesis R_insert : ∀ c q p, is_insert (Statement c q p) = true → keeps R (cursor_run c q p).

Lemma upsert_from_dict_kept t data : keeps R (upsert_from_dict t data).
Proof.
  pose proof commit_kept.
  pose proof (create_table_without_index_kept t _ (primary_keys_of_dict data)).
  unfold upsert_from_dict, SQLiteDB_upsert_from_dict, DuckDB_upsert_from_dict,
    PostgresDB_upsert_from_dict.
  keeps_go.
Qed.

Hypothesis R_create : ∀ t cwt pk, keeps R (cursor_run Execute (CreateTable t cwt pk) []).

Lemma create_table_kept t df : keeps R (_create_table_from_dataframe t df).
Proof.
  unfold _create_table_from_dataframe.
  apply keeps_bind; [apply _ | reads |]. intros b.
  destruct (table_statement b t df) as [[s|]|e] eqn:E; keeps_go.
  apply built_is_create in E as (cwt & pk & ->). apply R_create.
Qed.

Lemma upsert_from_dataframe_kept t df : keeps R (upsert_from_dataframe t df).
Proof.
  pose proof commit_kept. pose proof (create_table_kept t df).
  unfold upsert_from_dataframe, SQLiteDB_upsert_from_dataframe,
    DuckDB_upsert_from_dataframe, PostgresDB_upsert_from_dataframe.
  keeps_go.
Qed.

Hypothesis R_command : ∀ command, keeps R (cursor_run Execute (Command command) []).

Lemma execute_kept command : keeps R (execute command).
Proof. pose proof commit_kept. unfold execute. keeps_go. Qed.

Lemma upsert_kept t d : keeps R (upsert t d).
Proof.
  pose proof (upsert_from_dict_kept t). pose proof (upsert_from_dataframe_kept t).
  unfold upsert. keeps_go.
Qed.

Hypothesis R_not_null : ∀ t, keeps R (_get_not_null_columns t).
Hypothesis R_elsewhere : ∀ st s,
  R st (State (self st) (World (files (env st)) s (calls (env st)) (console (env st)))).

Lemma perform_kept o st : R st (perform o st).
Proof.
  destruct o; cbn; [apply upsert_kept | apply query_kept | apply execute_kept
                   | apply close_kept | apply R_lookup | apply R_not_null | apply R_elsewhere].
Qed.

Lemma perform_all_kept ops st : R st (perform_all ops st).
Proof.
  revert st. induction ops as [|o ops IH]; intros st; cbn; [reflexivity|].
  etransitivity; [apply (perform_kept o) | apply IH].
Qed.

End Kept.

(** ** Once recorded as keyless, always keyless *)

#[local] Instance stays_keyless_preorder t : PreOrder (stays_keyless t).
Proof. split; unfold stays_keyless; [intros ?; done | intros ??? H1 H2 ?; eauto]. Qed.

Ltac frame :=
  intros [[] []]; unfold stays_keyless, keyless, print, write_file, set_connection,
    record, set_store, set_cache_file; cbn; done.

Lemma get_primary_key_hit (a : adapter) (w : world) (c : cache_t) (t : string)
    (pk : list string) :
  cache a = Some c → c !! t ≫= primary_key = Some pk →
  _get_primary_key t (State a w) = (Ok (Some pk), State a w).
Proof.
  intros Hc Hpk. unfold _get_primary_key. run. rewrite Hc. cbn. rewrite Hpk. reflexivity.
Qed.

#[local] Instance same_on_equiv {B} (g : state → B) : Equivalence (same_on g).
Proof.
  split; unfold same_on; [intros ?; reflexivity | intros ???; done | intros ??? -> ->; done].
Qed.

Ltac same := intros [[] []]; unfold same_on; cbn; try done.

Lemma fetch_primary_key_self t st : self (fetch_primary_key t st).2 = self st.
Proof. apply (fetch_primary_key_kept (same_on self)). intros e _. same. Qed.

Lemma save_cache_self st : self (_save_cache st).2 = self st.
Proof. apply (save_cache_kept (same_on self)). intros p f. same. Qed.

Lemma put_primary_key_cache t pk st c :
  cache (self st) = Some c →
  cache (self (put_primary_key t pk st).2) =
    Some (<[t := TableMeta (Some pk)
                   (not_null_columns (default (TableMeta None None) (c !! t)))]> c).
Proof.
  intros Hc. unfold put_primary_key. run. rewrite Hc.
  match goal with |- context [_save_cache ?s] =>
    pose proof (save_cache_self s) as Hs; destruct (_save_cache s) as [[u|e] st'] end;
    cbn in *; rewrite Hs; reflexivity.
Qed.

Lemma get_primary_key_cache t' st c :
  cache (self st) = Some c →
  ∃ c', cache (self (_get_primary_key t' st).2) = Some c'
        ∧ (∀ t, t ≠ t' → c' !! t = c !! t)
        ∧ (is_Some (c !! t' ≫= primary_key) → (_get_primary_key t' st).2 = st).
Proof.
  intros Hc.
  assert (Hrun : _get_primary_key t' st =
            match c !! t' ≫= primary_key with
            | Some pk => (Ok (Some pk), st)
            | None =>
                try_except
                  (conflict_columns <- fetch_primary_key t' ;;
                   put_primary_key t' conflict_columns ;;
                   ret (Some conflict_columns))
                  (print PrimaryKeyUnknown ;; ret None) st
            end).
  { unfold _get_primary_key, bind at 1, attr. rewrite Hc.
    by destruct (c !! t' ≫= primary_key). }
  rewrite Hrun. clear Hrun.
  destruct (c !! t' ≫= primary_key) as [pk|] eqn:E.
  { cbn. exists c. split; [done|]. split; done. }
  unfold try_except, bind at 1.
  pose proof (fetch_primary_key_self t' st) as Hf.
  destruct (fetch_primary_key t' st) as [[cols|e] st1]; cbn in Hf.
  - unfold bind at 1.
    pose proof (put_primary_key_cache t' cols st1 c) as Hp.
    rewrite Hf in Hp. specialize (Hp Hc).
    destruct (put_primary_key t' cols st1) as [[u|e] st2]; cbn in Hp |- *.
    + eexists; split; [exact Hp|]. split; [|by intros []].
      intros t Hne. by rewrite lookup_insert_ne.
    + eexists; split; [exact Hp|]. split; [|by intros []].
      intros t Hne. by rewrite lookup_insert_ne.
  - cbn. rewrite Hf. eexists; split; [exact Hc|]. split; [done|by intros []].
Qed.

Lemma get_primary_key_stays_keyless t t' : keeps (stays_keyless t) (_get_primary_key t').
Proof.
  intros st (c & Hc & Hpk).
  destruct (get_primary_key_cache t' st c Hc) as (c' & Hc' & Hother & Hsame).
  destruct (decide (t' = t)) as [->|Hne].
  - rewrite Hsame by (rewrite Hpk; eauto). eexists; eauto.
  - exists c'. split; [done|]. by rewrite Hother.
Qed.
Lemma put_not_null_columns_cache t nn st c :
  cache (self st) = Some c →
  cache (self (put_not_null_columns t nn st).2) =
    Some (<[t := TableMeta (primary_key (default (TableMeta None None) (c !! t)))
                   (Some nn)]> c).
Proof.
  intros Hc. unfold put_not_null_columns. run. rewrite Hc.
  match goal with |- context [_save_cache ?s] =>
    pose proof (save_cache_self s) as Hs; destruct (_save_cache s) as [[u|e] st'] end;
    cbn in *; rewrite Hs; reflexivity.
Qed.

Lemma fetch_not_null_columns_self t st : self (fetch_not_null_columns t st).2 = self st.
Proof.
  assert (keeps (same_on self) (fetch_not_null_columns t)) as Hk; [|apply Hk].
  assert (∀ e, keeps (same_on self) (record e)) by (intros e; same).
  unfold fetch_not_null_columns. keeps_go.
Qed.

Lemma get_not_null_columns_stays_keyless t t' :
  keeps (stays_keyless t) (_get_not_null_columns t').
Proof.
  intros st (c & Hc & Hpk). unfold _get_not_null_columns, bind at 1, attr. rewrite Hc.
  destruct (c !! t' ≫= not_null_columns) as [nn|] eqn:E.
  { cbn. exists c. done. }
  unfold try_except, bind at 1.
  pose proof (fetch_not_null_columns_self t' st) as Hf.
  destruct (fetch_not_null_columns t' st) as [[cols|e] st1]; cbn in Hf.
  - unfold bind at 1.
    pose proof (put_not_null_columns_cache t' cols st1 c) as Hp.
    rewrite Hf in Hp. specialize (Hp Hc).
    assert (Hkey : (<[t':=TableMeta (primary_key (default (TableMeta None None) (c !! t')))
                            (Some cols)]> c) !! t ≫= primary_key = Some []).
    { destruct (decide (t' = t)) as [->|Hne].
      - rewrite lookup_insert_eq. cbn. by destruct (c !! t).
      - by rewrite lookup_insert_ne. }
    destruct (put_not_null_columns t' cols st1) as [[u|e] st2]; cbn in Hp |- *;
      eexists; eauto.
  - cbn. rewrite Hf. eexists; eauto.
Qed.

Section Driver.
Context (R : relation state) `{!PreOrder R} (ok : event → Prop).
Hypothesis R_record : ∀ e, ok e → keeps R (record e).
Hypothesis R_set_store : ∀ s, keeps R (set_store s).

Lemma cursor_run_kept c q p : ok (Statement c q p) → keeps R (cursor_run c q p).
Proof. intros Hok. unfold cursor_run. keeps_go. Qed.

End Driver.

Lemma perform_all_stays_keyless t ops st :
  keyless t st → keyless t (perform_all ops st).
Proof.
  assert (∀ e, True → keeps (stays_keyless t) (record e)) by (intros; frame).
  assert (∀ s, keeps (stays_keyless t) (set_store s)) by (intros; frame).
  apply (perform_all_kept (stays_keyless t));
    first [ by (intros; frame)
          | apply get_primary_key_stays_keyless
          | apply get_not_null_columns_stays_keyless
          | by (intros; apply (cursor_run_kept (stays_keyless t) (λ _, True)))
          | by (intros [] ?; unfold stays_keyless, keyless)
          | apply _ ].
Qed.

Lemma get_primary_key_found (a : adapter) (w : world) (f : string) (c : cache_t)
    (s : store) (t : string) (cols : list string) :
  cache_file a = Some f → cache a = Some c → c !! t ≫= primary_key = None →
  connection a = Some Open → server w = Some s →
  primary_key_rows (kind a) t s = Some cols →
  let c' := <[t := TableMeta (Some cols)
                     (not_null_columns (default (TableMeta None None) (c !! t)))]> c in
  _get_primary_key t (State a w) =
    (Ok (Some cols),
     State (Adapter (kind a) (Some f) (Some c') (Some Open))
           (World (<[f := Pickled c']> (files w)) (Some s)
                  (calls w ++ [PrimaryKeyQuery (kind a) t]) (console w))).
Proof.
  intros Hf Hc Hmiss Hconn Hs Hrows c'. subst c'.
  destruct a as [b ? ? ?], w as [fs ? cl co]; cbn in *; subst.
  unfold _get_primary_key. run. rewrite Hmiss.
  unfold fetch_primary_key. run. rewrite Hrows. run.
  erewrite (put_primary_key_run _ _ f c) by done. reflexivity.
Qed.

(** C9: when discovery runs and finds no key column, the empty list is the
    answer, it is stored in the cache under the table and the cache file holds
    it; from then on, whatever the adapter is asked to do short of
    [clear_cache] and however the database changes, a lookup for that table
    answers the empty list again and leaves the state as it is (no catalog
    call is recorded); [clear_cache] ends this. *)
Theorem empty_key_list_is_cached (a : adapter) (w : world) (f : string) (c : cache_t)
    (s : store) (t : string) :
  cache_file a = Some f → cache a = Some c → c !! t ≫= primary_key = None →
  connection a = Some Open → server w = Some s →
  primary_key_rows (kind a) t s = Some [] →
  let r := _get_primary_key t (State a w) in
  r.1 = Ok (Some [])
  ∧ keyless t r.2
  ∧ (∃ c1, cache (self r.2) = Some c1 ∧ files (env r.2) !! f = Some (Pickled c1))
  ∧ ∀ ops, let st := perform_all ops r.2 in
      _get_primary_key t st = (Ok (Some []), st)
      ∧ ¬ keyless t (clear_cache st).2.
Proof.
  intros Hf Hc Hmiss Hconn Hs Hrows r. subst r.
  rewrite (get_primary_key_found a w f c s t []) by done. cbn.
  assert (Hk : keyless t
            (State (Adapter (kind a) (Some f)
                      (Some (<[t := TableMeta (Some [])
                                 (not_null_columns (default (TableMeta None None) (c !! t)))]> c))
                      (Some Open))
                   (World (<[f := Pickled (<[t := TableMeta (Some [])
                                 (not_null_columns (default (TableMeta None None) (c !! t)))]> c)]>
                             (files w)) (Some s)
                          (calls w ++ [PrimaryKeyQuery (kind a) t]) (console w)))).
  { eexists. split; [reflexivity|]. by rewrite lookup_insert_eq. }
  split; [done|]. split; [done|]. split.
  { eexists. split; [reflexivity|]. by rewrite lookup_insert_eq. }
  intros ops.
  pose proof (perform_all_stays_keyless t ops _ Hk) as (c2 & Hc2 & Hpk2).
  match goal with |- context [perform_all ops ?x] =>
    generalize dependent (perform_all ops x) end.
  intros st Hc2. split.
  - destruct st as [a2 w2]. by apply (get_primary_key_hit a2 w2 c2).
  - intros (c3 & Hc3 & Hpk3).
    assert (cache (self (clear_cache st).2) = Some ∅) as Hclear.
    { unfold clear_cache. run.
      match goal with |- context [_save_cache ?s0] =>
        pose proof (save_cache_self s0) as Hs0; destruct (_save_cache s0) as [[u|e] st'] end;
        cbn in *; by rewrite Hs0. }
    change (cache (self (clear_cache st).2) = Some c3) in Hc3.
    rewrite Hclear in Hc3. injection Hc3 as <-. by rewrite lookup_empty in Hpk3.
Qed.

(** ** Dict upserts *)

Lemma filter_snoc_false {A} (P : A → Prop) `{!∀ x, Decision (P x)} (l : list A) (x : A) :
  ¬ P x → filter P (l ++ [x]) = filter P l.
Proof.
  intros Hx. rewrite filter_app. cbn. rewrite decide_False by done. apply app_nil_r.
Qed.

Lemma record_same_created e : is_create e = false → keeps (same_on created) (record e).
Proof.
  intros He [a w]. unfold same_on, created. cbn.
  apply filter_snoc_false. by rewrite He.
Qed.

Lemma cursor_run_same_created c q p :
  is_create (Statement c q p) = false → keeps (same_on created) (cursor_run c q p).
Proof.
  intros Hq. pose proof (record_same_created _ Hq).
  assert (∀ s, keeps (same_on created) (set_store s)) by (intros; same).
  unfold cursor_run. keeps_go.
Qed.

Lemma get_primary_key_same_created t : keeps (same_on created) (_get_primary_key t).
Proof.
  assert (∀ e, is_statement e = false → keeps (same_on created) (record e)).
  { intros [] He; try discriminate; by apply record_same_created. }
  assert (∀ p f, keeps (same_on created) (write_file p f)) by (intros; same).
  assert (∀ c, keeps (same_on created) (set_cache c)) by (intros; same).
  assert (∀ r, keeps (same_on created) (print r)) by (intros; same).
  pose proof (fetch_primary_key_kept (same_on created)).
  pose proof (save_cache_kept (same_on created)).
  unfold _get_primary_key, put_primary_key. keeps_go.
Qed.

Lemma columns_of_dict (data : list (string * value)) :
  columns (DataFrame_of_dict data) = data.*1.
Proof. unfold columns. cbn. by rewrite <- list_fmap_compose. Qed.

(** C10: the frame that [upsert_from_dict] builds from the dict has one
    unnamed index level, so it names no key and neither builder returns a
    statement for it; [_create_table_from_dataframe] on it hands nothing to the
    driver (for a dict, whose keys are distinct, it prints the refusal and
    returns); and the whole dict upsert, on any adapter in any state, adds no
    table-creating call to those already made. *)
Theorem dict_upsert_never_creates (t : string) (data : list (string * value)) (st : state) :
  index_names (DataFrame_of_dict data) = [None]
  ∧ (∀ b q, create_table_query b t (DataFrame_of_dict data) ≠ Ok (Some q)
            ∧ PostgresDB_create_table_query t (DataFrame_of_dict data) ≠ Ok (Some q))
  ∧ calls (env (_create_table_from_dataframe t (DataFrame_of_dict data) st).2)
      = calls (env st)
  ∧ server (env (_create_table_from_dataframe t (DataFrame_of_dict data) st).2)
      = server (env st)
  ∧ (NoDup data.*1 →
     _create_table_from_dataframe t (DataFrame_of_dict data) st = print NoIndex st)
  ∧ created (upsert_from_dict t data st).2 = created st.
Proof.
  split; [reflexivity|]. split.
  { intros b q. unfold create_table_query, PostgresDB_create_table_query.
    split; case_decide; cbn; congruence. }
  assert (∀ r, keeps (same_on (λ st, (calls (env st), server (env st)))) (print r))
    by (intros; same).
  pose proof (create_table_without_index_kept
                (same_on (λ st, (calls (env st), server (env st)))) H0 t
                (DataFrame_of_dict data) eq_refl st) as Hc.
  unfold same_on in Hc. injection Hc as Hc1 Hc2.
  split; [done|]. split; [done|]. split.
  { intros Hnd. unfold _create_table_from_dataframe, bind, class_of_self.
    cbv beta iota zeta.
    destruct (kind (self st)); unfold table_statement, create_table_query,
      PostgresDB_create_table_query;
      rewrite columns_of_dict, decide_True by done; reflexivity. }
  apply (upsert_from_dict_kept (same_on created)).
  - intros; same.
  - apply get_primary_key_same_created.
  - intros c q p Hq. apply cursor_run_same_created. by destruct q.
Qed.

(** ** Upserts into a table recorded as keyless *)

Lemma create_table_self_inserted t df st :
  self (_create_table_from_dataframe t df st).2 = self st
  ∧ inserted (_create_table_from_dataframe t df st).2 = inserted st.
Proof.
  assert (same_on (λ st, (self st, inserted st)) st
            (_create_table_from_dataframe t df st).2) as Hk.
  { apply (create_table_kept (same_on (λ st, (self st, inserted st)))).
    - intros; same.
    - intros t' cwt pk.
      apply (cursor_run_kept _ (λ e, is_insert e = false)); [| intros; same | done].
      intros e He [a w]. unfold same_on, inserted. cbn. f_equal.
      apply filter_snoc_false. by rewrite He. }
  unfold same_on in Hk. by injection Hk.
Qed.

Lemma create_table_without_index_handed t df st :
  primary_keys_of df = [] →
  handed (_create_table_from_dataframe t df st).2 = handed st.
Proof.
  intros Hpk.
  apply (create_table_without_index_kept (same_on handed)); [intros; same | done].
Qed.

(** What follows table creation in the DuckDB and PostgreSQL upserts changes
    nothing when the cache records the table as keyless. *)
Lemma second_lookup_hits {A} t (st : state) (k : option (list string) → M state A) :
  keyless t st → bind (_get_primary_key t) k st = k (Some []) st.
Proof.
  intros (c & Hc & Hpk). destruct st as [a w]. unfold bind.
  by rewrite (get_primary_key_hit a w c t []).
Qed.

Lemma cursor_run_calls c q p st :
  is_Some (connection (self st)) →
  calls (env (cursor_run c q p st).2) = calls (env st) ++ [Statement c q p].
Proof.
  intros [h Hconn]. destruct st as [[b cf ca co] [fs sv cl cn]]; cbn in *; subst.
  unfold cursor_run. run. destruct h; [|done]. destruct sv; [|done]. run.
  by destruct (run b c q p s).1.
Qed.

Lemma create_table_returns_ok (t : string) (df : DataFrame) (st : state) :
  NoDup (columns df) → (_create_table_from_dataframe t df st).1 = Ok ().
Proof.
  intros Hnd. unfold _create_table_from_dataframe, bind at 1, class_of_self.
  cbv beta iota.
  assert (∃ r, table_statement (kind (self st)) t df = Ok r) as [r ->].
  { unfold table_statement, create_table_query, PostgresDB_create_table_query.
    destruct (kind (self st)); rewrite decide_True by done; cbv zeta;
      destruct (primary_keys_of df); eauto. }
  destruct r as [q|]; [|done]. unfold try_except.
  match goal with |- context [match ?m st with _ => _ end] =>
    destruct (m st) as [[[]|e] st'] end; reflexivity.
Qed.

(** The attempt that ends every upsert: the statement is handed to the
    driver whether or not the driver accepts it. *)
Lemma insert_attempt_inserted (c : call) (q : statement) (p : list (list value))
    (after : M state unit) (r : report) (st : state) :
  is_Some (connection (self st)) → is_insert (Statement c q p) = true →
  calls (env (after (cursor_run c q p st).2).2) = calls (env (cursor_run c q p st).2) →
  inserted (try_except (cursor_run c q p ;; after) (print r) st).2
  = inserted st ++ [Statement c q p].
Proof.
  intros Hconn Hq Hafter.
  pose proof (cursor_run_calls c q p st Hconn) as Hcalls.
  unfold try_except, bind.
  destruct (cursor_run c q p st) as [[u|e] st1]; cbn [fst snd] in *.
  - destruct (after st1) as [[u'|e'] st2]; cbn [fst snd] in *;
      unfold inserted; cbn; rewrite ?Hafter, Hcalls, filter_app; cbn;
      by rewrite decide_True.
  - unfold inserted. cbn. rewrite Hcalls, filter_app. cbn. by rewrite decide_True.
Qed.

(** C2, as the code has it: when the cache has no key for the table and
    discovery finds no key column, an upsert on the DuckDB and PostgreSQL
    adapters adds no inserting call to those already made, and if moreover the
    data names no index level, it hands no statement at all to the engine and
    the store is as before.  On the SQLite adapter, in the same situation, a
    non-empty batch whose column labels are distinct and whose index labels
    are distinct and differ from them, and a non-empty dict, have their
    [INSERT OR REPLACE] handed to the driver with their rows. *)
Theorem keyless_upsert_inserts_nothing (a : adapter) (w : world) (f : string)
    (c : cache_t) (s : store) (t : string) (d : data) :
  cache_file a = Some f → cache a = Some c → connection a = Some Open →
  server w = Some s →
  c !! t ≫= primary_key = None → primary_key_rows (kind a) t s = Some [] →
  let st' := (upsert t d (State a w)).2 in
  (kind a ≠ Sqlite →
     inserted st' = inserted (State a w)
     ∧ (designates_no_key d → handed st' = handed (State a w)))
  ∧ (kind a = Sqlite →
     match d with
     | Frame df =>
         empty df = false → NoDup (columns df) → reset_index_ok df →
         inserted st'
         = inserted (State a w)
             ++ [Statement ExecuteMany (InsertOrReplace t (index_labels df ++ columns df))
                           (reset_index_rows df)]
     | Dict data =>
         data ≠ [] → NoDup data.*1 →
         inserted st'
         = inserted (State a w)
             ++ [Statement Execute (InsertOrReplace t data.*1) [data.*2]]
     | Other => inserted st' = inserted (State a w)
     end).
Proof.
  intros Hf Hc Hconn Hs Hmiss Hrows.
  pose proof (get_primary_key_found a w f c s t [] Hf Hc Hmiss Hconn Hs Hrows) as Hfirst.
  cbv zeta in Hfirst.
  match type of Hfirst with _ = (_, ?x) => set (st1 := x) in * end.
  assert (Hk1 : keyless t st1).
  { eexists. split; [reflexivity|]. by rewrite lookup_insert_eq. }
  assert (Hi1 : inserted st1 = inserted (State a w)).
  { unfold inserted. cbn. by apply filter_snoc_false. }
  assert (Hh1 : handed st1 = handed (State a w)).
  { unfold handed. cbn. rewrite Hs. f_equal. by apply filter_snoc_false. }
  assert (Hafter : ∀ df (rest : M state unit),
            (∀ st2, keyless t st2 → (rest st2).2 = st2) →
            let st' := ((pk <- _get_primary_key t ;;
                         (if falsy pk then _create_table_from_dataframe t df else ret ()) ;;
                         rest) (State a w)).2 in
            inserted st' = inserted (State a w)
            ∧ (primary_keys_of df = [] → handed st' = handed (State a w))).
  { intros df rest Hrest. cbv zeta.
    destruct (create_table_self_inserted t df st1) as [Hself Hins].
    pose proof (create_table_without_index_handed t df st1) as Hhand.
    assert (((pk <- _get_primary_key t ;;
              (if falsy pk then _create_table_from_dataframe t df else ret ()) ;;
              rest) (State a w)).2 = (_create_table_from_dataframe t df st1).2) as ->.
    { unfold bind at 1. rewrite Hfirst. cbn [falsy]. unfold bind.
      destruct (_create_table_from_dataframe t df st1) as [[u|e] st2]; cbn [fst snd] in *;
        [|done].
      apply Hrest. destruct Hk1 as (c1 & Hc1 & Hpk1). exists c1. by rewrite Hself. }
    split; [congruence|]. intros Hpk. rewrite Hhand by done. done. }
  assert (Hpure : ∀ {A} (r : result A) (k : A → M state unit) st2,
            (∀ x, (k x st2).2 = st2) → (bind (λ st, (r, st)) k st2).2 = st2).
  { intros A r k st2 Hk. unfold bind. destruct r; cbn; [apply Hk | done]. }
  assert (Hcreated : ∀ df, NoDup (columns df) →
            ∃ st2, _create_table_from_dataframe t df st1 = (Ok (), st2)
                   ∧ is_Some (connection (self st2))
                   ∧ inserted st2 = inserted (State a w)).
  { intros df Hnd. pose proof (create_table_returns_ok t df st1 Hnd) as Hok.
    destruct (create_table_self_inserted t df st1) as [Hself Hins].
    destruct (_create_table_from_dataframe t df st1) as [r st2]. cbn in Hok, Hself, Hins.
    subst r. exists st2. split; [done|]. split; [rewrite Hself; cbn; eauto|].
    by rewrite Hins. }
  assert (Hcommit : ∀ r st2, calls (env ((commit ;; print r) st2).2) = calls (env st2)).
  { intros r [[b' cf ca [[|]|]] [fs [s'|] cl cn]]; by run. }
  cbv zeta. unfold upsert, upsert_from_dataframe, upsert_from_dict. split; intros Hb.
  - destruct d as [df|data|]; cbn [designates_no_key].
    + unfold bind at 1, class_of_self. cbn.
      destruct (kind a) eqn:Ek; [done| |].
      * unfold DuckDB_upsert_from_dataframe. destruct (empty df); [by cbn|].
        apply Hafter. intros st2 Hk2.
        apply Hpure. intros cols. apply Hpure. intros vals.
        by rewrite second_lookup_hits.
      * unfold PostgresDB_upsert_from_dataframe. destruct (empty df); [by cbn|].
        apply Hafter. intros st2 Hk2.
        apply Hpure. intros vals.
        by rewrite second_lookup_hits.
    + unfold bind at 1, class_of_self. cbn.
      destruct (kind a) eqn:Ek; [done| |].
      * unfold DuckDB_upsert_from_dict. destruct data as [|kv data]; [by cbn|].
        split; [|intros _]; apply Hafter; try done;
          intros st2 Hk2; by rewrite second_lookup_hits.
      * unfold PostgresDB_upsert_from_dict. destruct data as [|kv data]; [by cbn|].
        split; [|intros _]; apply Hafter; try done;
          intros st2 Hk2; by rewrite second_lookup_hits.
    + by cbn.
  - destruct d as [df|data|].
    + intros Hne Hnd Hok. unfold bind at 1, class_of_self. cbn [self fst snd]. rewrite Hb.
      unfold SQLiteDB_upsert_from_dataframe. rewrite Hne.
      unfold bind at 1. rewrite Hfirst. cbn [falsy].
      destruct (Hcreated df Hnd) as (st2 & Hrun & Hconn2 & Hins2).
      unfold bind at 1. rewrite Hrun.
      unfold reset_index_columns, reset_index_values. rewrite !decide_True by done.
      unfold bind at 1. unfold bind at 1.
      rewrite insert_attempt_inserted; [by rewrite Hins2 | done | done | apply Hcommit].
    + intros Hne Hnd. unfold bind at 1, class_of_self. cbn [self fst snd]. rewrite Hb.
      unfold SQLiteDB_upsert_from_dict. destruct data as [|kv data]; [done|].
      unfold bind at 1. rewrite Hfirst. cbn [falsy].
      destruct (Hcreated (DataFrame_of_dict (kv :: data))) as (st2 & Hrun & Hconn2 & Hins2).
      { by rewrite columns_of_dict. }
      unfold bind at 1. rewrite Hrun.
      rewrite insert_attempt_inserted; [by rewrite Hins2 | done | done | apply Hcommit].
    + by cbn.
Qed.

(** ** Queries *)

Lemma query_returns q rt st : ∃ r, (query q rt st).1 = Ok r.
Proof.
  unfold query, try_except.
  match goal with |- context [match ?m st with _ => _ end] => destruct (m st) as [[r|e] st'] end;
    cbn; eauto.
Qed.

Lemma cursor_select_run (a : adapter) (w : world) (s : store) (q : string) :
  connection a = Some Open → server w = Some s →
  cursor_select q (State a w) =
    (match (select (kind a) q s).2 with
     | Some answer => Ok answer
     | None => Raise NativeError
     end,
     State a (World (files w) (Some (select (kind a) q s).1) (calls w ++ [Query q])
                    (console w))).
Proof.
  intros Hconn Hs. destruct a as [b ? ? ?], w as [fs ? cl co]; cbn in *; subst.
  unfold cursor_select. run. by destruct (select b q s).2.
Qed.

(** C8: with the tabular shape, a query for which the engine answers column
    names and no row returns the table with those columns and no row, and a
    query on which the engine raises returns [None], whatever the shape asked
    for; the two results differ.  The facade returns what the adapter returns.
    No query raises, and a result that is not [None] holds every row the engine
    answered. *)
Theorem query_empty_versus_failed (a : adapter) (w : world) (s s' : store)
    (q_empty q_failing return_type : string) (cols : list string) :
  connection a = Some Open → server w = Some s →
  select (kind a) q_empty s = (s', Some (Some cols, [])) →
  (select (kind a) q_failing s).2 = None →
  (query q_empty "pandas" (State a w)).1 = Ok (Some (Table cols []))
  ∧ (query q_failing return_type (State a w)).1 = Ok None
  ∧ (query q_empty "pandas" (State a w)).1 ≠ (query q_failing return_type (State a w)).1
  ∧ (DatabaseManager_query q_empty "pandas" (Manager (Some a), w)).1
      = Ok (Some (Table cols []))
  ∧ (DatabaseManager_query q_failing return_type (Manager (Some a), w)).1 = Ok None
  ∧ ∀ q rt r, (query q rt (State a w)).1 = Ok (Some r) →
      ∃ columns rows s1, select (kind a) q s = (s1, Some (Some columns, rows))
        ∧ (r = Table columns rows ∨ r = Mappings (dict_of_row columns <$> rows)).
Proof.
  intros Hconn Hs Hempty Hfail.
  assert (H1 : (query q_empty "pandas" (State a w)).1 = Ok (Some (Table cols []))).
  { unfold query, try_except, bind at 1. rewrite (cursor_select_run a w s) by done.
    rewrite Hempty. cbn. unfold DataFrame_of_rows. by rewrite decide_True by constructor. }
  assert (H2 : (query q_failing return_type (State a w)).1 = Ok None).
  { unfold query, try_except, bind at 1. rewrite (cursor_select_run a w s) by done.
    rewrite Hfail. reflexivity. }
  split; [done|]. split; [done|]. split; [by rewrite H1, H2|].
  split; [|split].
  - unfold DatabaseManager_query, bind, DatabaseManager_is_db_available, on_db. cbn.
    by rewrite H1.
  - unfold DatabaseManager_query, bind, DatabaseManager_is_db_available, on_db. cbn.
    by rewrite H2.
  - intros q rt r. unfold query, try_except, bind at 1.
    rewrite (cursor_select_run a w s) by done.
    destruct (select (kind a) q s) as [s1 [[[columns|] rows]|]] eqn:E; cbn; try done.
    unfold DataFrame_of_rows, bind, ret, raise.
    repeat case_decide; cbn; intros [= <-]; eauto 10.
Qed.

(** ** The CREATE TABLE statement *)

Lemma get_loc_Some df pk i :
  get_loc df pk = Some i → columns df !! i = Some pk.
Proof.
  unfold get_loc. destruct (list_find _ _) as [[j c]|] eqn:E; [|done].
  intros [= <-]. apply list_find_Some in E as (Hj & -> & _). done.
Qed.

Lemma get_loc_None df pk : get_loc df pk = None → pk ∉ columns df.
Proof.
  unfold get_loc. destruct (list_find _ _) as [[j c]|] eqn:E; [done|].
  intros _ Hin. apply list_find_None in E. rewrite Forall_forall in E. by apply (E pk).
Qed.

Lemma mark_inline_keys_spec (df : DataFrame) (base : string → string → string)
    (extra : list (string * string)) (pks : list string) :
  NoDup (columns df) →
  mark_inline_keys df pks (((λ cd, (cd.1, base cd.1 cd.2)) <$> df_columns df) ++ extra)
  = ((λ cd, (cd.1, with_inline_marks pks cd.1 (base cd.1 cd.2))) <$> df_columns df) ++ extra.
Proof.
  intros Hnd. revert base. induction pks as [|pk pks IH]; intros base; [done|].
  unfold mark_inline_keys, with_inline_marks in *. cbn [foldl].
  specialize (IH (λ c ty, if decide (pk = c) then base c ty +:+ " PRIMARY KEY" else base c ty)).
  cbn beta in IH. rewrite <- IH. f_equal.
  destruct (get_loc df pk) as [i|] eqn:E.
  - apply get_loc_Some in E as Hi.
    apply list_eq. intros j.
    destruct (decide (j = i)) as [->|Hne].
    + unfold columns in Hi. rewrite list_lookup_fmap in Hi.
      destruct (df_columns df !! i) as [[c dt]|] eqn:Ei; [|done]. cbn in Hi.
      injection Hi as ->.
      assert (i < length (df_columns df))%nat by (by eapply lookup_lt_Some).
      rewrite list_lookup_alter_eq.
      rewrite !lookup_app_l by (by rewrite length_fmap).
      rewrite !list_lookup_fmap, Ei. cbn. by rewrite decide_True.
    + rewrite list_lookup_alter_ne by done.
      destruct (decide (j < length (df_columns df))%nat) as [Hlt|Hge].
      * rewrite !lookup_app_l by (by rewrite length_fmap).
        rewrite !list_lookup_fmap.
        destruct (df_columns df !! j) as [[c dt]|] eqn:Ej; [|done]. cbn.
        rewrite decide_False; [done|]. intros <-.
        apply Hne. eapply NoDup_lookup; [exact Hnd | | exact Hi].
        unfold columns. by rewrite list_lookup_fmap, Ej.
      * rewrite !lookup_app_r by (rewrite length_fmap; lia).
        by rewrite !length_fmap.
  - apply get_loc_None in E. f_equal. apply list_fmap_ext. intros j [c dt] Hj. cbn.
    rewrite decide_False; [done|]. intros <-. apply E.
    apply list_elem_of_lookup. exists j. unfold columns. by rewrite list_lookup_fmap, Hj.
Qed.

(** C5: for a batch with distinct column labels and at least one named index
    level, every builder gives a statement, [CREATE TABLE] on the target
    table: its columns are the data columns in order, typed INTEGER for int64,
    REAL / DOUBLE / FLOAT (SQLite / DuckDB / PostgreSQL) for float64 and TEXT /
    VARCHAR / TEXT for any other dtype, followed by every named index level
    that is not a data column, typed TEXT / VARCHAR / TEXT; its PRIMARY KEY
    clause lists the named index levels, and closes the text.  PostgreSQL
    columns that are keys carry the inline mark in addition.  The method hands
    exactly this statement to the cursor.  No statement is built for another
    batch. *)
Theorem create_table_statement (b : backend) (t : string) (df : DataFrame) (st : state) :
  let pks := primary_keys_of df in
  let type_of (dtype : string) :=
    if decide (dtype = "int64") then "INTEGER"
    else if decide (dtype = "float64")
         then match b with Sqlite => "REAL" | Duck => "DOUBLE" | Postgres => "FLOAT" end
         else match b with Sqlite | Postgres => "TEXT" | Duck => "VARCHAR" end in
  let key_type := match b with Sqlite | Postgres => "TEXT" | Duck => "VARCHAR" end in
  let mark (c ty : string) :=
    match b with Sqlite | Duck => ty | Postgres => with_inline_marks pks c ty end in
  let cwt :=
    ((λ cd, (cd.1, mark cd.1 (type_of cd.2))) <$> df_columns df)
      ++ ((λ pk, (pk, key_type)) <$> filter (λ pk, pk ∉ columns df) pks) in
  let q := CreateTable t cwt pks in
  (NoDup (columns df) → pks ≠ [] → table_statement b t df = Ok (Some q))
  ∧ (∀ q', table_statement b t df = Ok (Some q') →
       NoDup (columns df) ∧ pks ≠ [] ∧ q' = q)
  ∧ sql_text q =
      "CREATE TABLE " +:+ t +:+ " ("
        +:+ join ", " ((λ ct, ct.1 +:+ " " +:+ ct.2) <$> cwt)
        +:+ ", PRIMARY KEY (" +:+ join ", " pks +:+ "));"
  ∧ (∀ c ty, c ∉ pks → mark c ty = ty)
  ∧ (∀ c ty, b = Postgres → NoDup pks → c ∈ pks → mark c ty = ty +:+ " PRIMARY KEY")
  ∧ (NoDup (columns df) → pks ≠ [] →
     kind (self st) = b → is_Some (connection (self st)) →
     calls (env (_create_table_from_dataframe t df st).2)
     = calls (env st) ++ [Statement Execute q []]).
Proof.
  intros pks type_of key_type mark cwt q.
  assert (Hmatch : ∀ (A : Type) (l : list string) (x y : A),
            l ≠ [] → match l with [] => x | _ :: _ => y end = y)
    by (by intros A [|] x y).
  assert (Hbuilt : NoDup (columns df) → pks ≠ [] → table_statement b t df = Ok (Some q)).
  { intros Hnd Hne. subst q cwt mark key_type type_of pks.
    unfold table_statement, create_table_query, PostgresDB_create_table_query.
    destruct b; rewrite decide_True by done; cbv zeta; rewrite Hmatch by done;
      try done.
    by rewrite (mark_inline_keys_spec df (λ _ dt, column_type Postgres dt)). }
  split; [done|]. split.
  { intros q' Hq'.
    assert (NoDup (columns df) ∧ pks ≠ []) as [Hnd Hne].
    { revert Hq'. subst pks.
      unfold table_statement, create_table_query, PostgresDB_create_table_query.
      destruct (decide (primary_keys_of df = [])) as [->|Hne];
        [by destruct b; case_decide|].
      by destruct b; case_decide. }
    split; [done|]. split; [done|]. rewrite Hbuilt in Hq' by done. by injection Hq'. }
  split; [done|]. split; [|split].
  - intros c ty Hc. subst mark. destruct b; try done.
    unfold with_inline_marks. clear -Hc. revert ty.
    induction pks as [|pk pks' IH]; intros ty; [done|]. cbn.
    rewrite decide_False by (intros ->; apply Hc; left).
    apply IH. intros Hin. apply Hc. by right.
  - intros c ty -> Hnd Hc. subst mark. cbn. unfold with_inline_marks. clear -Hnd Hc.
    revert ty. induction pks as [|pk pks' IH]; intros ty; [by apply elem_of_nil in Hc|].
    apply NoDup_cons in Hnd as [Hpk Hnd]. cbn.
    destruct (decide (pk = c)) as [->|Hne].
    + clear IH. assert (Hrest : ∀ ty' : string,
                  foldl (λ acc pk, if decide (pk = c) then acc +:+ " PRIMARY KEY" else acc)
                        ty' pks' = ty').
      { clear -Hpk. induction pks' as [|p ps IH]; intros ty'; [done|]. cbn.
        rewrite decide_False by (intros ->; apply Hpk; left).
        apply IH. intros Hin. apply Hpk. by right. }
      apply Hrest.
    + apply IH; [done|]. apply elem_of_cons in Hc as [->|Hc]; [done|done].
  - intros Hnd Hne Hb Hconn. subst b.
    unfold _create_table_from_dataframe, bind at 1, class_of_self.
    cbv beta iota. rewrite Hbuilt by done. unfold try_except, bind.
    pose proof (cursor_run_calls Execute q [] st Hconn) as Hc.
    destruct (cursor_run Execute q [] st) as [[u|e] [a2 [? ? ? ?]]];
      cbn in *; done.
Qed.

End Facts.

(** * Rows under a primary key *)

Section Rows.
Import Engine.

Lemma filter_none {A} (P : A → Prop) `{!∀ x, Decision (P x)} (l : list A) :
  (∀ x, x ∈ l → ¬ P x) → filter P l = [].
Proof.
  induction l as [|x l IH]; intros Hl; [done|].
  rewrite filter_cons, decide_False by (apply Hl; left).
  apply IH. intros y Hy. apply Hl. by right.
Qed.

Lemma filter_all {A} (P : A → Prop) `{!∀ x, Decision (P x)} (l : list A) :
  (∀ x, x ∈ l → P x) → filter P l = l.
Proof.
  induction l as [|x l IH]; intros Hl; [done|].
  rewrite filter_cons, decide_True by (apply Hl; left).
  f_equal. apply IH. intros y Hy. apply Hl. by right.
Qed.

Lemma filter_one_true {A} (P : A → Prop) `{!∀ x, Decision (P x)} (x : A) :
  P x → filter P [x] = [x].
Proof. intros Hx. by rewrite filter_cons, decide_True. Qed.

Lemma filter_one_false {A} (P : A → Prop) `{!∀ x, Decision (P x)} (x : A) :
  ¬ P x → filter P [x] = [].
Proof. intros Hx. by rewrite filter_cons, decide_False. Qed.

Lemma filter_fmap_stable {A} (P : A → Prop) `{!∀ x, Decision (P x)} (f : A → A)
    (l : list A) :
  (∀ x, x ∈ l → (P (f x) ↔ P x)) → filter P (f <$> l) = f <$> filter P l.
Proof.
  induction l as [|x l IH]; intros Hl; [done|]. cbn [fmap list_fmap].
  assert (Hx : P (f x) ↔ P x) by (apply Hl; left).
  assert (Hrest : filter P (f <$> l) = f <$> filter P l).
  { apply IH. intros y Hy. apply Hl. by right. }
  rewrite !filter_cons. destruct (decide (P x)) as [Hp|Hp].
  - rewrite decide_True by (by apply Hx). cbn. by rewrite Hrest.
  - rewrite decide_False by (by rewrite Hx). done.
Qed.

(** *** Cells of proposed and updated rows *)

Lemma cell_incoming_in (cols : list string) (vals : list value) (j : nat) (c : string)
    (v : value) :
  NoDup cols → length vals = length cols →
  cols !! j = Some c → vals !! j = Some v →
  cell (incoming cols vals) c = v.
Proof.
  intros Hnd Hlen Hc Hv. unfold cell, incoming.
  assert (list_to_map (zip cols vals) !! c = Some v) as ->; [|done].
  apply elem_of_list_to_map_1.
  - rewrite fst_zip by lia. done.
  - apply list_elem_of_lookup. exists j. rewrite lookup_zip_with, Hc. cbn. by rewrite Hv.
Qed.

Lemma cell_incoming_out (cols : list string) (vals : list value) (c : string) :
  c ∉ cols → cell (incoming cols vals) c = VNone.
Proof.
  intros Hc. unfold cell, incoming.
  assert (list_to_map (zip cols vals) !! c = None) as ->; [|done].
  apply not_elem_of_list_to_map_1. intros Hin. apply Hc.
  apply list_elem_of_fmap in Hin as ([c' v] & -> & Hin).
  apply elem_of_zip_l in Hin. done.
Qed.

Lemma cell_assign (upd : list string) (r old : gmap string value) (c : string) :
  cell (assign upd r old) c = if decide (c ∈ upd) then cell r c else cell old c.
Proof.
  unfold assign. induction upd as [|u upd IH]; cbn.
  { rewrite decide_False by apply not_elem_of_nil. done. }
  unfold cell at 1. destruct (decide (u = c)) as [->|Hne].
  - rewrite lookup_insert_eq. cbn. rewrite decide_True by left. done.
  - rewrite lookup_insert_ne by done. fold (cell (foldr (λ c acc, <[c:=cell r c]> acc) old upd) c).
    rewrite IH. destruct (decide (c ∈ upd)) as [Hin|Hout].
    + rewrite decide_True by (by right). done.
    + rewrite decide_False; [done|]. intros [->|?]%elem_of_cons; done.
Qed.

Lemma key_of_ext (pk : list string) (r r' : gmap string value) :
  (∀ c, c ∈ pk → cell r c = cell r' c) → key_of pk r = key_of pk r'.
Proof.
  intros Hc. unfold key_of. apply list_fmap_ext. intros i c Hi. apply Hc.
  apply list_elem_of_lookup. eauto.
Qed.

Lemma key_of_assign (pk upd : list string) (r old : gmap string value) :
  (∀ c, c ∈ upd → c ∉ pk) → key_of pk (assign upd r old) = key_of pk old.
Proof.
  intros Hd. apply key_of_ext. intros c Hc. rewrite cell_assign.
  rewrite decide_False; [done|]. intros Hin. by apply (Hd c).
Qed.

Lemma conflicts_iff (pk : list string) (r r' : gmap string value) :
  pk ≠ [] → VNone ∉ key_of pk r →
  conflicts pk r r' ↔ key_of pk r' = key_of pk r.
Proof.
  intros Hpk Hr. unfold conflicts. split; [by intros (_ & _ & ?)|]. by intros ?.
Qed.

End Rows.

Section Steps.
Import Engine.

(** *** One proposed row *)

Lemma replace_row_same (tb : table) (r : gmap string value) :
  t_key tb ≠ [] → VNone ∉ key_of (t_key tb) r →
  with_key (t_key tb) (key_of (t_key tb) r) (t_rows (replace_row tb r)) = [r].
Proof.
  intros Hpk Hr. unfold with_key, replace_row. cbn [t_rows].
  rewrite filter_app, list_filter_filter.
  rewrite filter_none, filter_one_true; [done|done|].
  intros r' _ [Hk Hc]. apply Hc. by apply conflicts_iff.
Qed.

Lemma replace_row_other (tb : table) (r : gmap string value) (k : list value) :
  t_key tb ≠ [] → VNone ∉ key_of (t_key tb) r → k ≠ key_of (t_key tb) r →
  with_key (t_key tb) k (t_rows (replace_row tb r)) = with_key (t_key tb) k (t_rows tb).
Proof.
  intros Hpk Hr Hk. unfold with_key, replace_row. cbn [t_rows].
  rewrite filter_app, list_filter_filter.
  rewrite filter_one_false by (intros Heq; by apply Hk).
  rewrite app_nil_r. apply list_filter_iff. intros r'. split; [by intros [? _]|].
  intros Hr'. split; [done|]. rewrite conflicts_iff by done. congruence.
Qed.

Lemma upsert_row_same (tb : table) (upd : list string) (r : gmap string value) :
  t_key tb ≠ [] → VNone ∉ key_of (t_key tb) r → keyed tb →
  (∀ c, c ∈ upd → c ∉ t_key tb) →
  with_key (t_key tb) (key_of (t_key tb) r) (t_rows (upsert_row tb upd r))
  = [match with_key (t_key tb) (key_of (t_key tb) r) (t_rows tb) with
     | old :: _ => assign upd r old
     | [] => r
     end].
Proof.
  intros Hpk Hr Hkeyed Hd. unfold upsert_row.
  destruct (decide (Exists _ _)) as [Hex|Hno]; cbn [t_rows].
  - unfold with_key at 1. rewrite filter_fmap_stable.
    + fold (with_key (t_key tb) (key_of (t_key tb) r) (t_rows tb)).
      specialize (Hkeyed _ Hr).
      apply Exists_exists in Hex as (old & Hold & Hc).
      assert (old ∈ with_key (t_key tb) (key_of (t_key tb) r) (t_rows tb)) as Hin.
      { apply list_elem_of_filter. split; [by apply conflicts_iff in Hc|done]. }
      destruct (with_key (t_key tb) (key_of (t_key tb) r) (t_rows tb)) as [|o [|o' os]] eqn:E;
        [by apply elem_of_nil in Hin| |cbn in Hkeyed; lia].
      cbn. rewrite decide_True; [done|].
      assert (o ∈ with_key (t_key tb) (key_of (t_key tb) r) (t_rows tb)) as Ho
        by (rewrite E; left).
      apply list_elem_of_filter in Ho as [Ho _]. by apply conflicts_iff.
    + intros r' _. case_decide; [|done]. by rewrite key_of_assign.
  - unfold with_key. rewrite filter_app.
    rewrite (filter_none _ (t_rows tb)), filter_one_true; [done|done|].
    intros r' Hr' Hk. apply Hno. apply Exists_exists. exists r'. split; [done|].
      by apply conflicts_iff.
Qed.

Lemma upsert_row_other (tb : table) (upd : list string) (r : gmap string value)
    (k : list value) :
  t_key tb ≠ [] → VNone ∉ key_of (t_key tb) r → k ≠ key_of (t_key tb) r →
  (∀ c, c ∈ upd → c ∉ t_key tb) →
  with_key (t_key tb) k (t_rows (upsert_row tb upd r)) = with_key (t_key tb) k (t_rows tb).
Proof.
  intros Hpk Hr Hk Hd. unfold upsert_row.
  destruct (decide (Exists _ _)) as [Hex|Hno]; cbn [t_rows].
  - unfold with_key. rewrite filter_fmap_stable.
    + rewrite <- (list_fmap_id (filter _ (t_rows tb))) at 2.
      apply list_fmap_ext. intros i r' Hi. cbn.
      rewrite decide_False; [done|]. intros Hc.
      apply list_elem_of_lookup_2, list_elem_of_filter in Hi as [Hi _].
      apply conflicts_iff in Hc; [|done|done]. congruence.
    + intros r' _. case_decide; [|done]. by rewrite key_of_assign.
  - unfold with_key. rewrite filter_app.
    rewrite filter_one_false by (intros Heq; by apply Hk). apply app_nil_r.
Qed.

End Steps.

(** *** A batch of proposed rows

    [step] inserts one proposed row into a table with key [pk]; [merge] says
    what becomes of the rows that carried its key. *)
Section Fold.
Import Engine.
Context (pk : list string) (step : table → gmap string value → table)
        (merge : list (gmap string value) → gmap string value → gmap string value).
Hypothesis step_key : ∀ tb r, t_key (step tb r) = t_key tb.
Hypothesis step_columns : ∀ tb r, t_columns (step tb r) = t_columns tb.
Hypothesis step_same : ∀ tb r,
  t_key tb = pk → keyed tb → VNone ∉ key_of pk r →
  with_key pk (key_of pk r) (t_rows (step tb r))
  = [merge (with_key pk (key_of pk r) (t_rows tb)) r].
Hypothesis step_other : ∀ tb r k,
  t_key tb = pk → VNone ∉ key_of pk r → k ≠ key_of pk r →
  with_key pk k (t_rows (step tb r)) = with_key pk k (t_rows tb).

Lemma step_keyed tb r :
  t_key tb = pk → keyed tb → VNone ∉ key_of pk r → keyed (step tb r).
Proof.
  intros Hpk Hkeyed Hr k Hk. rewrite step_key, Hpk.
  destruct (decide (k = key_of pk r)) as [->|Hne].
  - by rewrite step_same.
  - rewrite step_other by done. rewrite <- Hpk. by apply Hkeyed.
Qed.

Lemma fold_steps (rs : list (gmap string value)) (tb : table) :
  t_key tb = pk → keyed tb →
  Forall (λ r, VNone ∉ key_of pk r) rs → NoDup (key_of pk <$> rs) →
  let tb' := foldl step tb rs in
  t_key tb' = pk ∧ t_columns tb' = t_columns tb ∧ keyed tb'
  ∧ (∀ r, r ∈ rs →
       with_key pk (key_of pk r) (t_rows tb')
       = [merge (with_key pk (key_of pk r) (t_rows tb)) r])
  ∧ (∀ k, k ∉ key_of pk <$> rs → with_key pk k (t_rows tb') = with_key pk k (t_rows tb)).
Proof.
  revert tb. induction rs as [|r rs IH]; intros tb Hpk Hkeyed Hnn Hnd; cbn.
  { repeat split; try done. intros r Hr. by apply elem_of_nil in Hr. }
  apply Forall_cons in Hnn as [Hr Hnn]. cbn in Hnd. apply NoDup_cons in Hnd as [Hfresh Hnd].
  destruct (IH (step tb r)) as (Hk' & Hc' & Hkeyed' & Hsame & Hother);
    [by rewrite step_key | by apply step_keyed | done | done |].
  split; [done|]. split; [by rewrite Hc', step_columns|]. split; [done|]. split.
  - intros r' [->|Hin]%elem_of_cons.
    + rewrite Hother by done. by apply step_same.
    + rewrite Hsame by done. f_equal. f_equal. apply step_other; [done|done|].
      intros Heq. apply Hfresh. rewrite <- Heq. apply list_elem_of_fmap. eauto.
  - intros k Hk. rewrite Hother.
    + apply step_other; [done|done|]. intros ->. apply Hk. left.
    + intros Hin. apply Hk. by right.
Qed.

End Fold.

(** *** A statement applied to a batch of parameter rows *)
Section Exec.
Import Engine.
Context (s : statement) (t : string) (cols : list string)
        (step : table → gmap string value → table)
        (check : table → list value → Prop).
Hypothesis step_key : ∀ tb r, t_key (step tb r) = t_key tb.
Hypothesis step_columns : ∀ tb r, t_columns (step tb r) = t_columns tb.
Hypothesis check_schema : ∀ tb tb' vals,
  t_key tb' = t_key tb → t_columns tb' = t_columns tb → check tb vals → check tb' vals.
Hypothesis exec_row_step : ∀ d tb vals,
  d !! t = Some tb → check tb vals →
  exec_row s vals d = Some (<[t := step tb (incoming cols vals)]> d).

Lemma exec_many_fold (rows : list (list value)) (d : gmap string table) (tb : table) :
  d !! t = Some tb → Forall (check tb) rows →
  exec_many s rows d = (true, <[t := foldl step tb (incoming cols <$> rows)]> d).
Proof.
  revert d tb. induction rows as [|vals rows IH]; intros d tb Hd Hrows; cbn.
  { by rewrite insert_id. }
  apply Forall_cons in Hrows as [Hv Hrows].
  rewrite (exec_row_step d tb) by done.
  rewrite (IH _ (step tb (incoming cols vals))).
  - by rewrite insert_insert_eq.
  - by rewrite lookup_insert_eq.
  - eapply Forall_impl; [exact Hrows|]. intros vals' Hc.
    by apply (check_schema tb).
Qed.

Lemma exec_all_fold (rows : list (list value)) (d : gmap string table) (tb : table) :
  d !! t = Some tb → Forall (check tb) rows →
  exec_all s rows d = Some (<[t := foldl step tb (incoming cols <$> rows)]> d).
Proof.
  unfold exec_all.
  revert d tb. induction rows as [|vals rows IH]; intros d tb Hd Hrows; cbn.
  { by rewrite insert_id. }
  apply Forall_cons in Hrows as [Hv Hrows].
  rewrite (exec_row_step d tb) by done.
  rewrite (IH _ (step tb (incoming cols vals))).
  - by rewrite insert_insert_eq.
  - by rewrite lookup_insert_eq.
  - eapply Forall_impl; [exact Hrows|]. intros vals' Hc.
    by apply (check_schema tb).
Qed.

Hypothesis keys_of_page : ∀ d tb page,
  d !! t = Some tb →
  proposed_keys s page d = (λ vals, key_of (t_key tb) (incoming cols vals)) <$> page.

Lemma exec_pages_fold (fuel : nat) (rows : list (list value)) (d : gmap string table)
    (tb : table) :
  (length rows ≤ fuel)%nat →
  d !! t = Some tb → Forall (check tb) rows →
  NoDup ((λ vals, key_of (t_key tb) (incoming cols vals)) <$> rows) →
  exec_pages s (pages fuel rows) d
  = (true, <[t := foldl step tb (incoming cols <$> rows)]> d).
Proof.
  revert rows d tb. induction fuel as [|fuel IH]; intros rows d tb Hlen Hd Hrows Hnd.
  { destruct rows; [|cbn in Hlen; lia]. cbn. by rewrite insert_id. }
  destruct rows as [|vals rows]; [cbn; by rewrite insert_id|].
  set (all := vals :: rows) in *. cbn [pages].
  change (match all with [] => [] | _ :: _ => take 100 all :: pages fuel (drop 100 all) end)
    with (take 100 all :: pages fuel (drop 100 all)).
  cbn [exec_pages].
  assert (Hsplit : all = take 100 all ++ drop 100 all) by (by rewrite take_drop).
  assert (Hpage : Forall (check tb) (take 100 all)).
  { rewrite Hsplit in Hrows. by apply Forall_app in Hrows as [? _]. }
  assert (Hrest : Forall (check tb) (drop 100 all)).
  { rewrite Hsplit in Hrows. by apply Forall_app in Hrows as [_ ?]. }
  rewrite Hsplit, fmap_app in Hnd. apply NoDup_app in Hnd as (Hnd1 & _ & Hnd2).
  rewrite (keys_of_page d tb) by done.
  rewrite decide_True by done.
  rewrite (exec_all_fold _ d tb) by done.
  rewrite (IH _ _ (foldl step tb (incoming cols <$> take 100 all))).
  - rewrite insert_insert_eq. rewrite <- foldl_app, <- fmap_app, <- Hsplit. done.
  - rewrite length_drop. subst all. cbn in *. lia.
  - by rewrite lookup_insert_eq.
  - eapply Forall_impl; [exact Hrest|]. intros vals' Hc.
    apply (check_schema tb); [| |done].
    + clear -step_key. generalize (incoming cols <$> take 100 all). intros l.
      revert tb. induction l as [|x l IHl]; intros tb; cbn; [done|].
      by rewrite IHl, step_key.
    + clear -step_columns. generalize (incoming cols <$> take 100 all). intros l.
      revert tb. induction l as [|x l IHl]; intros tb; cbn; [done|].
      by rewrite IHl, step_columns.
  - assert (t_key (foldl step tb (incoming cols <$> take 100 all)) = t_key tb) as ->; [|done].
    clear -step_key. generalize (incoming cols <$> take 100 all). intros l.
    revert tb. induction l as [|x l IHl]; intros tb; cbn; [done|].
    by rewrite IHl, step_key.
Qed.

End Exec.

(** *** The batch seen by the engine *)
Section Batch.
Import Engine.
Context (df : DataFrame) (tb : table).
Hypothesis Hfits : fits df tb.
Hypothesis Hwf : well_formed tb.

Lemma labels_are_keys : index_labels df = primary_keys_of df.
Proof.
  destruct Hfits as (Hnames & _). unfold index_labels.
  remember (primary_keys_of df) as pks eqn:Epks. clear Epks.
  rewrite Hnames, imap_fmap.
  transitivity (imap (const id) pks); [by apply imap_ext|].
  by rewrite imap_const, list_fmap_id.
Qed.

Lemma length_labels : length (index_labels df) = length (index_names df).
Proof. unfold index_labels. apply length_imap. Qed.

Lemma batch_columns_nodup : NoDup (index_labels df ++ columns df).
Proof.
  destruct Hfits as (_ & _ & _ & [Hnd Hdis] & Hcols & _).
  apply NoDup_app. split; [done|]. split; [|done].
  intros c Hc. rewrite Forall_forall in Hdis. by apply Hdis.
Qed.

Lemma batch_columns_known : index_labels df ++ columns df ⊆ t_columns tb.
Proof.
  destruct Hfits as (_ & Hsub & _ & _ & _ & Hcols & _).
  destruct Hwf as (_ & Hkey & _).
  rewrite labels_are_keys. intros c [Hc|Hc]%elem_of_app.
  - apply Hkey, Hsub, Hc.
  - by apply Hcols.
Qed.

Lemma batch_row_shape r :
  r ∈ df_rows df →
  length r.1 = length (index_labels df) ∧ length r.2 = length (columns df)
  ∧ VNone ∉ r.1.
Proof.
  intros Hr. destruct Hfits as (_ & _ & _ & _ & _ & _ & _ & Hrows & _).
  rewrite Forall_forall in Hrows. destruct (Hrows r Hr) as (H1 & H2 & H3).
  by rewrite length_labels.
Qed.

Lemma batch_row_length r :
  r ∈ df_rows df → length (r.1 ++ r.2) = length (index_labels df ++ columns df).
Proof.
  intros Hr. destruct (batch_row_shape r Hr) as (H1 & H2 & _).
  by rewrite !length_app, H1, H2.
Qed.

Lemma cell_of_label r j c v :
  r ∈ df_rows df → index_labels df !! j = Some c → r.1 !! j = Some v →
  cell (proposed df r) c = v.
Proof.
  intros Hr Hc Hv. unfold proposed.
  apply (cell_incoming_in _ _ j); [apply batch_columns_nodup | by apply batch_row_length | |].
  - by apply lookup_app_l_Some.
  - by apply lookup_app_l_Some.
Qed.

Lemma cell_of_column r j c v :
  r ∈ df_rows df → columns df !! j = Some c → r.2 !! j = Some v →
  cell (proposed df r) c = v.
Proof.
  intros Hr Hc Hv. unfold proposed. destruct (batch_row_shape r Hr) as (H1 & H2 & _).
  apply (cell_incoming_in _ _ (length (index_labels df) + j));
    [apply batch_columns_nodup | by apply batch_row_length | |].
  - rewrite lookup_app_r by lia. by replace (_ + j - _)%nat with j by lia.
  - rewrite lookup_app_r by lia. by replace (_ + j - _)%nat with j by lia.
Qed.

Lemma key_columns_are_labels c : c ∈ t_key tb ↔ c ∈ index_labels df.
Proof.
  destruct Hfits as (_ & Hsub & Hsup & _). rewrite labels_are_keys.
  split; [apply Hsup | apply Hsub].
Qed.

Lemma data_columns_not_keys c : c ∈ columns df → c ∉ t_key tb.
Proof.
  intros Hc Hk. apply key_columns_are_labels in Hk.
  destruct Hfits as (_ & _ & _ & [_ Hdis] & _).
  rewrite Forall_forall in Hdis. by apply (Hdis c).
Qed.

Lemma batch_key_not_null r : r ∈ df_rows df → VNone ∉ key_of (t_key tb) (proposed df r).
Proof.
  intros Hr Hin. unfold key_of in Hin.
  apply list_elem_of_fmap in Hin as (c & Hnull & Hc).
  apply key_columns_are_labels in Hc.
  apply list_elem_of_lookup in Hc as [j Hj].
  destruct (batch_row_shape r Hr) as (H1 & _ & Hnn).
  destruct (r.1 !! j) as [v|] eqn:Ev.
  - rewrite (cell_of_label r j c v) in Hnull by done. subst v.
    apply Hnn. apply list_elem_of_lookup. eauto.
  - apply lookup_ge_None in Ev. apply lookup_lt_Some in Hj. lia.
Qed.

Lemma batch_key_inj r r' :
  r ∈ df_rows df → r' ∈ df_rows df →
  key_of (t_key tb) (proposed df r) = key_of (t_key tb) (proposed df r') → r.1 = r'.1.
Proof.
  intros Hr Hr' Hk.
  destruct (batch_row_shape r Hr) as (H1 & _ & _).
  destruct (batch_row_shape r' Hr') as (H1' & _ & _).
  apply list_eq. intros j.
  destruct (index_labels df !! j) as [c|] eqn:Ec.
  - assert (Hc : c ∈ t_key tb).
    { apply key_columns_are_labels. apply list_elem_of_lookup. eauto. }
    apply list_elem_of_lookup in Hc as [i Hi].
    assert (cell (proposed df r) c = cell (proposed df r') c) as Hcell.
    { unfold key_of in Hk.
      apply (f_equal (λ l, l !! i)) in Hk. rewrite !list_lookup_fmap, Hi in Hk.
      cbn in Hk. by injection Hk. }
    destruct (r.1 !! j) as [v|] eqn:Ev;
      [|apply lookup_ge_None in Ev; apply lookup_lt_Some in Ec; lia].
    destruct (r'.1 !! j) as [v'|] eqn:Ev';
      [|apply lookup_ge_None in Ev'; apply lookup_lt_Some in Ec; lia].
    rewrite (cell_of_label r j c v), (cell_of_label r' j c v') in Hcell by done.
    by subst.
  - apply lookup_ge_None in Ec.
    rewrite (proj2 (lookup_ge_None _ _)) by lia.
    rewrite (proj2 (lookup_ge_None _ _)) by lia. done.
Qed.

Lemma batch_keys_nodup :
  NoDup ((λ r, key_of (t_key tb) (proposed df r)) <$> df_rows df).
Proof.
  destruct Hfits as (_ & _ & _ & _ & _ & _ & _ & _ & Hnd).
  apply NoDup_fmap_2_strong; [|by apply NoDup_fmap_1 in Hnd].
  intros r r' Hr Hr' Hk. pose proof (batch_key_inj r r' Hr Hr' Hk) as Hfst.
  clear -Hnd Hr Hr' Hfst. revert Hnd Hr Hr'.
  induction (df_rows df) as [|x l IH]; intros Hnd Hr Hr'; [by apply elem_of_nil in Hr|].
  cbn in Hnd. apply NoDup_cons in Hnd as [Hx Hnd].
  apply elem_of_cons in Hr as [->|Hr]; apply elem_of_cons in Hr' as [->|Hr'].
  - done.
  - exfalso. apply Hx. rewrite Hfst. apply list_elem_of_fmap. eauto.
  - exfalso. apply Hx. rewrite <- Hfst. apply list_elem_of_fmap. eauto.
  - by apply IH.
Qed.

Lemma update_fields_are_data (K : list string) :
  K ⊆ t_key tb → t_key tb ⊆ K →
  filter (λ col, col ∉ K) (index_labels df ++ columns df) = columns df
  ∧ filter (λ col, col ∉ K) (columns df) = columns df.
Proof.
  intros Hsub Hsup.
  assert (Hdata : filter (λ col, col ∉ K) (columns df) = columns df).
  { apply filter_all. intros c Hc Hk. by apply (data_columns_not_keys c), Hsub. }
  split; [|done]. rewrite filter_app, Hdata, filter_none; [done|].
  intros c Hc Hk. apply Hk, Hsup. by apply key_columns_are_labels.
Qed.

Lemma data_columns_some : columns df ≠ [].
Proof.
  destruct Hfits as (_ & _ & _ & _ & _ & _ & Hne & _).
  unfold empty, columns in *. by destruct (df_columns df).
Qed.

End Batch.

Lemma fits_schema (df : DataFrame) (tb tb' : Engine.table) :
  Engine.t_key tb' = Engine.t_key tb → Engine.t_columns tb' = Engine.t_columns tb →
  fits df tb → fits df tb'.
Proof. unfold fits. intros -> ->. done. Qed.


(** * Further properties of the adapters *)

Section Behaviour.
Context `{Native}.

Arguments _load_cache : simpl never.
Arguments _save_cache : simpl never.
Arguments put_primary_key : simpl never.
Arguments put_not_null_columns : simpl never.
Arguments primary_key_rows : simpl never.
Arguments _get_primary_key : simpl never.
Arguments _get_not_null_columns : simpl never.
Arguments _create_table_from_dataframe : simpl never.

(** ** Running the driver calls on a connected object *)

Lemma cursor_run_run (a : adapter) (w : world) (s : store) (c : call)
    (q : statement) (p : list (list value)) :
  connection a = Some Open → server w = Some s →
  cursor_run c q p (State a w)
  = (if (run (kind a) c q p s).1 then Ok () else Raise NativeError,
     State a (World (files w) (Some (run (kind a) c q p s).2)
                    (calls w ++ [Statement c q p]) (console w))).
Proof.
  intros Hconn Hs. destruct a as [b ? ? ?], w as [fs ? cl co]; cbn in *; subst.
  unfold cursor_run. run. by destruct (run b c q p s).1.
Qed.

Lemma lookup_hits {A} (a : adapter) (w : world) (c : cache_t) (t : string)
    (pk : list string) (k : option (list string) → M state A) :
  cache a = Some c → c !! t ≫= primary_key = Some pk →
  bind (_get_primary_key t) k (State a w) = k (Some pk) (State a w).
Proof. intros Hc Hpk. unfold bind. by rewrite (get_primary_key_hit a w c t pk). Qed.

(** ** Clearing the cache *)

Lemma clear_cache_run (a : adapter) (w : world) (f : string) :
  cache_file a = Some f →
  clear_cache (State a w)
  = (Ok (), State (Adapter (kind a) (Some f) (Some ∅) (connection a))
                  (World (<[f := Pickled ∅]> (files w)) (server w) (calls w)
                         (console w ++ [CacheCleared]))).
Proof.
  intros Hf. destruct a as [b ? c h], w as [fs sv cl cn]; cbn in *; subst.
  unfold clear_cache, _save_cache. run. by rewrite insert_insert_eq.
Qed.

(** [clear_cache] on an object that has [cache_file]: it returns, the object
    holds the empty cache whatever it held before (also when [cache] was never
    set), the cache file is rewritten with the empty cache, one line is
    printed, and a load from that file by any adapter gives the empty cache.
    On an object without [cache_file] it raises [AttributeError] after
    [self.cache] has been reset, and writes and prints nothing. *)
Theorem clear_cache_resets (a : adapter) (w : world) :
  match cache_file a with
  | Some f =>
      let st' := State (Adapter (kind a) (Some f) (Some ∅) (connection a))
                       (World (<[f := Pickled ∅]> (files w)) (server w) (calls w)
                              (console w ++ [CacheCleared])) in
      clear_cache (State a w) = (Ok (), st')
      ∧ ∀ a', cache_file a' = Some f →
          _load_cache (State a' (env st')) = (Ok ∅, State a' (env st'))
  | None =>
      clear_cache (State a w)
      = (Raise AttributeError, State (Adapter (kind a) None (Some ∅) (connection a)) w)
  end.
Proof.
  destruct (cache_file a) as [f|] eqn:Ef.
  - split; [by apply clear_cache_run|].
    intros a' Hf. rewrite (load_cache_run _ f) by done. cbn.
    by rewrite lookup_insert_eq.
  - destruct a as [b ? c h], w as [fs sv cl cn]; cbn in *; subst.
    unfold clear_cache, _save_cache. by run.
Qed.

(** After [clear_cache], a lookup of the primary key no longer answers from
    what the cache held: it asks the catalog, returns the columns found there,
    and the cache in memory and on file holds exactly that one entry. *)
Theorem lookup_after_clear_cache (a : adapter) (w : world) (f : string) (s : store)
    (t : string) (cols : list string) :
  cache_file a = Some f → connection a = Some Open → server w = Some s →
  primary_key_rows (kind a) t s = Some cols →
  let r := _get_primary_key t (clear_cache (State a w)).2 in
  r.1 = Ok (Some cols)
  ∧ cache (self r.2) = Some (<[t := TableMeta (Some cols) None]> ∅)
  ∧ files (env r.2) !! f = Some (Pickled (<[t := TableMeta (Some cols) None]> ∅))
  ∧ calls (env r.2) = calls w ++ [PrimaryKeyQuery (kind a) t].
Proof.
  intros Hf Hconn Hs Hrows.
  rewrite (clear_cache_run a w f) by done. cbn [snd].
  erewrite (get_primary_key_found _ _ f ∅ s t cols); cbn; try done.
  rewrite lookup_empty. cbn. by rewrite lookup_insert_eq.
Qed.

(** ** Lookups that fail *)

(** A lookup of the primary key whose discovery fails (the object has no
    connection, the connection is closed or unreachable, or the catalog
    statement raises) returns [None] instead of raising, prints one line, and
    caches nothing: object and files are as before, so the next lookup asks
    the catalog again. *)
Theorem failed_lookup_is_not_cached (a : adapter) (w : world) (c : cache_t) (t : string) :
  cache a = Some c → c !! t ≫= primary_key = None →
  (∀ s, connection a = Some Open → server w = Some s →
        primary_key_rows (kind a) t s = None) →
  _get_primary_key t (State a w)
  = (Ok None,
     State a (World (files w) (server w)
                (match connection a with
                 | Some _ => calls w ++ [PrimaryKeyQuery (kind a) t]
                 | None => calls w
                 end)
                (console w ++ [PrimaryKeyUnknown]))).
Proof.
  intros Hc Hmiss Hfail.
  destruct a as [b cf ca h], w as [fs sv cl cn]; cbn in *; subst.
  unfold _get_primary_key. run. rewrite Hmiss. unfold fetch_primary_key. run.
  destruct h as [[|]|]; [|done|done]. run.
  destruct sv as [s|]; [|done]. run.
  by rewrite (Hfail s).
Qed.

(** [_get_not_null_columns]: a cached list is returned with no call to the
    driver and no change of state; otherwise the catalog is asked once, the
    answer is stored under the table beside the primary key already recorded
    there and the cache file is rewritten; when the discovery fails, the
    answer is the empty list, one line is printed and nothing is cached. *)
Theorem not_null_columns_lookup (a : adapter) (w : world) (f : string) (c : cache_t)
    (t : string) :
  cache_file a = Some f → cache a = Some c →
  (∀ cols, c !! t ≫= not_null_columns = Some cols →
     _get_not_null_columns t (State a w) = (Ok cols, State a w))
  ∧ (∀ s rows,
       c !! t ≫= not_null_columns = None →
       connection a = Some Open → server w = Some s →
       not_null_query t s = Some rows →
       let c' := <[t := TableMeta (primary_key (default (TableMeta None None) (c !! t)))
                          (Some rows)]> c in
       _get_not_null_columns t (State a w)
       = (Ok rows,
          State (Adapter (kind a) (Some f) (Some c') (Some Open))
                (World (<[f := Pickled c']> (files w)) (Some s)
                       (calls w ++ [NotNullQuery t]) (console w)))
       ∧ c' !! t ≫= primary_key = c !! t ≫= primary_key
       ∧ c' !! t ≫= not_null_columns = Some rows)
  ∧ (c !! t ≫= not_null_columns = None →
     (∀ s, connection a = Some Open → server w = Some s → not_null_query t s = None) →
     _get_not_null_columns t (State a w)
     = (Ok [],
        State a (World (files w) (server w)
                   (match connection a with
                    | Some _ => calls w ++ [NotNullQuery t]
                    | None => calls w
                    end)
                   (console w ++ [NotNullUnknown])))).
Proof.
  intros Hf Hc. split; [|split].
  - intros cols Hhit. unfold _get_not_null_columns. run. rewrite Hc. cbn.
    by rewrite Hhit.
  - intros s rows Hmiss Hconn Hs Hrows c'. split; [|split].
    + destruct a as [b ? ? ?], w as [fs ? cl cn]; cbn in *; subst.
      unfold _get_not_null_columns. run. rewrite Hmiss.
      unfold fetch_not_null_columns. run. rewrite Hrows. run.
      erewrite (put_not_null_columns_run _ _ f c) by done. reflexivity.
    + subst c'. rewrite lookup_insert_eq. cbn. by destruct (c !! t).
    + subst c'. by rewrite lookup_insert_eq.
  - intros Hmiss Hfail.
    destruct a as [b cf ca h], w as [fs sv cl cn]; cbn in *; subst.
    unfold _get_not_null_columns. run. rewrite Hmiss. unfold fetch_not_null_columns. run.
    destruct h as [[|]|]; [|done|done]. run.
    destruct sv as [s|]; [|done]. run.
    by rewrite (Hfail s).
Qed.

(** ** Upserts without data *)

(** An empty frame (no column or no row), an empty dict, or a value that is
    neither: [upsert] prints one line and does nothing else, on any object,
    also one that has no cache or no connection; no lookup, no table creation,
    no call to the driver. *)
Theorem upsert_without_data (t : string) (d : data) (st : state) :
  match d with
  | Frame df => empty df = true
  | Dict data => data = []
  | Other => True
  end →
  upsert t d st
  = (Ok (),
     State (self st)
           (World (files (env st)) (server (env st)) (calls (env st))
                  (console (env st)
                     ++ [match d with Other => UnsupportedData | _ => NoData end]))).
Proof.
  intros Hd. destruct st as [[b cf ca h] [fs sv cl cn]].
  destruct d as [df|data|]; cbn in *.
  - unfold upsert_from_dataframe, SQLiteDB_upsert_from_dataframe,
      DuckDB_upsert_from_dataframe, PostgresDB_upsert_from_dataframe.
    run. destruct b; by rewrite Hd.
  - subst. unfold upsert_from_dict. run. by destruct b.
  - done.
Qed.

(** ** Free commands *)

(** [execute] never raises.  It hands the command to the driver when the
    object has a connection and prints one line that tells whether the driver
    accepted the command; without a connection no call is made and the failure
    line is printed.  Object and files are untouched. *)
Theorem execute_reports (command : string) (a : adapter) (w : world) :
  let q := Statement Execute (Command command) [] in
  execute command (State a w)
  = (Ok (),
     State a
       match connection a, server w with
       | Some Open, Some s =>
           let d := run (kind a) Execute (Command command) [] s in
           World (files w) (Some d.2) (calls w ++ [q])
                 (console w ++ [if d.1 then CommandDone command else CommandFailed command])
       | Some _, _ =>
           World (files w) (server w) (calls w ++ [q]) (console w ++ [CommandFailed command])
       | None, _ =>
           World (files w) (server w) (calls w) (console w ++ [CommandFailed command])
       end).
Proof.
  destruct a as [b cf ca h], w as [fs sv cl cn]. cbv zeta.
  unfold execute. unfold bind at 1, class_of_self. cbn [self kind].
  destruct h as [[|]|]; [destruct sv as [s|]| |].
  - unfold try_except, bind at 1.
    rewrite (cursor_run_run _ _ s) by done. cbn [kind files calls console connection server].
    destruct (run b Execute (Command command) [] s) as [[|] s'] eqn:E; cbn [fst snd].
    + destruct b; by run.
    + by run.
  - unfold cursor_run. by run.
  - unfold cursor_run. by run.
  - unfold cursor_run. by run.
Qed.

(** ** Queries *)

(** [query] hands the text to the driver before it looks at [return_type]:
    with a shape other than ['pandas'] and ['dict'] the answer is [None] and
    one line is printed whatever the driver answered, yet the statement has
    run and the database is as the engine left it. *)
Theorem query_runs_before_it_validates (a : adapter) (w : world) (s : store)
    (q rt : string) :
  connection a = Some Open → server w = Some s →
  rt ≠ "pandas" → rt ≠ "dict" →
  query q rt (State a w)
  = (Ok None,
     State a (World (files w) (Some (select (kind a) q s).1) (calls w ++ [Query q])
                    (console w ++ [QueryFailed]))).
Proof.
  intros Hconn Hs H1 H2. unfold query, try_except, bind at 1.
  rewrite (cursor_select_run a w s) by done.
  destruct (select (kind a) q s) as [s1 [[[cols|] rows]|]]; cbn; try done.
  by rewrite !decide_False by done.
Qed.

Lemma list_to_map_app_first {A} (l1 l2 : list (string * A)) (k : string) (v : A) :
  k ∉ l1.*1 → (list_to_map (l1 ++ (k, v) :: l2) : gmap string A) !! k = Some v.
Proof.
  induction l1 as [|[k' v'] l1 IH]; intros Hk; cbn.
  - by rewrite lookup_insert_eq.
  - rewrite lookup_insert_ne by (intros ->; apply Hk; left).
    apply IH. intros Hin. apply Hk. by right.
Qed.

Lemma dict_of_row_last (cols : list string) (row : list value) (j : nat) (c : string)
    (v : value) :
  cols !! j = Some c → row !! j = Some v →
  (∀ j', (j < j')%nat → (j' < length row)%nat → cols !! j' ≠ Some c) →
  dict_of_row cols row !! c = Some v.
Proof.
  intros Hc Hv Hlast. unfold dict_of_row.
  assert (Hz : zip cols row !! j = Some (c, v)).
  { rewrite lookup_zip_with, Hc. cbn. by rewrite Hv. }
  rewrite <- (take_drop_middle _ _ _ Hz), reverse_app, reverse_cons, <- app_assoc. cbn.
  apply list_to_map_app_first.
  rewrite fmap_reverse, elem_of_reverse. intros Hin.
  apply list_elem_of_fmap in Hin as ([c' v'] & -> & Hin). cbn in *.
  apply list_elem_of_lookup in Hin as [i Hi]. rewrite lookup_drop in Hi.
  rewrite lookup_zip_with in Hi.
  destruct (cols !! (S j + i)%nat) as [c''|] eqn:Ec,
           (row !! (S j + i)%nat) as [v''|] eqn:Ev; cbn in Hi; try done.
  injection Hi as -> ->.
  apply (Hlast (S j + i)%nat); [lia | by eapply lookup_lt_Some | done].
Qed.

(** With the ['dict'] shape, a query that the engine answers returns one
    mapping for every fetched row, in order; a mapping gives for a column name
    the value that the row has at the last position carrying that name. *)
Theorem query_dict_shape (a : adapter) (w : world) (s s' : store) (q : string)
    (cols : list string) (rows : list (list value)) :
  connection a = Some Open → server w = Some s →
  select (kind a) q s = (s', Some (Some cols, rows)) →
  ∃ ms, (query q "dict" (State a w)).1 = Ok (Some (Mappings ms))
    ∧ length ms = length rows
    ∧ ∀ i row j c v,
        rows !! i = Some row → cols !! j = Some c → row !! j = Some v →
        (∀ j', (j < j')%nat → (j' < length row)%nat → cols !! j' ≠ Some c) →
        ms !! i ≫= (.!! c) = Some v.
Proof.
  intros Hconn Hs Hans. exists (dict_of_row cols <$> rows). split; [|split].
  - unfold query, try_except, bind at 1.
    rewrite (cursor_select_run a w s) by done. rewrite Hans. reflexivity.
  - by rewrite length_fmap.
  - intros i row j c v Hrow Hc Hv Hlast.
    rewrite list_lookup_fmap, Hrow. cbn. by apply (dict_of_row_last _ _ j).
Qed.

(** ** Objects without an open connection *)

Ltac reads :=
  apply keeps_reads; [apply _ | intros [[] []];
    unfold attr, class_of_self, path_exists, pickle_load, toml_load, open_store;
    cbn; repeat case_match; reflexivity].

Ltac keeps_step :=
  first
    [ solve [eauto]
    | lazymatch goal with
      | |- keeps _ (ret _) => apply keeps_ret; apply _
      | |- keeps _ (raise _) => apply keeps_raise; apply _
      | |- keeps _ (bind _ _) => apply keeps_bind; [apply _ | | intros ?]
      | |- keeps _ (try_except _ _) => apply keeps_try; [apply _ | | ]
      | |- keeps _ (attr _) => reads
      | |- keeps _ class_of_self => reads
      | |- keeps _ (path_exists _) => reads
      | |- keeps _ (pickle_load _) => reads
      | |- keeps _ (toml_load _) => reads
      | |- keeps _ open_store => reads
      | |- keeps _ (let _ := _ in _) => cbv zeta
      | |- keeps _ (if ?b then _ else _) => destruct b
      | |- keeps _ (match ?x with _ => _ end) => destruct x
      | |- keeps _ (λ st, (_, st)) => apply keeps_pure; apply _
      end ].

Ltac keeps_go := repeat keeps_step.

#[local] Instance stays_idle_preorder : PreOrder stays_idle.
Proof.
  split.
  - by intros st Hi.
  - intros st1 st2 st3 H12 H23 Hi.
    destruct (H12 Hi) as [Hi2 Hs2]. destruct (H23 Hi2) as [Hi3 Hs3].
    split; [done|congruence].
Qed.

Ltac idle_frame :=
  intros [[? ? ? ?] [? ? ? ?]] ?; unfold idle in *; cbn in *; done.

Lemma cursor_run_idle c q p : keeps stays_idle (cursor_run c q p).
Proof.
  intros [[b cf ca [[|]|]] [fs sv cl cn]] Hi; unfold idle in *; cbn in *; try done;
    unfold cursor_run; by run.
Qed.

Lemma cursor_select_idle q : keeps stays_idle (cursor_select q).
Proof.
  intros [[b cf ca [[|]|]] [fs sv cl cn]] Hi; unfold idle in *; cbn in *; try done;
    unfold cursor_select; by run.
Qed.

Lemma get_primary_key_idle t : keeps stays_idle (_get_primary_key t).
Proof.
  assert (∀ e, is_statement e = false → keeps stays_idle (record e)) by (intros; idle_frame).
  assert (∀ p f, keeps stays_idle (write_file p f)) by (intros; idle_frame).
  assert (∀ c, keeps stays_idle (set_cache c)) by (intros; idle_frame).
  assert (∀ r, keeps stays_idle (print r)) by (intros; idle_frame).
  pose proof (fetch_primary_key_kept stays_idle).
  pose proof (save_cache_kept stays_idle).
  unfold _get_primary_key, put_primary_key. keeps_go.
Qed.

Lemma get_not_null_columns_idle t : keeps stays_idle (_get_not_null_columns t).
Proof.
  assert (∀ e, keeps stays_idle (record e)) by (intros; idle_frame).
  assert (∀ p f, keeps stays_idle (write_file p f)) by (intros; idle_frame).
  assert (∀ c, keeps stays_idle (set_cache c)) by (intros; idle_frame).
  assert (∀ r, keeps stays_idle (print r)) by (intros; idle_frame).
  pose proof (save_cache_kept stays_idle).
  unfold _get_not_null_columns, fetch_not_null_columns, put_not_null_columns. keeps_go.
Qed.

Lemma perform_idle o : own o → keeps stays_idle (λ st, (Ok (), perform o st)).
Proof.
  assert (Hprint : ∀ r, keeps stays_idle (print r)) by (intros; idle_frame).
  intros Ho st. destruct o; cbn; try done.
  - apply (upsert_kept stays_idle); auto using get_primary_key_idle, cursor_run_idle.
  - pose proof cursor_select_idle. revert st.
    change (keeps stays_idle (query q return_type)).
    unfold query, DataFrame_of_rows. keeps_go.
  - apply (execute_kept stays_idle); auto using cursor_run_idle.
  - assert (keeps stays_idle (set_connection Closed)) by idle_frame.
    revert st. change (keeps stays_idle close). unfold close. keeps_go.
  - apply get_primary_key_idle.
  - apply get_not_null_columns_idle.
Qed.

Lemma perform_all_idle ops st :
  Forall own ops → stays_idle st (perform_all ops st).
Proof.
  revert st. induction ops as [|o ops IH]; intros st Hops; cbn; [reflexivity|].
  apply Forall_cons in Hops as [Ho Hops].
  etransitivity; [apply (perform_idle o Ho st) | by apply IH].
Qed.

(** An object that has no open connection (it never connected, or it was
    closed) never changes the database: whatever sequence of upserts, queries,
    commands, closes and lookups it is asked to perform, the store is as it
    was and the object is still without an open connection; the same holds
    for a [clear_cache] that follows. *)
Theorem idle_adapter_never_writes (ops : list operation) (st : state) :
  idle st → Forall own ops →
  let st' := perform_all ops st in
  idle st' ∧ server (env st') = server (env st)
  ∧ idle (clear_cache st').2 ∧ server (env (clear_cache st').2) = server (env st).
Proof.
  intros Hi Hops st'. destruct (perform_all_idle ops st Hops Hi) as [Hi' Hs'].
  split; [done|]. split; [done|].
  assert (Hclear : keeps stays_idle clear_cache).
  { assert (∀ p f, keeps stays_idle (write_file p f)) by (intros; idle_frame).
    assert (∀ c, keeps stays_idle (set_cache c)) by (intros; idle_frame).
    assert (∀ r, keeps stays_idle (print r)) by (intros; idle_frame).
    pose proof (save_cache_kept stays_idle).
    unfold clear_cache. keeps_go. }
  destruct (Hclear st' Hi') as [Hi2 Hs2]. split; [done|]. by rewrite Hs2.
Qed.

(** [close] on an object whose connection is open marks it closed and prints
    one line.  The closed object still counts as available, for the adapter
    and for the facade, and nothing is printed by the test; a query on it
    hands its text to the driver, fails there and returns [None].  A second
    [close] raises on SQLite, before anything is printed; on DuckDB and
    PostgreSQL it returns and prints the line again. *)
Theorem closed_adapter_still_available (a : adapter) (w : world) (q rt : string) :
  connection a = Some Open →
  let a' := Adapter (kind a) (cache_file a) (cache a) (Some Closed) in
  let w' := World (files w) (server w) (calls w) (console w ++ [ConnectionClosed]) in
  close (State a w) = (Ok (), State a' w')
  ∧ is_db_available (State a' w') = (Ok true, State a' w')
  ∧ DatabaseManager_is_db_available (Manager (Some a'), w') = (Ok true, (Manager (Some a'), w'))
  ∧ query q rt (State a' w')
    = (Ok None,
       State a' (World (files w) (server w) (calls w ++ [Query q])
                       (console w ++ [ConnectionClosed; QueryFailed])))
  ∧ close (State a' w')
    = match kind a with
      | Sqlite => (Raise NativeError, State a' w')
      | Duck | Postgres =>
          (Ok (), State a' (World (files w) (server w) (calls w)
                              (console w ++ [ConnectionClosed; ConnectionClosed])))
      end.
Proof.
  intros Hconn. destruct a as [b cf ca co], w as [fs sv cl cn]; cbn in *; subst.
  split; [by destruct b|]. split; [done|]. split; [done|]. split.
  - unfold query, cursor_select. run. by rewrite <- app_assoc.
  - unfold close. destruct b; run; by rewrite <- ?app_assoc.
Qed.

(** ** The facade *)

Lemma execute_returns command st : (execute command st).1 = Ok ().
Proof.
  unfold execute, bind at 1, class_of_self, try_except. cbn.
  match goal with |- context [match ?m st with _ => _ end] =>
    destruct (m st) as [[[]|e] st'] end; reflexivity.
Qed.

(** Through the facade, [query] and [execute] never raise, whatever state the
    adapter is in; [query] answers what the adapter's [query] answers.  A
    facade without [db] prints the unavailability line and does nothing
    else. *)
Theorem facade_query_and_execute_return (fw : DatabaseManager * world)
    (q rt command : string) (t : string) (d : data) :
  (∃ r, (DatabaseManager_query q rt fw).1 = Ok r)
  ∧ (DatabaseManager_execute command fw).1 = Ok ()
  ∧ (∀ a, db fw.1 = Some a →
       (DatabaseManager_query q rt fw).1 = (query q rt (State a fw.2)).1)
  ∧ (db fw.1 = None →
       DatabaseManager_query q rt fw = (Ok None, (fw.1, console_add Unavailable fw.2))
       ∧ DatabaseManager_execute command fw = (Ok (), (fw.1, console_add Unavailable fw.2))
       ∧ DatabaseManager_upsert t d fw = (Ok (), (fw.1, console_add Unavailable fw.2))).
Proof.
  destruct fw as [[[a|]] w]; cbn.
  - destruct (query_returns q rt (State a w)) as [r Hr].
    pose proof (execute_returns command (State a w)) as He.
    split; [|split; [|split]].
    + exists r. unfold DatabaseManager_query, bind, DatabaseManager_is_db_available, on_db.
      by cbn.
    + unfold DatabaseManager_execute, bind, DatabaseManager_is_db_available, on_db.
      by cbn.
    + by intros a' [= <-].
    + done.
  - split; [by eexists|]. split; [done|]. split; [done|]. by intros _.
Qed.

(** ** Construction on a reachable database *)

Lemma construct_connected (b : backend) (arg : string) (w : world)
    (s : store) (c : cache_t) :
  server w = Some s →
  files w !! cache_file_name = Some (Pickled c) →
  (b = Postgres → files w !! arg = Some Config) →
  construct b arg w
  = (Ok (Adapter b (Some cache_file_name) (Some c) (Some Open)),
     World (match b with
            | Sqlite =>
                if bool_decide (is_Some (files w !! arg)) then files w
                else <[arg := Blob]> (files w)
            | Duck | Postgres => files w
            end)
           (Some s) (calls w ++ [Connect b arg])
           (match b, redis_ping arg with
            | Postgres, Some false => console w ++ [RedisFailed]
            | _, _ => console w
            end)).
Proof.
  intros Hs Hfile Hconf.
  assert (Hload : ∀ a' w1, cache_file a' = Some cache_file_name →
            files w1 !! cache_file_name = Some (Pickled c) →
            _load_cache (State a' w1) = (Ok c, State a' w1)).
  { intros a' w1 Ha' Hw1. rewrite (load_cache_run _ cache_file_name) by done.
    cbn. by rewrite Hw1. }
  destruct w as [fs sv cl cn]; cbn in *; subst. destruct b.
  - unfold construct, SQLiteDB__init__. run.
    destruct (bool_decide (is_Some (fs !! arg))) eqn:E.
    + run. rewrite Hload by done. by run.
    + apply bool_decide_eq_false in E.
      assert (arg ≠ cache_file_name) by (intros ->; apply E; rewrite Hfile; eauto).
      run. rewrite Hload; [by run | done |].
      cbn. by rewrite lookup_insert_ne.
  - unfold construct, DuckDB__init__. run. rewrite Hload by done. by run.
  - unfold construct, PostgresDB__init__. run. rewrite Hconf by done. run.
    rewrite Hload by done. run. by destruct (redis_ping arg) as [[|]|].
Qed.

(** When the driver connects and the cache file holds a pickled cache, each
    constructor returns an object that holds that cache and an open
    connection after exactly one call to the driver (the connect); the
    database file of the SQLite constructor exists afterwards; nothing is
    printed, except for the line of the PostgreSQL constructor when the
    configured Redis client cannot be built or reached.  A key that the file
    records for a table is then answered without any call to the catalog. *)
Theorem construction_loads_persisted_cache (b : backend) (arg : string) (w : world)
    (s : store) (c : cache_t) :
  server w = Some s →
  files w !! cache_file_name = Some (Pickled c) →
  (b = Postgres → files w !! arg = Some Config) →
  let a := Adapter b (Some cache_file_name) (Some c) (Some Open) in
  let r := construct b arg w in
  r.1 = Ok a
  ∧ calls r.2 = calls w ++ [Connect b arg]
  ∧ server r.2 = Some s
  ∧ (b = Sqlite → is_Some (files r.2 !! arg))
  ∧ console r.2 = match b, redis_ping arg with
                  | Postgres, Some false => console w ++ [RedisFailed]
                  | _, _ => console w
                  end
  ∧ ∀ t pk, c !! t ≫= primary_key = Some pk →
      _get_primary_key t (State a r.2) = (Ok (Some pk), State a r.2).
Proof.
  intros Hs Hfile Hconf a r. subst r.
  rewrite (construct_connected b arg w s c) by done. cbn [fst snd calls server console files].
  split; [done|]. split; [done|]. split; [done|]. split; [|split; [done|]].
  - intros ->. case_bool_decide; [done|]. rewrite lookup_insert_eq. eauto.
  - intros t pk Hpk. by apply (get_primary_key_hit a _ c).
Qed.

(** ** Upserts into a table whose key is cached *)

(** The batch upsert when the key of the table is cached. *)
Lemma keyed_batch_upsert_run (a : adapter) (w : world) (c : cache_t)
    (s : store) (t : string) (df : DataFrame) (K : list string) :
  cache a = Some c → c !! t ≫= primary_key = Some K → K ≠ [] →
  connection a = Some Open → server w = Some s →
  empty df = false → reset_index_ok df →
  let fields := index_labels df ++ columns df in
  let rows := reset_index_rows df in
  let how := match kind a with Sqlite | Duck => ExecuteMany | Postgres => ExecuteValues end in
  let q :=
    match kind a with
    | Sqlite => InsertOrReplace t fields
    | Duck =>
        InsertOnConflict DuckSyntax t fields K (filter (λ col, col ∉ K) fields)
    | Postgres =>
        InsertOnConflict PgValues t fields K (filter (λ col, col ∉ K) (columns df))
    end in
  let d := run (kind a) how q rows s in
  upsert t (Frame df) (State a w)
  = (Ok (),
     State a (World (files w) (Some d.2) (calls w ++ [Statement how q rows])
                    (console w ++ [if d.1 then BatchInserted t else BatchFailed t]))).
Proof.
  intros Hc Hpk HK Hconn Hs Hempty Hreset. cbv zeta.
  destruct K as [|k K']; [done|].
  assert (Hcols : reset_index_columns df = Ok (index_labels df ++ columns df))
    by (unfold reset_index_columns; by rewrite decide_True).
  assert (Hvals : reset_index_values df = Ok (reset_index_rows df))
    by (unfold reset_index_values; by rewrite decide_True).
  destruct a as [b cf ca co], w as [fs sv cl cn]; cbn [kind cache connection server files
    calls console] in *; subst.
  unfold upsert, upsert_from_dataframe. unfold bind at 1, class_of_self. cbn [self kind].
  destruct b.
  - unfold SQLiteDB_upsert_from_dataframe. rewrite Hempty.
    rewrite (lookup_hits _ _ c t (k :: K')) by done. cbn [falsy].
    unfold bind at 1, ret. unfold bind at 1. rewrite Hcols.
    unfold bind at 1. rewrite Hvals.
    unfold try_except, bind at 1. rewrite (cursor_run_run _ _ s) by done.
    cbn [kind files calls console].
    destruct (run Sqlite ExecuteMany _ _ s) as [[|] s']; cbn [fst snd]; by run.
  - unfold DuckDB_upsert_from_dataframe. rewrite Hempty.
    rewrite (lookup_hits _ _ c t (k :: K')) by done. cbn [falsy].
    unfold bind at 1, ret. unfold bind at 1. rewrite Hcols.
    unfold bind at 1. rewrite Hvals.
    rewrite (lookup_hits _ _ c t (k :: K')) by done. cbn [falsy keys_of default].
    unfold try_except, bind at 1. rewrite (cursor_run_run _ _ s) by done.
    cbn [kind files calls console].
    destruct (run Duck ExecuteMany _ _ s) as [[|] s']; cbn [fst snd]; by run.
  - unfold PostgresDB_upsert_from_dataframe. rewrite Hempty.
    rewrite (lookup_hits _ _ c t (k :: K')) by done. cbn [falsy].
    unfold bind at 1, ret. unfold bind at 1. rewrite Hvals.
    rewrite (lookup_hits _ _ c t (k :: K')) by done. cbn [falsy keys_of default].
    unfold bind at 1. rewrite Hcols.
    unfold try_except, bind at 1. rewrite (cursor_run_run _ _ s) by done.
    cbn [kind files calls console].
    destruct (run Postgres ExecuteValues _ _ s) as [[|] s']; cbn [fst snd]; by run.
Qed.

(** With a non-empty key cached for the table, a batch upsert on a connected
    object asks the catalog nothing, creates nothing and hands exactly one
    statement to the driver: on SQLite the [INSERT OR REPLACE] over the index
    labels followed by the data columns; on DuckDB and PostgreSQL the
    [INSERT ... ON CONFLICT] over the same fields, with the cached key as the
    conflict target and, as update list, the fields (DuckDB) or the data
    columns (PostgreSQL) outside the key.  The parameters are the rows of
    [df.reset_index().values.tolist()]: index values first, and every integer
    turned into a float when index levels and columns have a floating-point
    common dtype.  The upsert returns, the object is untouched, and the line
    printed tells whether the driver accepted the statement. *)
Theorem keyed_batch_upsert_is_one_call (a : adapter) (w : world) (c : cache_t)
    (s : store) (t : string) (df : DataFrame) (K : list string) :
  cache a = Some c → c !! t ≫= primary_key = Some K → K ≠ [] →
  connection a = Some Open → server w = Some s →
  empty df = false → reset_index_ok df →
  let fields := index_labels df ++ columns df in
  let rows := reset_index_rows df in
  let how := match kind a with Sqlite | Duck => ExecuteMany | Postgres => ExecuteValues end in
  let q :=
    match kind a with
    | Sqlite => InsertOrReplace t fields
    | Duck =>
        InsertOnConflict DuckSyntax t fields K (filter (λ col, col ∉ K) fields)
    | Postgres =>
        InsertOnConflict PgValues t fields K (filter (λ col, col ∉ K) (columns df))
    end in
  let d := run (kind a) how q rows s in
  upsert t (Frame df) (State a w)
  = (Ok (),
     State a (World (files w) (Some d.2) (calls w ++ [Statement how q rows])
                    (console w ++ [if d.1 then BatchInserted t else BatchFailed t]))).
Proof. exact (keyed_batch_upsert_run a w c s t df K). Qed.

(** The same for a dict: one statement, executed once with the dict's values
    as its only parameter row, the dict's keys as fields. *)
Theorem keyed_dict_upsert_is_one_call (a : adapter) (w : world) (c : cache_t)
    (s : store) (t : string) (data : list (string * value)) (K : list string) :
  cache a = Some c → c !! t ≫= primary_key = Some K → K ≠ [] →
  connection a = Some Open → server w = Some s →
  data ≠ [] →
  let q :=
    match kind a with
    | Sqlite => InsertOrReplace t data.*1
    | Duck =>
        InsertOnConflict DuckSyntax t data.*1 K (filter (λ col, col ∉ K) data.*1)
    | Postgres =>
        InsertOnConflict PgPlaceholders t data.*1 K (filter (λ col, col ∉ K) data.*1)
    end in
  let d := run (kind a) Execute q [data.*2] s in
  upsert t (Dict data) (State a w)
  = (Ok (),
     State a (World (files w) (Some d.2) (calls w ++ [Statement Execute q [data.*2]])
                    (console w ++ [if d.1 then RowInserted t else RowFailed t]))).
Proof.
  intros Hc Hpk HK Hconn Hs Hdata. cbv zeta.
  destruct K as [|k K']; [done|]. destruct data as [|kv data]; [done|].
  destruct a as [b cf ca co], w as [fs sv cl cn]; cbn [kind cache connection server files
    calls console] in *; subst.
  unfold upsert, upsert_from_dict. unfold bind at 1, class_of_self. cbn [self kind].
  destruct b.
  - unfold SQLiteDB_upsert_from_dict. cbv zeta.
    rewrite (lookup_hits _ _ c t (k :: K')) by done. cbn [falsy].
    unfold bind at 1, ret.
    unfold try_except, bind at 1. rewrite (cursor_run_run _ _ s) by done.
    cbn [kind files calls console].
    destruct (run Sqlite Execute _ _ s) as [[|] s']; cbn [fst snd]; by run.
  - unfold DuckDB_upsert_from_dict. cbv zeta.
    rewrite (lookup_hits _ _ c t (k :: K')) by done. cbn [falsy].
    unfold bind at 1, ret.
    rewrite (lookup_hits _ _ c t (k :: K')) by done. cbn [falsy keys_of default].
    unfold try_except, bind at 1. rewrite (cursor_run_run _ _ s) by done.
    cbn [kind files calls console].
    destruct (run Duck Execute _ _ s) as [[|] s']; cbn [fst snd]; by run.
  - unfold PostgresDB_upsert_from_dict. cbv zeta.
    rewrite (lookup_hits _ _ c t (k :: K')) by done. cbn [falsy].
    unfold bind at 1, ret.
    rewrite (lookup_hits _ _ c t (k :: K')) by done. cbn [falsy keys_of default].
    unfold try_except, bind at 1. rewrite (cursor_run_run _ _ s) by done.
    cbn [kind files calls console].
    destruct (run Postgres Execute _ _ s) as [[|] s']; cbn [fst snd]; by run.
Qed.

(** ** Table creation reports, it does not raise *)

(** [_create_table_from_dataframe] raises only when two data columns share a
    label ([AttributeError], before anything else happens).  Otherwise it
    returns: without a named index level it prints its refusal and makes no
    call; with one it hands its statement to the driver when the object has a
    connection and prints whether the table was created, a statement that the
    driver rejects (the table exists already, say) being only reported.
    Object and files stay as they are. *)
Theorem create_table_reports (t : string) (df : DataFrame) (a : adapter) (w : world) :
  (¬ NoDup (columns df) →
     _create_table_from_dataframe t df (State a w) = (Raise AttributeError, State a w))
  ∧ (NoDup (columns df) → primary_keys_of df = [] →
     _create_table_from_dataframe t df (State a w) = print NoIndex (State a w))
  ∧ (NoDup (columns df) → primary_keys_of df ≠ [] →
     ∃ q, table_statement (kind a) t df = Ok (Some q)
       ∧ _create_table_from_dataframe t df (State a w)
         = (Ok (),
            State a
              match connection a, server w with
              | Some Open, Some s =>
                  let d := run (kind a) Execute q [] s in
                  World (files w) (Some d.2) (calls w ++ [Statement Execute q []])
                        (console w ++ [if d.1 then TableCreated t else CreateFailed t])
              | Some _, _ =>
                  World (files w) (server w) (calls w ++ [Statement Execute q []])
                        (console w ++ [CreateFailed t])
              | None, _ =>
                  World (files w) (server w) (calls w) (console w ++ [CreateFailed t])
              end)).
Proof.
  assert (Hmatch : ∀ (A : Type) (l : list string) (x y : A),
            l ≠ [] → match l with [] => x | _ :: _ => y end = y)
    by (by intros A [|] x y).
  destruct a as [b cf ca co], w as [fs sv cl cn]. cbn [kind connection server files calls console].
  split; [|split].
  - intros Hdup. unfold _create_table_from_dataframe, bind at 1, class_of_self. cbn [self kind].
    unfold table_statement, create_table_query, PostgresDB_create_table_query.
    destruct b; by rewrite decide_False by done.
  - intros Hnd Hpk. unfold _create_table_from_dataframe, bind at 1, class_of_self.
    cbn [self kind].
    unfold table_statement, create_table_query, PostgresDB_create_table_query.
    destruct b; rewrite decide_True by done; cbv zeta; by rewrite Hpk.
  - intros Hnd Hpk.
    assert (∃ q, table_statement b t df = Ok (Some q)) as [q Hq].
    { unfold table_statement, create_table_query, PostgresDB_create_table_query.
      destruct b; rewrite decide_True by done; cbv zeta; rewrite Hmatch by done; eauto. }
    exists q. split; [done|].
    unfold _create_table_from_dataframe, bind at 1, class_of_self. cbn [self kind].
    rewrite Hq.
    destruct co as [[|]|]; [destruct sv as [s|]| |].
    + unfold try_except, bind at 1. rewrite (cursor_run_run _ _ s) by done.
      cbn [kind files calls console].
      destruct (run b Execute q [] s) as [[|] s']; cbn [fst snd]; by run.
    + unfold cursor_run. by run.
    + unfold cursor_run. by run.
    + unfold cursor_run. by run.
Qed.

(** ** A batch that [reset_index] rejects *)

#[local] Existing Instance same_on_equiv.

Ltac same := intros [[] []]; unfold same_on; cbn; try done.

Lemma get_primary_key_returns_ok (t : string) (st : state) (c : cache_t) :
  cache (self st) = Some c → ∃ r, (_get_primary_key t st).1 = Ok r.
Proof.
  intros Hc. unfold _get_primary_key, bind at 1, attr. rewrite Hc.
  destruct (c !! t ≫= primary_key) as [pk|]; [by eexists|].
  unfold try_except.
  match goal with |- context [match ?m st with _ => _ end] =>
    destruct (m st) as [[r|e] st'] end; by eexists.
Qed.

Lemma get_primary_key_same_inserted t : keeps (same_on inserted) (_get_primary_key t).
Proof.
  assert (∀ e, is_statement e = false → keeps (same_on inserted) (record e)).
  { intros e He [a w]. unfold same_on, inserted. cbn.
    apply filter_snoc_false. by destruct e. }
  assert (∀ p f, keeps (same_on inserted) (write_file p f)) by (intros; same).
  assert (∀ c, keeps (same_on inserted) (set_cache c)) by (intros; same).
  assert (∀ r, keeps (same_on inserted) (print r)) by (intros; same).
  pose proof (fetch_primary_key_kept (same_on inserted)).
  pose proof (save_cache_kept (same_on inserted)).
  unfold _get_primary_key, put_primary_key. keeps_go.
Qed.

Lemma upsert_prefix {A} (t : string) (df : DataFrame) (st : state) (c : cache_t)
    (rest : M state A) :
  cache (self st) = Some c → NoDup (columns df) →
  ∃ st1, (pk <- _get_primary_key t ;;
          (if falsy pk then _create_table_from_dataframe t df else ret ()) ;;
          rest) st = rest st1
         ∧ inserted st1 = inserted st.
Proof.
  intros Hc Hnd. unfold bind at 1.
  destruct (get_primary_key_returns_ok t st c Hc) as [pk Hpk].
  pose proof (get_primary_key_same_inserted t st) as Hins. unfold same_on in Hins.
  destruct (_get_primary_key t st) as [r st0]. cbn in Hpk, Hins. subst r.
  unfold bind at 1. destruct (falsy pk).
  - pose proof (create_table_returns_ok t df st0 Hnd) as Hok.
    destruct (create_table_self_inserted t df st0) as [_ Hins'].
    destruct (_create_table_from_dataframe t df st0) as [r st1]. cbn in Hok, Hins'.
    subst r. exists st1. split; [done|congruence].
  - exists st0. by split.
Qed.

(** A non-empty batch whose index labels collide with each other or with a
    data column makes [df.reset_index()] raise, and that line is outside
    every [try]: on an object that has a cache, [upsert] raises [ValueError]
    (after the lookup and, without a key, the attempt to create the table),
    no insert is handed to the driver, and the facade lets the exception
    through. *)
Theorem colliding_index_label_raises (t : string) (df : DataFrame) (st : state)
    (c : cache_t) :
  cache (self st) = Some c → NoDup (columns df) → empty df = false →
  ¬ reset_index_ok df →
  ∃ st', upsert t (Frame df) st = (Raise ValueError, st')
    ∧ inserted st' = inserted st
    ∧ DatabaseManager_upsert t (Frame df) (Manager (Some (self st)), env st)
      = (Raise ValueError, (Manager (Some (self st')), env st')).
Proof.
  intros Hc Hnd Hempty Hbad.
  assert (Hcols : reset_index_columns df = Raise ValueError)
    by (unfold reset_index_columns; by rewrite decide_False).
  assert (Hvals : reset_index_values df = Raise ValueError)
    by (unfold reset_index_values; by rewrite decide_False).
  assert (∃ st', upsert t (Frame df) st = (Raise ValueError, st')
                 ∧ inserted st' = inserted st) as (st' & Hup & Hins).
  { unfold upsert, upsert_from_dataframe. unfold bind at 1, class_of_self.
    cbv beta iota.
    destruct (kind (self st)).
    - unfold SQLiteDB_upsert_from_dataframe. rewrite Hempty.
      match goal with |- context [bind (_get_primary_key t) (λ pk, bind _ (λ _, ?rest))] =>
        destruct (upsert_prefix t df st c rest Hc Hnd) as (st1 & Hrun & Hins) end.
      exists st1. split; [|done]. rewrite Hrun. unfold bind at 1. by rewrite Hcols.
    - unfold DuckDB_upsert_from_dataframe. rewrite Hempty.
      match goal with |- context [bind (_get_primary_key t) (λ pk, bind _ (λ _, ?rest))] =>
        destruct (upsert_prefix t df st c rest Hc Hnd) as (st1 & Hrun & Hins) end.
      exists st1. split; [|done]. rewrite Hrun. unfold bind at 1. by rewrite Hcols.
    - unfold PostgresDB_upsert_from_dataframe. rewrite Hempty.
      match goal with |- context [bind (_get_primary_key t) (λ pk, bind _ (λ _, ?rest))] =>
        destruct (upsert_prefix t df st c rest Hc Hnd) as (st1 & Hrun & Hins) end.
      exists st1. split; [|done]. rewrite Hrun. cbv zeta. unfold bind at 1.
      by rewrite Hvals. }
  exists st'. split; [done|]. split; [done|].
  destruct st as [a w].
  unfold DatabaseManager_upsert, bind, DatabaseManager_is_db_available, on_db.
  cbn [db fst snd self env]. by rewrite Hup.
Qed.

(** ** Construction when the driver cannot connect *)

(** When the driver cannot connect, no constructor raises and the object has
    no connection.  The SQLite and DuckDB objects have their cache file and
    the loaded cache; the PostgreSQL object has neither, its cache being
    loaded only after a successful connect.  The driver was called once,
    unless the PostgreSQL configuration could not be read; one line is
    printed, and the adapter's own availability test then answers [False] and
    prints the unavailability line. *)
Theorem failed_connect_leaves_degraded_object (b : backend) (arg : string) (w : world)
    (c : cache_t) :
  server w = None →
  files w !! cache_file_name = Some (Pickled c)
  ∨ (files w !! cache_file_name = None ∧ c = ∅ ∧ arg ≠ cache_file_name) →
  let tried :=
    match b, files w !! arg with
    | Postgres, Some Config => true
    | Postgres, _ => false
    | _, _ => true
    end in
  let r := construct b arg w in
  ∃ a, r.1 = Ok a
    ∧ kind a = b ∧ connection a = None
    ∧ cache_file a = (if decide (b = Postgres) then None else Some cache_file_name)
    ∧ cache a = (if decide (b = Postgres) then None else Some c)
    ∧ calls r.2 = (if tried then calls w ++ [Connect b arg] else calls w)
    ∧ console r.2 = console w ++ [ConnectFailed]
    ∧ server r.2 = None
    ∧ is_db_available (State a r.2) = (Ok false, State a (console_add Unavailable r.2)).
Proof.
  intros Hs Hfile tried r.
  assert (Hload : ∀ a' w1, cache_file a' = Some cache_file_name →
            files w1 !! cache_file_name = files w !! cache_file_name →
            _load_cache (State a' w1) = (Ok c, State a' w1)).
  { intros a' w1 Ha' Hw1. rewrite (load_cache_run _ cache_file_name) by done.
    cbn. rewrite Hw1. by destruct Hfile as [->|(-> & -> & _)]. }
  subst tried r. destruct w as [fs sv cl cn]; cbn in *; subst. destruct b.
  - unfold construct, SQLiteDB__init__. run.
    destruct (bool_decide (is_Some (fs !! arg))) eqn:E.
    + run. rewrite Hload by done. run. by eexists.
    + apply bool_decide_eq_false in E.
      assert (arg ≠ cache_file_name).
      { destruct Hfile as [Hf|(_ & _ & ?)]; [|done].
        intros ->. apply E. rewrite Hf. eauto. }
      run. rewrite Hload; [run; by eexists | done |].
      cbn. by rewrite lookup_insert_ne.
  - unfold construct, DuckDB__init__. run. rewrite Hload by done. run. by eexists.
  - unfold construct, PostgresDB__init__. run.
    destruct (fs !! arg) as [[| |]|]; run; by eexists.
Qed.

(** ** The first upsert into a table that does not exist yet *)

Lemma get_primary_key_failed (a : adapter) (w : world) (c : cache_t) (s : store)
    (t : string) :
  cache a = Some c → c !! t ≫= primary_key = None →
  connection a = Some Open → server w = Some s →
  primary_key_rows (kind a) t s = None →
  _get_primary_key t (State a w)
  = (Ok None,
     State a (World (files w) (Some s) (calls w ++ [PrimaryKeyQuery (kind a) t])
                    (console w ++ [PrimaryKeyUnknown]))).
Proof.
  intros Hc Hmiss Hconn Hs Hfail.
  destruct a as [b cf ca h], w as [fs sv cl cn]; cbn in *; subst.
  unfold _get_primary_key. run. rewrite Hmiss. unfold fetch_primary_key. run.
  by rewrite Hfail.
Qed.

Lemma create_table_run (a : adapter) (w : world) (s : store) (t : string)
    (df : DataFrame) (q : statement) :
  table_statement (kind a) t df = Ok (Some q) →
  connection a = Some Open → server w = Some s →
  _create_table_from_dataframe t df (State a w)
  = (Ok (),
     State a (World (files w) (Some (run (kind a) Execute q [] s).2)
                (calls w ++ [Statement Execute q []])
                (console w ++ [if (run (kind a) Execute q [] s).1
                               then TableCreated t else CreateFailed t]))).
Proof.
  intros Hq Hconn Hs.
  destruct a as [b cf ca h], w as [fs sv cl cn]; cbn [kind connection server files calls
    console] in *; subst.
  unfold _create_table_from_dataframe, bind at 1, class_of_self. cbn [self kind].
  rewrite Hq. unfold try_except, bind at 1. rewrite (cursor_run_run _ _ s) by done.
  cbn [kind files calls console].
  destruct (run b Execute q [] s) as [[|] s']; cbn [fst snd]; by run.
Qed.

(** On DuckDB, whose catalog statement raises for an unknown table, the first
    upsert of a batch with a named index into a table that does not exist
    makes four calls in this order: the lookup that fails (and is not cached),
    the [CREATE TABLE], a second lookup that now finds the key and caches it,
    and the insert with that key as conflict target and the rows of
    [df.reset_index().values.tolist()] as parameters. *)
Theorem first_upsert_creates_then_inserts (a : adapter) (w : world) (f : string)
    (c : cache_t) (s s1 : store) (t : string) (df : DataFrame) (q : statement)
    (K : list string) :
  kind a = Duck → cache_file a = Some f → cache a = Some c →
  c !! t ≫= primary_key = None →
  connection a = Some Open → server w = Some s →
  empty df = false → reset_index_ok df →
  primary_key_rows Duck t s = None →
  table_statement Duck t df = Ok (Some q) →
  run Duck Execute q [] s = (true, s1) →
  primary_key_rows Duck t s1 = Some K → K ≠ [] →
  let fields := index_labels df ++ columns df in
  let rows := reset_index_rows df in
  let ins := InsertOnConflict DuckSyntax t fields K (filter (λ col, col ∉ K) fields) in
  let d := run Duck ExecuteMany ins rows s1 in
  let c' := <[t := TableMeta (Some K)
                     (not_null_columns (default (TableMeta None None) (c !! t)))]> c in
  upsert t (Frame df) (State a w)
  = (Ok (),
     State (Adapter Duck (Some f) (Some c') (Some Open))
           (World (<[f := Pickled c']> (files w)) (Some d.2)
                  (calls w ++ [PrimaryKeyQuery Duck t; Statement Execute q [];
                               PrimaryKeyQuery Duck t; Statement ExecuteMany ins rows])
                  (console w ++ [PrimaryKeyUnknown; TableCreated t;
                                 if d.1 then BatchInserted t else BatchFailed t]))).
Proof.
  intros Hk Hf Hc Hmiss Hconn Hs Hempty Hreset Hfail Hq Hrun Hfound HK. cbv zeta.
  destruct K as [|k K']; [done|].
  assert (Hcols : reset_index_columns df = Ok (index_labels df ++ columns df))
    by (unfold reset_index_columns; by rewrite decide_True).
  assert (Hvals : reset_index_values df = Ok (reset_index_rows df))
    by (unfold reset_index_values; by rewrite decide_True).
  destruct a as [b cf ca co], w as [fs sv cl cn]; cbn [kind cache cache_file connection
    server files calls console] in *; subst.
  unfold upsert, upsert_from_dataframe. unfold bind at 1, class_of_self. cbn [self kind].
  unfold DuckDB_upsert_from_dataframe. rewrite Hempty.
  unfold bind at 1. rewrite (get_primary_key_failed _ _ c s) by done.
  cbn [falsy kind files calls console].
  unfold bind at 1. rewrite (create_table_run _ _ s t df q) by done.
  cbn [kind files calls console]. rewrite Hrun. cbn [fst snd].
  unfold bind at 1. rewrite Hcols. unfold bind at 1. rewrite Hvals.
  unfold bind at 1.
  rewrite (get_primary_key_found _ _ f c s1 t (k :: K')) by done.
  cbn [falsy keys_of default kind files calls console].
  unfold try_except, bind at 1. rewrite (cursor_run_run _ _ s1) by done.
  cbn [kind files calls console].
  destruct (run Duck ExecuteMany _ _ s1) as [[|] s2]; cbn [fst snd]; run;
    by rewrite <- !app_assoc.
Qed.

(** ** One cache file for the three classes *)

(** The three classes name the same cache file.  A key that an adapter has
    discovered and stored is therefore what an adapter of any class,
    constructed afterwards in the same directory, answers for that table
    name, without asking its own catalog. *)
Theorem cache_is_shared_between_adapters (a : adapter) (w : world) (c : cache_t)
    (s : store) (t : string) (cols : list string) (b' : backend) (arg : string) :
  cache_file a = Some cache_file_name → cache a = Some c →
  c !! t ≫= primary_key = None →
  connection a = Some Open → server w = Some s →
  primary_key_rows (kind a) t s = Some cols →
  (b' = Postgres → files w !! arg = Some Config ∧ arg ≠ cache_file_name) →
  let w1 := env (_get_primary_key t (State a w)).2 in
  ∃ a' w2, construct b' arg w1 = (Ok a', w2)
    ∧ kind a' = b'
    ∧ calls w2 = calls w ++ [PrimaryKeyQuery (kind a) t; Connect b' arg]
    ∧ _get_primary_key t (State a' w2) = (Ok (Some cols), State a' w2).
Proof.
  intros Hf Hc Hmiss Hconn Hs Hrows Hconf.
  rewrite (get_primary_key_found a w cache_file_name c s t cols) by done.
  cbn [snd env]. eexists _, _. split; [|split; [|split]].
  - apply (construct_connected b' arg _ s); cbn; [done|by rewrite lookup_insert_eq|].
    intros Hb. destruct (Hconf Hb) as [Hcfg Hne]. by rewrite lookup_insert_ne.
  - done.
  - cbn. by rewrite <- app_assoc.
  - eapply get_primary_key_hit; [reflexivity|]. by rewrite lookup_insert_eq.
Qed.

(** ** The cache file follows the cache *)

Lemma persisted_iff (st : state) :
  persisted st ↔
  ∃ f c, cache_file (self st) = Some f ∧ cache (self st) = Some c
         ∧ (files (env st) !! f = Some (Pickled c)
            ∨ (files (env st) !! f = None ∧ c = ∅)).
Proof.
  unfold persisted. split.
  - intros (c & Hc & Hload). destruct (cache_file (self st)) as [f|] eqn:Ef.
    + rewrite (load_cache_run st f Ef) in Hload. exists f, c. split; [done|]. split; [done|].
      destruct (files (env st) !! f) as [[c'| |]|]; try done.
      * left. by injection Hload as ->.
      * right. by injection Hload as <-.
    + exfalso. revert Hload. unfold _load_cache, bind, attr. by rewrite Ef.
  - intros (f & c & Hf & Hc & Hfile). exists c. split; [done|].
    rewrite (load_cache_run st f Hf). by destruct Hfile as [->|[-> ->]].
Qed.

#[local] Instance stays_persisted_preorder : PreOrder stays_persisted.
Proof. split; unfold stays_persisted; [by intros ?|intros ??? H1 H2 ?; eauto]. Qed.

Ltac persisted_frame :=
  intros [[? ? ? ?] [? ? ? ?]]; unfold stays_persisted; rewrite !persisted_iff; cbn; done.

Lemma get_primary_key_persisted t : keeps stays_persisted (_get_primary_key t).
Proof.
  intros [[b cf ca co] [fs sv cl cn]]. unfold stays_persisted. rewrite !persisted_iff.
  intros (f & c & Hf & Hc & Hfile). cbn in *. subst.
  unfold _get_primary_key. run.
  destruct (c !! t ≫= primary_key) as [pk|] eqn:E; [cbn; eauto 6|].
  unfold fetch_primary_key. run.
  destruct co as [[|]|]; run; [|cbn; eauto 6..].
  destruct sv as [s|]; run; [|cbn; eauto 6].
  destruct (primary_key_rows b t s) as [cols|]; run; [|cbn; eauto 6].
  erewrite (put_primary_key_run _ _ f c) by done. cbn.
  eexists _, _. split; [done|]. split; [done|]. left. by rewrite lookup_insert_eq.
Qed.

Lemma get_not_null_columns_persisted t : keeps stays_persisted (_get_not_null_columns t).
Proof.
  intros [[b cf ca co] [fs sv cl cn]]. unfold stays_persisted. rewrite !persisted_iff.
  intros (f & c & Hf & Hc & Hfile). cbn in *. subst.
  unfold _get_not_null_columns. run.
  destruct (c !! t ≫= not_null_columns) as [nn|] eqn:E; [cbn; eauto 6|].
  unfold fetch_not_null_columns. run.
  destruct co as [[|]|]; run; [|cbn; eauto 6..].
  destruct sv as [s|]; run; [|cbn; eauto 6].
  destruct (not_null_query t s) as [cols|]; run; [|cbn; eauto 6].
  erewrite (put_not_null_columns_run _ _ f c) by done. cbn.
  eexists _, _. split; [done|]. split; [done|]. left. by rewrite lookup_insert_eq.
Qed.

Lemma perform_all_persisted ops st : stays_persisted st (perform_all ops st).
Proof.
  assert (∀ e, True → keeps stays_persisted (record e)) by (intros; persisted_frame).
  assert (∀ s, keeps stays_persisted (set_store s)) by (intros; persisted_frame).
  apply (perform_all_kept stays_persisted);
    first [ by (intros; persisted_frame)
          | apply get_primary_key_persisted
          | apply get_not_null_columns_persisted
          | by (intros; apply (cursor_run_kept stays_persisted (λ _, True)))
          | by (intros [[? ? ? ?] [? ? ? ?]] ?; unfold stays_persisted;
                rewrite !persisted_iff)
          | apply _ ].
Qed.

(** Every constructor that returns an object with a cache leaves the cache
    file in step with it (a load from the file gives the cache in memory), and
    every operation keeps it so: upserts, queries, commands, closes, the two
    cached lookups, changes of the database by someone else, and a final
    [clear_cache].  What the object has cached is never ahead of the file. *)
Theorem cache_file_tracks_cache (b : backend) (arg : string) (w : world)
    (ops : list operation) (st : state) :
  (∀ a, (construct b arg w).1 = Ok a → is_Some (cache a) →
        persisted (State a (construct b arg w).2))
  ∧ (persisted st →
     persisted (perform_all ops st) ∧ persisted (clear_cache (perform_all ops st)).2).
Proof.
  split.
  - intros a Ha Hcache. apply persisted_iff.
    destruct w as [fs sv cl cn]. revert Ha Hcache. destruct b.
    + unfold construct, SQLiteDB__init__. run.
      destruct (bool_decide (is_Some (fs !! arg))); run;
        rewrite (load_cache_run _ cache_file_name) by done; cbn;
        match goal with |- context [?m !! cache_file_name] =>
          destruct (m !! cache_file_name) as [[c| |]|] eqn:E end; run;
        destruct sv; run; intros [= <-] [c' Hc']; cbn in *; try done; eauto 8.
    + unfold construct, DuckDB__init__. run.
      rewrite (load_cache_run _ cache_file_name) by done; cbn.
      destruct (fs !! cache_file_name) as [[c| |]|] eqn:E; run;
        destruct sv; run; intros [= <-] [c' Hc']; cbn in *; try done; eauto 8.
    + unfold construct, PostgresDB__init__. run.
      destruct (fs !! arg) as [[| |]|]; run; try (by intros [= <-] [c' Hc']).
      destruct sv; run; try (by intros [= <-] [c' Hc']).
      rewrite (load_cache_run _ cache_file_name) by done; cbn.
      destruct (fs !! cache_file_name) as [[c| |]|] eqn:E; run;
        destruct (redis_ping arg) as [[|]|]; run;
        intros [= <-] [c' Hc']; cbn in *; try done; eauto 8.
  - intros Hp. pose proof (perform_all_persisted ops st Hp) as Hp'.
    split; [done|]. apply persisted_iff in Hp' as (f & c & Hf & Hc & _).
    destruct (perform_all ops st) as [a1 w1]. cbn [self env] in Hf, Hc.
    rewrite (clear_cache_run a1 w1 f) by done. apply persisted_iff. cbn.
    eexists _, _. split; [done|]. split; [done|]. left. by rewrite lookup_insert_eq.
Qed.

End Behaviour.


(** * One batch upsert on the reference engine *)

Section OneUpsert.
Import Engine.

Lemma step_of_key b upd tb r : t_key (step_of b upd tb r) = t_key tb.
Proof. destruct b; cbn; [done| |]; unfold upsert_row; by case_decide. Qed.

Lemma step_of_columns b upd tb r : t_columns (step_of b upd tb r) = t_columns tb.
Proof. destruct b; cbn; [done| |]; unfold upsert_row; by case_decide. Qed.

Lemma step_of_same b upd tb r :
  t_key tb ≠ [] → keyed tb → VNone ∉ key_of (t_key tb) r →
  (∀ c, c ∈ upd → c ∉ t_key tb) →
  with_key (t_key tb) (key_of (t_key tb) r) (t_rows (step_of b upd tb r))
  = [merged b upd (with_key (t_key tb) (key_of (t_key tb) r) (t_rows tb)) r].
Proof.
  intros Hpk Hkeyed Hr Hupd. destruct b; cbn [step_of merged].
  - by apply replace_row_same.
  - rewrite upsert_row_same by done. by destruct (with_key _ _ _).
  - rewrite upsert_row_same by done. by destruct (with_key _ _ _).
Qed.

Lemma step_of_other b upd tb r k :
  t_key tb ≠ [] → VNone ∉ key_of (t_key tb) r → k ≠ key_of (t_key tb) r →
  (∀ c, c ∈ upd → c ∉ t_key tb) →
  with_key (t_key tb) k (t_rows (step_of b upd tb r)) = with_key (t_key tb) k (t_rows tb).
Proof.
  intros Hpk Hr Hk Hupd. destruct b; cbn [step_of].
  - by apply replace_row_other.
  - by apply upsert_row_other.
  - by apply upsert_row_other.
Qed.

(** ** The rows that reach the driver *)

Lemma object_is_not_float (dtypes : list string) :
  "object" ∈ dtypes → values_are_floats dtypes = false.
Proof.
  intros Hin. apply bool_decide_eq_false. intros [Hall _].
  rewrite Forall_forall in Hall. specialize (Hall _ Hin).
  revert Hall. apply (bool_decide_unpack _). vm_compute. exact I.
Qed.

Lemma as_sent_is_final (df : DataFrame) :
  index_names df ≠ [] →
  reset_index_rows (as_sent df) = (λ r, r.1 ++ r.2) <$> df_rows (as_sent df).
Proof.
  intros Hne. unfold reset_index_rows, values_tolist.
  rewrite object_is_not_float; [done|].
  unfold reset_index_dtypes. cbn. apply elem_of_app. left.
  destruct (index_names df); [done|]. left.
Qed.

Lemma as_sent_rows (df : DataFrame) :
  index_names df ≠ [] → reset_index_rows (as_sent df) = reset_index_rows df.
Proof.
  intros Hne. rewrite as_sent_is_final by done.
  unfold reset_index_rows, values_tolist. cbn. unfold sent_rows.
  destruct (values_are_floats (reset_index_dtypes df)); [|done].
  rewrite <- !list_fmap_compose. apply list_fmap_ext. intros i [ix row] _. cbn.
  by rewrite fmap_app.
Qed.

Lemma as_sent_empty (df : DataFrame) : empty (as_sent df) = empty df.
Proof.
  unfold empty, as_sent, sent_rows. cbn.
  destruct (df_columns df); [done|].
  by destruct (values_are_floats _), (df_rows df).
Qed.

(** The upsert of a batch is the upsert of the rows that reach the driver. *)
Lemma upsert_as_sent (t : string) (df : DataFrame) (st : state) :
  index_names df ≠ [] →
  upsert t (Frame (as_sent df)) st = upsert t (Frame df) st.
Proof.
  intros Hne.
  assert (Hvals : reset_index_values (as_sent df) = reset_index_values df).
  { unfold reset_index_values. rewrite as_sent_rows by done. reflexivity. }
  assert (Hcols : reset_index_columns (as_sent df) = reset_index_columns df)
    by reflexivity.
  assert (Hcreate : ∀ t, _create_table_from_dataframe t (as_sent df)
                         = _create_table_from_dataframe t df) by reflexivity.
  unfold upsert, upsert_from_dataframe, SQLiteDB_upsert_from_dataframe,
    DuckDB_upsert_from_dataframe, PostgresDB_upsert_from_dataframe.
  rewrite as_sent_empty, Hvals, Hcols, Hcreate. reflexivity.
Qed.

(** What the engine makes of the call that the adapter builds. *)
Lemma batch_call_runs (b : backend) (t : string) (df : DataFrame) (K : list string)
    (d : gmap string table) (tb : table) :
  d !! t = Some tb → well_formed tb → fits df tb →
  reset_index_rows df = (λ r, r.1 ++ r.2) <$> df_rows df →
  K ≠ [] → K ⊆ t_key tb → t_key tb ⊆ K →
  match batch_call b t df K with
  | Statement c q p =>
      exec c q p d
      = (true, <[t := foldl (step_of b (columns df)) tb (proposed df <$> df_rows df)]> d)
  | _ => False
  end.
Proof.
  intros Hd Hwf Hfits Hfinal HK1 HK2 HK3.
  pose proof (batch_columns_nodup df tb Hfits) as Hnd.
  pose proof (batch_columns_known df tb Hfits Hwf) as Hknown.
  pose proof (data_columns_some df tb Hfits) as Hsome.
  assert (Hndc : NoDup (columns df)) by (by destruct Hfits as (_ & _ & _ & _ & ? & _)).
  assert (Hsubc : columns df ⊆ t_columns tb)
    by (by destruct Hfits as (_ & _ & _ & _ & _ & ? & _)).
  set (cols := index_labels df ++ columns df) in *.
  assert (Hprop : proposed df <$> df_rows df
                  = incoming cols <$> ((λ r, r.1 ++ r.2) <$> df_rows df)).
  { rewrite <- list_fmap_compose. done. }
  set (check := λ (tb : table) (vals : list value),
         accepts tb cols vals ∧ K ⊆ t_key tb ∧ t_key tb ⊆ K
         ∧ columns df ⊆ t_columns tb
         ∧ VNone ∉ key_of (t_key tb) (incoming cols vals)).
  assert (Hcheck : Forall (check tb) ((λ r, r.1 ++ r.2) <$> df_rows df)).
  { apply Forall_fmap, Forall_forall. intros r Hr. unfold check. cbn.
    split; [|split; [done|split; [done|split; [done|]]]].
    - split; [done|]. split; [done|]. by apply (batch_row_length df tb).
    - by apply (batch_key_not_null df tb). }
  assert (Hschema : ∀ tb1 tb2 vals, t_key tb2 = t_key tb1 → t_columns tb2 = t_columns tb1 →
                      check tb1 vals → check tb2 vals).
  { intros tb1 tb2 vals Hk Hc. unfold check, accepts. by rewrite Hk, Hc. }
  assert (Hupsert : ∀ sx d1 tb1 vals, d1 !! t = Some tb1 → check tb1 vals →
            exec_row (InsertOnConflict sx t cols K (columns df)) vals d1
            = Some (<[t := upsert_row tb1 (columns df) (incoming cols vals)]> d1)).
  { intros sx d1 tb1 vals Hd1 (Hv & Hs1 & Hs2 & Hs3 & Hs4). cbn. rewrite Hd1. cbn.
    by rewrite decide_True. }
  destruct b; cbn [batch_call]; cbv zeta; fold cols; rewrite Hprop, Hfinal;
    cbn [exec step_of].
  - apply (exec_many_fold _ t cols replace_row check); try done.
    intros d1 tb1 vals Hd1 (Hv & _). cbn. rewrite Hd1. cbn. by rewrite decide_True.
  - apply (exec_many_fold _ t cols (λ tb r, upsert_row tb (columns df) r) check);
      try done.
    + intros tb1 r. apply (step_of_key Duck).
    + intros tb1 r. apply (step_of_columns Duck).
    + apply Hupsert.
  - apply (exec_pages_fold _ t cols (λ tb r, upsert_row tb (columns df) r) check);
      try done.
    + intros tb1 r. apply (step_of_key Postgres).
    + intros tb1 r. apply (step_of_columns Postgres).
    + apply Hupsert.
    + intros d1 tb1 page Hd1. cbn. by rewrite Hd1.
    + rewrite <- list_fmap_compose. apply (batch_keys_nodup df tb Hfits).
Qed.


(** The state after the upsert, and the rows of the table it leaves. *)
Lemma batch_upsert_state (a : adapter) (w : world) (c : cache_t)
    (d : gmap string table) (tb : table) (t : string) (df : DataFrame)
    (K : list string) :
  cache a = Some c → c !! t ≫= primary_key = Some K →
  K ⊆ t_key tb → t_key tb ⊆ K →
  connection a = Some Open → server w = Some d → d !! t = Some tb →
  well_formed tb → fits df tb →
  reset_index_rows df = (λ r, r.1 ++ r.2) <$> df_rows df →
  ∃ cl cn,
    (upsert t (Frame df) (State a w)).2
    = State a (World (files w)
                 (Some (<[t := foldl (step_of (kind a) (columns df)) tb
                                 (proposed df <$> df_rows df)]> d))
                 cl cn).
Proof.
  intros Hc Hpk HK2 HK3 Hconn Hs Hd Hwf Hfits Hfinal.
  assert (HK1 : K ≠ []).
  { intros ->. destruct Hwf as (Hkey & _). destruct (t_key tb) as [|x l]; [done|].
    by apply (elem_of_nil x), HK3; left. }
  assert (Hempty : empty df = false) by (by destruct Hfits as (_ & _ & _ & _ & _ & _ & ? & _)).
  assert (Hreset : reset_index_ok df) by (by destruct Hfits as (_ & _ & _ & ? & _)).
  destruct (update_fields_are_data df tb Hfits K HK2 HK3) as [Hupd1 Hupd2].
  pose proof (batch_call_runs (kind a) t df K d tb Hd Hwf Hfits Hfinal HK1 HK2 HK3) as Hrun.
  rewrite (keyed_batch_upsert_run a w c d t df K) by done. cbn [snd].
  eexists _, _. f_equal. f_equal. f_equal. rewrite Hupd1, Hupd2.
  destruct (kind a); cbn [batch_call] in Hrun; cbv zeta in Hrun; cbn [run native];
    by rewrite Hrun.
Qed.

Lemma batch_fold_rows (b : backend) (tb : table) (df : DataFrame) :
  well_formed tb → fits df tb →
  let tb' := foldl (step_of b (columns df)) tb (proposed df <$> df_rows df) in
  t_key tb' = t_key tb ∧ t_columns tb' = t_columns tb ∧ keyed tb'
  ∧ (∀ r, r ∈ df_rows df →
       let k := key_of (t_key tb) (proposed df r) in
       ∃ row, with_key (t_key tb) k (t_rows tb') = [row]
         ∧ (∀ j col v, columns df !! j = Some col → r.2 !! j = Some v →
              cell row col = v)
         ∧ (b = Sqlite → row = proposed df r)
         ∧ (b ≠ Sqlite →
            ∀ old col, old ∈ with_key (t_key tb) k (t_rows tb) →
              col ∉ columns df → cell row col = cell old col))
  ∧ (∀ k, k ∉ (λ r, key_of (t_key tb) (proposed df r)) <$> df_rows df →
       with_key (t_key tb) k (t_rows tb') = with_key (t_key tb) k (t_rows tb)).
Proof.
  intros (Hkey & Hkeycols & Hkeyed) Hfits tb'. subst tb'.
  assert (Hdata : ∀ col, col ∈ columns df → col ∉ t_key tb)
    by apply (data_columns_not_keys df tb Hfits).
  destruct (fold_steps (t_key tb) (step_of b (columns df)) (merged b (columns df))
              (step_of_key b (columns df)) (step_of_columns b (columns df)))
    with (rs := proposed df <$> df_rows df) (tb := tb)
    as (Hk' & Hc' & Hkeyed' & Hsame & Hother); try done.
  - intros tb0 r Hk0 Hkeyed0 Hr. rewrite <- Hk0 in *. by apply step_of_same.
  - intros tb0 r k Hk0 Hr Hne. rewrite <- Hk0 in *. by apply step_of_other.
  - apply Forall_fmap, Forall_forall. intros r Hr. by apply (batch_key_not_null df tb).
  - rewrite <- list_fmap_compose. apply (batch_keys_nodup df tb Hfits).
  - split; [done|]. split; [done|]. split; [done|]. split.
    + intros r Hr k. subst k. eexists. split.
      { apply Hsame. apply list_elem_of_fmap. eauto. }
      set (k := key_of (t_key tb) (proposed df r)).
      assert (Hlen := Hkeyed k (batch_key_not_null df tb Hfits r Hr)).
      split; [|split].
      * intros j col v Hcol Hv.
        assert (Hcell : cell (proposed df r) col = v) by (by apply (cell_of_column df tb) with j).
        assert (Hin : col ∈ columns df) by (apply list_elem_of_lookup; eauto).
        destruct b; cbn [merged]; [done| |];
          (destruct (with_key (t_key tb) k (t_rows tb)) as [|old olds]; [done|]);
          by rewrite cell_assign, decide_True.
      * by intros ->.
      * intros Hb old col Hold Hcol.
        destruct (with_key (t_key tb) k (t_rows tb)) as [|o [|o' os]];
          [by apply elem_of_nil in Hold| |cbn in Hlen; lia].
        apply list_elem_of_singleton in Hold as ->.
        destruct b; [done| |]; cbn [merged]; by rewrite cell_assign, decide_False.
    + intros k Hk. apply Hother. by rewrite <- list_fmap_compose.
Qed.

Lemma fitting_batch_has_index (df : DataFrame) (tb : table) :
  well_formed tb → fits df tb → index_names df ≠ [].
Proof.
  intros (Hkey & _) (_ & _ & Hsub & _) Hnil.
  destruct (t_key tb) as [|k ks]; [done|].
  apply (elem_of_nil k). specialize (Hsub k). unfold primary_keys_of in Hsub.
  rewrite Hnil in Hsub. apply Hsub. left.
Qed.


(** Two upserts in a row of batches that reach the driver as they are. *)
Lemma two_upserts_rows (a : adapter) (w : world) (c : cache_t)
    (d : gmap string table) (tb : table) (t : string) (df1 df2 : DataFrame)
    (K : list string) (r1 r2 : list value * list value) :
  cache a = Some c → c !! t ≫= primary_key = Some K →
  K ⊆ t_key tb → t_key tb ⊆ K →
  connection a = Some Open → server w = Some d → d !! t = Some tb →
  well_formed tb → fits df1 tb → fits df2 tb →
  reset_index_rows df1 = (λ r, r.1 ++ r.2) <$> df_rows df1 →
  reset_index_rows df2 = (λ r, r.1 ++ r.2) <$> df_rows df2 →
  r1 ∈ df_rows df1 → r2 ∈ df_rows df2 →
  key_of (t_key tb) (proposed df1 r1) = key_of (t_key tb) (proposed df2 r2) →
  ∃ tb2 row,
    server (env (upsert t (Frame df2) (upsert t (Frame df1) (State a w)).2).2)
    = Some (<[t := tb2]> d)
    ∧ t_key tb2 = t_key tb ∧ keyed tb2
    ∧ with_key (t_key tb) (key_of (t_key tb) (proposed df2 r2)) (t_rows tb2) = [row]
    ∧ (∀ j col v, columns df2 !! j = Some col → r2.2 !! j = Some v → cell row col = v)
    ∧ (∀ j col v, columns df1 !! j = Some col → r1.2 !! j = Some v →
         col ∉ columns df2 →
         cell row col = match kind a with Sqlite => VNone | Duck | Postgres => v end).
Proof.
  intros Hc Hpk HK2 HK3 Hconn Hs Hd Hwf Hfits1 Hfits2 Hfinal1 Hfinal2 Hr1 Hr2 Hsame.
  destruct (batch_upsert_state a w c d tb t df1 K) as (cl1 & cn1 & ->); try done.
  set (tb1 := foldl (step_of (kind a) (columns df1)) tb (proposed df1 <$> df_rows df1)).
  destruct (batch_fold_rows (kind a) tb df1 Hwf Hfits1)
    as (Hk1 & Hc1 & Hkeyed1 & Hrows1 & _). fold tb1 in Hk1, Hc1, Hkeyed1, Hrows1.
  assert (Hwf1 : well_formed tb1).
  { destruct Hwf as (Hkey & Hkeycols & _). split; [by rewrite Hk1|].
    split; [by rewrite Hk1, Hc1|done]. }
  assert (Hfits21 : fits df2 tb1) by (by apply (fits_schema df2 tb tb1)).
  destruct (batch_upsert_state a
              (@World native (files w) (Some (<[t := tb1]> d)) cl1 cn1) c
              (<[t := tb1]> d) tb1 t df2 K) as (cl2 & cn2 & ->);
    try done; try (by rewrite Hk1); [by rewrite lookup_insert_eq|].
  cbn [env server files]. rewrite insert_insert_eq.
  destruct (batch_fold_rows (kind a) tb1 df2 Hwf1 Hfits21)
    as (Hk2 & Hc2 & Hkeyed2 & Hrows2 & _).
  destruct (Hrows2 r2 Hr2) as (row & Hrow & Hcells & Hlite & Hkeep).
  destruct (Hrows1 r1 Hr1) as (row1 & Hrow1 & Hcells1 & _).
  rewrite Hk1 in Hrow, Hkeep, Hk2. rewrite Hsame in Hrow1.
  eexists _, row. split; [reflexivity|]. split; [done|]. split; [done|].
  split; [done|]. split; [done|].
  intros j col v Hcol Hv Hout.
  assert (Hin : col ∈ columns df1) by (apply list_elem_of_lookup; eauto).
  destruct (kind a) eqn:Ek.
  - rewrite Hlite by done. apply cell_incoming_out. intros [Hl|Hd2]%elem_of_app; [|done].
    apply (data_columns_not_keys df1 tb Hfits1 col Hin).
    by apply (key_columns_are_labels df2 tb Hfits2).
  - rewrite (Hkeep ltac:(done) row1 col); [by apply (Hcells1 j)| |done].
    rewrite Hrow1. left.
  - rewrite (Hkeep ltac:(done) row1 col); [by apply (Hcells1 j)| |done].
    rewrite Hrow1. left.
Qed.


End OneUpsert.

(** * The properties at concrete inputs *)

Import Engine.

Lemma facade_construction_errors_witness :
  DatabaseManager__init__ "mysql" ∅ Sample.fresh = (Raise ValueError, Sample.fresh)
  ∧ (DatabaseManager__init__ "sqlite" ∅ Sample.fresh).1 = Raise FileNotFoundError
  ∧ (DatabaseManager__init__ "postgres" ∅ Sample.fresh).1 = Raise FileNotFoundError
  ∧ ∃ a w', DatabaseManager__init__ "duckdb" ∅ Sample.fresh = (Ok (Manager (Some a)), w').
Proof.
  destruct (facade_construction_errors "mysql" ∅ Sample.fresh) as (H1 & _).
  destruct (facade_construction_errors "sqlite" ∅ Sample.fresh) as (_ & H2 & _).
  destruct (facade_construction_errors "postgres" ∅ Sample.fresh) as (_ & _ & H3 & _).
  destruct (facade_construction_errors "duckdb" ∅ Sample.fresh) as (_ & _ & _ & H4).
  split; [apply H1; discriminate|].
  split; [apply H2; reflexivity|].
  split; [apply H3; reflexivity|].
  apply H4; reflexivity.
Defined.

(** C4, as stated, fails: with a cache file that does not unpickle, the load
    raises instead of returning the empty cache, and the SQLite constructor
    leaves an adapter without cache and without connection. *)
Lemma load_cache_is_not_silent :
  let st := State (Adapter Sqlite (Some "db_cache.pkl") None None) Sample.spoiled in
  files (env st) !! "db_cache.pkl" = Some Blob
  ∧ (_load_cache st).1 = Raise UnpicklingError
  ∧ (_load_cache st).1 ≠ Ok ∅
  ∧ (construct Sqlite "sqlite.db" Sample.spoiled).1
      = Ok (Adapter Sqlite (Some "db_cache.pkl") None None).
Proof. vm_compute. repeat split; discriminate. Qed.

Lemma load_cache_outcomes_witness :
  let st := State (Adapter Sqlite (Some "db_cache.pkl") None None) Sample.spoiled in
  _load_cache st = (Raise UnpicklingError, st)
  ∧ ∃ w', construct Sqlite "sqlite.db" Sample.spoiled
            = (Ok (Adapter Sqlite (Some cache_file_name) None None), w')
          ∧ calls w' = calls Sample.spoiled ∧ server w' = server Sample.spoiled.
Proof.
  exact (load_cache_outcomes
           (State (Adapter Sqlite (Some "db_cache.pkl") None None) Sample.spoiled)
           "db_cache.pkl" Sqlite "sqlite.db" Sample.spoiled Blob
           eq_refl eq_refl I).
Defined.

Lemma cache_round_trip_witness :
  let a := Sample.ready Sqlite in
  let st1 := (put_primary_key "t1" ["id"] (State a Sample.fresh)).2 in
  ∃ c1, cache (self st1) = Some c1
        ∧ _load_cache (State (Sample.ready Duck) (env st1))
            = (Ok c1, State (Sample.ready Duck) (env st1))
        ∧ c1 !! "t1" ≫= primary_key = Some ["id"].
Proof.
  exact (proj1 (cache_round_trip (Sample.ready Sqlite) (Sample.ready Duck) Sample.fresh
                  "db_cache.pkl" ∅ "t1" ["id"] ["id"] eq_refl eq_refl eq_refl)).
Defined.

(** C2, as stated, fails.  On SQLite, with no cached key and a discovery that
    finds none, the upsert of the scenario's batch hands its INSERT OR REPLACE
    to the engine and the rows are stored.  On PostgreSQL, in the same
    situation, no insert is handed over but the table is created. *)
Lemma keyless_upsert_still_mutates :
  let lite := (upsert "t1" (Frame Sample.batch) (State (Sample.ready Sqlite) Sample.fresh)).2 in
  let pg := (upsert "t1" (Frame Sample.batch) (State (Sample.ready Postgres) Sample.fresh)).2 in
  (∅ : cache_t) !! "t1" ≫= primary_key = None
  ∧ primary_key_rows Sqlite "t1" (∅ : gmap string table) = Some []
  ∧ primary_key_rows Postgres "t1" (∅ : gmap string table) = Some []
  ∧ inserted lite ≠ inserted (State (Sample.ready Sqlite) Sample.fresh)
  ∧ (∃ d tb, server (env lite) = Some d ∧ d !! "t1" = Some tb ∧ length (t_rows tb) = 3%nat)
  ∧ inserted pg = inserted (State (Sample.ready Postgres) Sample.fresh)
  ∧ (∃ d, server (env pg) = Some d ∧ d !! "t1" = Some Sample.t1)
  ∧ server (env pg) ≠ server Sample.fresh.
Proof.
  vm_compute. repeat split; try discriminate.
  - eexists _, _. repeat split.
  - eexists. repeat split.
Qed.

Lemma keyless_upsert_inserts_nothing_witness :
  let pg := (upsert "t1" (Frame Sample.unkeyed)
               (State (Sample.ready Postgres) Sample.fresh)).2 in
  let bare := World ∅ (Some (<["t1" := Tbl ["id"; "column1"] [] []]> ∅)) [] [] in
  let duck := (upsert "t1" (Dict [("id", VInt 5); ("column1", VStr "6")])
                 (State (Sample.ready Duck) bare)).2 in
  let lite := (upsert "t1" (Frame Sample.update)
                 (State (Sample.ready Sqlite) Sample.fresh)).2 in
  inserted pg = []
  ∧ handed pg = handed (State (Sample.ready Postgres) Sample.fresh)
  ∧ inserted duck = []
  ∧ inserted lite
    = [Statement ExecuteMany (InsertOrReplace "t1" ["id"; "column1"; "column2"])
         [[VInt 5; VStr "X"; VStr "Y"]]].
Proof.
  cbv zeta.
  destruct (keyless_upsert_inserts_nothing (Sample.ready Postgres) Sample.fresh
              "db_cache.pkl" ∅ ∅ "t1" (Frame Sample.unkeyed)
              eq_refl eq_refl eq_refl eq_refl eq_refl eq_refl) as [Hpg _].
  destruct (keyless_upsert_inserts_nothing (Sample.ready Duck)
              (World ∅ (Some (<["t1" := Tbl ["id"; "column1"] [] []]> ∅)) [] [])
              "db_cache.pkl" ∅ (<["t1" := Tbl ["id"; "column1"] [] []]> ∅) "t1"
              (Dict [("id", VInt 5); ("column1", VStr "6")])
              eq_refl eq_refl eq_refl eq_refl eq_refl) as [Hduck _].
  { vm_compute. reflexivity. }
  destruct (keyless_upsert_inserts_nothing (Sample.ready Sqlite) Sample.fresh
              "db_cache.pkl" ∅ ∅ "t1" (Frame Sample.update)
              eq_refl eq_refl eq_refl eq_refl eq_refl eq_refl) as [_ Hlite].
  destruct (Hpg ltac:(discriminate)) as [Hpg1 Hpg2].
  destruct (Hduck ltac:(discriminate)) as [Hduck1 _].
  split; [exact Hpg1|]. split; [exact (Hpg2 eq_refl)|]. split; [exact Hduck1|].
  apply (Hlite eq_refl eq_refl); apply (bool_decide_unpack _); vm_compute; exact I.
Defined.

Lemma create_table_statement_witness :
  let lite := CreateTable "t" [("n", "INTEGER"); ("x", "REAL"); ("s", "TEXT");
                               ("id", "TEXT")] ["id"] in
  let duck := CreateTable "t" [("n", "INTEGER"); ("x", "DOUBLE"); ("s", "VARCHAR");
                               ("id", "VARCHAR")] ["id"] in
  let pg := CreateTable "t" [("n", "INTEGER"); ("x", "FLOAT"); ("s", "TEXT");
                             ("id", "TEXT")] ["id"] in
  table_statement Sqlite "t" Sample.typed = Ok (Some lite)
  ∧ table_statement Duck "t" Sample.typed = Ok (Some duck)
  ∧ table_statement Postgres "t" Sample.typed = Ok (Some pg)
  ∧ table_statement Postgres "t1" Sample.clash
    = Ok (Some (CreateTable "t1" [("id", "INTEGER PRIMARY KEY"); ("column1", "TEXT")]
                  ["id"]))
  ∧ sql_text lite = "CREATE TABLE t (n INTEGER, x REAL, s TEXT, id TEXT, PRIMARY KEY (id));"
  ∧ sql_text duck
    = "CREATE TABLE t (n INTEGER, x DOUBLE, s VARCHAR, id VARCHAR, PRIMARY KEY (id));"
  ∧ sql_text pg = "CREATE TABLE t (n INTEGER, x FLOAT, s TEXT, id TEXT, PRIMARY KEY (id));"
  ∧ calls (env (_create_table_from_dataframe "t" Sample.typed
                  (State (Sample.ready Duck) Sample.fresh)).2)
    = [Statement Execute duck []].
Proof.
  cbv zeta.
  assert (Hnd : NoDup (columns Sample.typed))
    by (apply (bool_decide_unpack _); vm_compute; exact I).
  assert (Hnd' : NoDup (columns Sample.clash))
    by (apply (bool_decide_unpack _); vm_compute; exact I).
  assert (Hpk : primary_keys_of Sample.typed ≠ []) by discriminate.
  assert (Hpk' : primary_keys_of Sample.clash ≠ []) by discriminate.
  destruct (create_table_statement Sqlite "t" Sample.typed
              (State (Sample.ready Sqlite) Sample.fresh)) as (H1 & _ & T1 & _).
  destruct (create_table_statement Duck "t" Sample.typed
              (State (Sample.ready Duck) Sample.fresh)) as (H2 & _ & T2 & _ & _ & C2).
  destruct (create_table_statement Postgres "t" Sample.typed
              (State (Sample.ready Postgres) Sample.fresh)) as (H3 & _ & T3 & _).
  destruct (create_table_statement Postgres "t1" Sample.clash
              (State (Sample.ready Postgres) Sample.fresh)) as (H4 & _).
  split; [exact (H1 Hnd Hpk)|]. split; [exact (H2 Hnd Hpk)|].
  split; [exact (H3 Hnd Hpk)|]. split; [exact (H4 Hnd' Hpk')|].
  split; [exact T1|]. split; [exact T2|]. split; [exact T3|].
  exact (C2 Hnd Hpk eq_refl (ex_intro _ Open eq_refl)).
Defined.

Lemma query_empty_versus_failed_witness :
  let st := State (Sample.ready Sqlite) Sample.stocked in
  (query "SELECT * FROM t1" "pandas" st).1 = Ok (Some (Table ["column1"; "column2"; "id"] []))
  ∧ (query "SELECT * FROM t2" "pandas" st).1 = Ok None.
Proof.
  pose proof (query_empty_versus_failed (Sample.ready Sqlite) Sample.stocked
                (<["t1" := Sample.t1]> ∅) (<["t1" := Sample.t1]> ∅)
                "SELECT * FROM t1" "SELECT * FROM t2" "pandas"
                ["column1"; "column2"; "id"] eq_refl eq_refl eq_refl eq_refl)
    as (H1 & H2 & _).
  split; [exact H1 | exact H2].
Defined.

Lemma empty_key_list_is_cached_witness :
  let r := _get_primary_key "t1" (State (Sample.ready Postgres) Sample.fresh) in
  r.1 = Ok (Some [])
  ∧ keyless "t1" r.2
  ∧ let st := perform_all [DoUpsert "t1" (Frame Sample.batch); DoPrimaryKey "t1"] r.2 in
    _get_primary_key "t1" st = (Ok (Some []), st).
Proof.
  pose proof (empty_key_list_is_cached (Sample.ready Postgres) Sample.fresh "db_cache.pkl"
                ∅ ∅ "t1" eq_refl eq_refl eq_refl eq_refl eq_refl eq_refl)
    as (H1 & H2 & _ & H4).
  split; [exact H1|]. split; [exact H2|].
  exact (proj1 (H4 [DoUpsert "t1" (Frame Sample.batch); DoPrimaryKey "t1"])).
Defined.

Lemma dict_upsert_never_creates_witness :
  let st := State (Sample.ready Duck) Sample.fresh in
  let data := [("id", VInt 5); ("column1", VStr "6")] in
  _create_table_from_dataframe "t1" (DataFrame_of_dict data) st = print NoIndex st
  ∧ created (upsert_from_dict "t1" data st).2 = created st.
Proof.
  pose proof (dict_upsert_never_creates "t1" [("id", VInt 5); ("column1", VStr "6")]
                (State (Sample.ready Duck) Sample.fresh)) as (_ & _ & _ & _ & H5 & H6).
  split; [apply H5; apply (bool_decide_unpack _); vm_compute; exact I | exact H6].
Defined.

(** C7 at a concrete input: the facade is built on a database file the driver
    cannot open; construction returns, the adapter has no connection, the
    facade still reports the database as available, and [close] raises
    [AttributeError]. *)
Lemma close_on_unavailable_adapter_raises :
  let built := DatabaseManager__init__ "sqlite" ∅ Sample.offline in
  let a := Adapter Sqlite (Some "db_cache.pkl") (Some ∅) None in
  built.1 = Ok (Manager (Some a))
  ∧ connection a = None
  ∧ (DatabaseManager_is_db_available (Manager (Some a), built.2)).1 = Ok true
  ∧ (DatabaseManager_close (Manager (Some a), built.2)).1 = Raise AttributeError
  ∧ (close (State a built.2)).1 = Raise AttributeError.
Proof. cbv zeta. repeat split; vm_compute; reflexivity. Qed.


(** ** Further properties at concrete inputs *)

Lemma lookup_after_clear_cache_witness :
  let r := _get_primary_key "t1"
             (clear_cache (State (Sample.aware Sqlite) Sample.stocked)).2 in
  r.1 = Ok (Some ["id"])
  ∧ calls (env r.2) = [PrimaryKeyQuery Sqlite "t1"].
Proof.
  pose proof (lookup_after_clear_cache (Sample.aware Sqlite) Sample.stocked "db_cache.pkl"
                (<["t1" := Sample.t1]> ∅) "t1" ["id"] eq_refl eq_refl eq_refl eq_refl)
    as (H1 & _ & _ & H4).
  split; [exact H1 | exact H4].
Defined.

Lemma failed_lookup_is_not_cached_witness :
  _get_primary_key "t1" (State (Sample.ready Duck) Sample.fresh)
  = (Ok None,
     State (Sample.ready Duck)
           (World ∅ (Some ∅) [PrimaryKeyQuery Duck "t1"] [PrimaryKeyUnknown])).
Proof.
  apply (failed_lookup_is_not_cached (Sample.ready Duck) Sample.fresh ∅ "t1");
    [reflexivity | reflexivity |].
  intros s _ [= <-]. reflexivity.
Defined.

Lemma not_null_columns_lookup_witness :
  _get_not_null_columns "t1" (State (Sample.ready Postgres) Sample.stocked)
  = (Ok ["id"],
     State (Adapter Postgres (Some "db_cache.pkl")
              (Some (<["t1" := TableMeta None (Some ["id"])]> ∅)) (Some Open))
           (World (<["db_cache.pkl" := Pickled (<["t1" := TableMeta None (Some ["id"])]> ∅)]> ∅)
                  (Some (<["t1" := Sample.t1]> ∅)) [NotNullQuery "t1"] [])).
Proof.
  pose proof (not_null_columns_lookup (Sample.ready Postgres) Sample.stocked "db_cache.pkl"
                ∅ "t1" eq_refl eq_refl) as (_ & H2 & _).
  exact (proj1 (H2 (<["t1" := Sample.t1]> ∅) ["id"] eq_refl eq_refl eq_refl eq_refl)).
Defined.

Lemma upsert_without_data_witness :
  upsert "t1" (Dict []) (State (blank Postgres) Sample.offline)
  = (Ok (),
     State (blank Postgres)
           (World (files Sample.offline) None [] [NoData])).
Proof. exact (upsert_without_data "t1" (Dict []) (State (blank Postgres) Sample.offline) eq_refl). Defined.

Lemma query_runs_before_it_validates_witness :
  query "SELECT * FROM t1" "json" (State (Sample.ready Duck) Sample.stocked)
  = (Ok None,
     State (Sample.ready Duck)
           (World ∅ (Some (<["t1" := Sample.t1]> ∅)) [Query "SELECT * FROM t1"]
                  [QueryFailed])).
Proof.
  apply (query_runs_before_it_validates (Sample.ready Duck) Sample.stocked
           (<["t1" := Sample.t1]> ∅) "SELECT * FROM t1" "json" eq_refl eq_refl);
    discriminate.
Defined.

Lemma query_dict_shape_witness :
  ∃ ms, (query "SELECT * FROM t1" "dict" (State (Sample.ready Duck) Sample.filled)).1
        = Ok (Some (Mappings ms))
    ∧ length ms = 1%nat.
Proof.
  destruct (query_dict_shape (Sample.ready Duck) Sample.filled
              (<["t1" := Tbl ["column1"; "column2"; "id"] ["id"] [Sample.row5]]> ∅)
              (<["t1" := Tbl ["column1"; "column2"; "id"] ["id"] [Sample.row5]]> ∅)
              "SELECT * FROM t1" ["column1"; "column2"; "id"]
              [[VStr "6"; VStr "8"; VInt 5]] eq_refl eq_refl eq_refl)
    as (ms & H1 & H2 & _).
  exists ms. split; [exact H1 | exact H2].
Defined.

Lemma idle_adapter_never_writes_witness :
  let st := State (Adapter Sqlite (Some "db_cache.pkl") (Some ∅) (Some Closed))
                  Sample.stocked in
  let st' := perform_all [DoUpsert "t1" (Frame Sample.batch);
                          DoExecute "DROP TABLE t1"; DoClose] st in
  server (env st') = server Sample.stocked.
Proof.
  pose proof (idle_adapter_never_writes
                [DoUpsert "t1" (Frame Sample.batch); DoExecute "DROP TABLE t1"; DoClose]
                (State (Adapter Sqlite (Some "db_cache.pkl") (Some ∅) (Some Closed))
                       Sample.stocked)) as Hidle.
  refine (proj1 (proj2 (Hidle _ _))).
  - unfold idle. cbn. discriminate.
  - repeat constructor.
Defined.

Lemma closed_adapter_still_available_witness :
  let closed b := Adapter b (Some "db_cache.pkl") (Some ∅) (Some Closed) in
  let w' := World ∅ (Some ∅) [] [ConnectionClosed] in
  close (State (Sample.ready Duck) Sample.fresh) = (Ok (), State (closed Duck) w')
  ∧ is_db_available (State (closed Duck) w') = (Ok true, State (closed Duck) w')
  ∧ close (State (Sample.ready Sqlite) Sample.fresh) = (Ok (), State (closed Sqlite) w')
  ∧ close (State (closed Sqlite) w') = (Raise NativeError, State (closed Sqlite) w')
  ∧ close (State (closed Duck) w')
    = (Ok (), State (closed Duck)
                (World ∅ (Some ∅) [] [ConnectionClosed; ConnectionClosed])).
Proof.
  cbv zeta.
  pose proof (closed_adapter_still_available (Sample.ready Duck) Sample.fresh
                "SELECT * FROM t1" "pandas" eq_refl) as (H1 & H2 & _ & _ & H5).
  pose proof (closed_adapter_still_available (Sample.ready Sqlite) Sample.fresh
                "SELECT * FROM t1" "pandas" eq_refl) as (L1 & _ & _ & _ & L5).
  split; [exact H1|]. split; [exact H2|]. split; [exact L1|]. split; [exact L5|exact H5].
Defined.

Lemma construction_loads_persisted_cache_witness :
  let r := construct Postgres "config.toml" Sample.remembered in
  r.1 = Ok (Sample.aware Postgres)
  ∧ calls r.2 = [Connect Postgres "config.toml"]
  ∧ console r.2 = []
  ∧ _get_primary_key "t1" (State (Sample.aware Postgres) r.2)
    = (Ok (Some ["id"]), State (Sample.aware Postgres) r.2).
Proof.
  cbv zeta.
  pose proof (construction_loads_persisted_cache Postgres "config.toml" Sample.remembered
                (<["t1" := Sample.t1]> ∅) Sample.known eq_refl eq_refl (λ _, eq_refl))
    as (H1 & H2 & _ & _ & H5 & H6).
  split; [exact H1|]. split; [exact H2|]. split; [exact H5|].
  exact (H6 "t1" ["id"] eq_refl).
Defined.

Lemma keyed_batch_upsert_is_one_call_witness :
  let q := InsertOnConflict DuckSyntax "t1" ["id"; "column1"; "column2"] ["id"]
             ["column1"; "column2"] in
  sql_text q
  = "INSERT INTO t1 (id, column1, column2) VALUES (?, ?, ?) ON CONFLICT (id) DO UPDATE SET column1=excluded.column1, column2=excluded.column2;"
  ∧ calls (env (upsert "t1" (Frame Sample.update)
                  (State (Sample.aware Duck) Sample.stocked)).2)
    = [Statement ExecuteMany q [[VInt 5; VStr "X"; VStr "Y"]]]
  ∧ calls (env (upsert "t2" (Frame Sample.measured)
                  (State (Sample.versed Sqlite) Sample.gauged)).2)
    = [Statement ExecuteMany (InsertOrReplace "t2" ["id"; "x"])
         [[VFloat 5 0; VFloat 3 (-1)]; [VFloat 4503599627370496 1; VFloat 1 0]]].
Proof.
  split; [reflexivity|]. split.
  - rewrite (keyed_batch_upsert_is_one_call (Sample.aware Duck) Sample.stocked Sample.known
               (<["t1" := Sample.t1]> ∅) "t1" Sample.update ["id"]);
      first [reflexivity | discriminate | apply (bool_decide_unpack _); vm_compute; exact I].
  - rewrite (keyed_batch_upsert_is_one_call (Sample.versed Sqlite) Sample.gauged
               (<["t2" := TableMeta (Some ["id"]) None]> ∅)
               (<["t2" := Sample.t2]> ∅) "t2" Sample.measured ["id"]);
      first [ vm_compute; reflexivity | discriminate
            | apply (bool_decide_unpack _); vm_compute; exact I].
Defined.

Lemma keyed_dict_upsert_is_one_call_witness :
  calls (env (upsert "t1" (Dict [("id", VInt 5); ("column1", VStr "Z")])
                (State (Sample.aware Postgres) Sample.stocked)).2)
  = [Statement Execute
       (InsertOnConflict PgPlaceholders "t1" ["id"; "column1"] ["id"] ["column1"])
       [[VInt 5; VStr "Z"]]].
Proof.
  rewrite (keyed_dict_upsert_is_one_call (Sample.aware Postgres) Sample.stocked Sample.known
             (<["t1" := Sample.t1]> ∅) "t1" [("id", VInt 5); ("column1", VStr "Z")] ["id"]);
    first [reflexivity | discriminate].
Defined.

Lemma colliding_index_label_raises_witness :
  ∃ st', upsert "t1" (Frame Sample.clash) (State (Sample.aware Sqlite) Sample.stocked)
         = (Raise ValueError, st').
Proof.
  destruct (colliding_index_label_raises "t1" Sample.clash
              (State (Sample.aware Sqlite) Sample.stocked) Sample.known)
    as (st' & H1 & _).
  - reflexivity.
  - apply (bool_decide_unpack _). vm_compute. exact I.
  - reflexivity.
  - apply (bool_decide_unpack _). vm_compute. exact I.
  - exists st'. exact H1.
Defined.

Lemma failed_connect_leaves_degraded_object_witness :
  let lite := construct Sqlite "sqlite.db" Sample.offline in
  let pg := construct Postgres "config.toml" Sample.offline in
  (∃ a, lite.1 = Ok a ∧ cache a = Some ∅ ∧ connection a = None
        ∧ console lite.2 = [ConnectFailed])
  ∧ (∃ a, pg.1 = Ok a ∧ cache_file a = None ∧ cache a = None ∧ connection a = None
          ∧ calls pg.2 = [Connect Postgres "config.toml"]
          ∧ (is_db_available (State a pg.2)).1 = Ok false).
Proof.
  cbv zeta. split.
  - destruct (failed_connect_leaves_degraded_object Sqlite "sqlite.db" Sample.offline ∅
                eq_refl) as (a & H1 & _ & H3 & _ & H5 & _ & H7 & _).
    { right. split; [reflexivity|]. split; [reflexivity|discriminate]. }
    exists a. split; [exact H1|]. split; [exact H5|]. split; [exact H3|exact H7].
  - destruct (failed_connect_leaves_degraded_object Postgres "config.toml" Sample.offline ∅
                eq_refl) as (a & H1 & _ & H3 & H4 & H5 & H6 & _ & _ & H9).
    { right. split; [reflexivity|]. split; [reflexivity|discriminate]. }
    exists a. split; [exact H1|]. split; [exact H4|]. split; [exact H5|].
    split; [exact H3|]. split; [exact H6|]. by rewrite H9.
Defined.

Lemma first_upsert_creates_then_inserts_witness :
  let q := CreateTable "t1" [("column1", "VARCHAR"); ("column2", "VARCHAR");
                             ("id", "VARCHAR")] ["id"] in
  let ins := InsertOnConflict DuckSyntax "t1" ["id"; "column1"; "column2"] ["id"]
               ["column1"; "column2"] in
  let st' := (upsert "t1" (Frame Sample.update) (State (Sample.ready Duck) Sample.fresh)).2 in
  calls (env st')
  = [PrimaryKeyQuery Duck "t1"; Statement Execute q []; PrimaryKeyQuery Duck "t1";
     Statement ExecuteMany ins [[VInt 5; VStr "X"; VStr "Y"]]]
  ∧ cache (self st') = Some Sample.known.
Proof.
  cbv zeta.
  rewrite (first_upsert_creates_then_inserts (Sample.ready Duck) Sample.fresh "db_cache.pkl"
             ∅ ∅ (<["t1" := Sample.t1]> ∅) "t1" Sample.update
             (CreateTable "t1" [("column1", "VARCHAR"); ("column2", "VARCHAR");
                                ("id", "VARCHAR")] ["id"])
             ["id"]);
    first [ split; reflexivity
          | reflexivity
          | discriminate
          | apply (bool_decide_unpack _); vm_compute; exact I
          | vm_compute; reflexivity ].
Defined.

Lemma create_table_reports_witness :
  _create_table_from_dataframe "t1" Sample.batch (State (Sample.ready Sqlite) Sample.stocked)
  = (Ok (),
     State (Sample.ready Sqlite)
           (World ∅ (Some (<["t1" := Sample.t1]> ∅))
                  [Statement Execute
                     (CreateTable "t1" [("column1", "TEXT"); ("column2", "TEXT");
                                        ("id", "TEXT")] ["id"]) []]
                  [CreateFailed "t1"])).
Proof.
  destruct (create_table_reports "t1" Sample.batch (Sample.ready Sqlite) Sample.stocked)
    as (_ & _ & H3).
  destruct H3 as (q & Hq & Hrun).
  - apply (bool_decide_unpack _). vm_compute. exact I.
  - discriminate.
  - injection Hq as <-. exact Hrun.
Defined.



Lemma cache_is_shared_between_adapters_witness :
  let w := World (<["config.toml" := Config]> ∅) (Some (<["t1" := Sample.t1]> ∅)) [] [] in
  let w1 := env (_get_primary_key "t1" (State (Sample.ready Sqlite) w)).2 in
  ∃ a' w2, construct Postgres "config.toml" w1 = (Ok a', w2)
    ∧ kind a' = Postgres
    ∧ calls w2 = [PrimaryKeyQuery Sqlite "t1"; Connect Postgres "config.toml"]
    ∧ _get_primary_key "t1" (State a' w2) = (Ok (Some ["id"]), State a' w2).
Proof.
  apply (cache_is_shared_between_adapters (Sample.ready Sqlite)
           (World (<["config.toml" := Config]> ∅) (Some (<["t1" := Sample.t1]> ∅)) [] [])
           ∅ (<["t1" := Sample.t1]> ∅) "t1" ["id"] Postgres "config.toml");
    try reflexivity.
  intros _. split; [reflexivity|discriminate].
Defined.

Lemma cache_file_tracks_cache_witness :
  let st := State (Sample.ready Duck) Sample.fresh in
  persisted (perform_all [DoUpsert "t1" (Frame Sample.batch); DoPrimaryKey "t1"] st).
Proof.
  refine (proj1 (proj2 (cache_file_tracks_cache Duck "duckdb.db" Sample.fresh
                          [DoUpsert "t1" (Frame Sample.batch); DoPrimaryKey "t1"]
                          (State (Sample.ready Duck) Sample.fresh)) _)).
  exists ∅. split; reflexivity.
Defined.
